(** * Bottl.py: age arithmetic and Gregorian/Jalali conversion

    A shallow embedding of the date-calculation core of [Bottl.py] and
    the properties its specification states about it.

    Modelling.  Python integers are [Z].  A [str] is the list of its
    code points.  An exception is a value of [exn], carried by the
    [result] monad; [try]/[except] is a case analysis on the result.
    [datetime.date], [calendar.monthrange], [str] methods, [int] and the
    fragment of [re] the program uses follow the CPython library.  The
    two optional Jalali packages are records of entry points; the
    module globals [JALALI_OK] and [JALALI_BACKEND] are computed from
    what is installed.  The system clock and the network are a record
    [world].  The flows read the lines the user types from a list and
    record what they print as a list of symbolic lines: the language
    table, shaping, colours and box drawing are not modelled, nor are
    the two menus, which only dispatch to the flows.

    The file has two parts: the program, in the order of the source,
    followed by the conversion algorithm assumed of the backend; then
    the facts, ending with one section per group of claims. *)

From Stdlib Require Import ZArith List Bool Lia String DecimalString.
Import ListNotations.
Open Scope Z_scope.

(** ** Exceptions and the result monad *)

Inductive exn : Type :=
| ValueError (msg : string)
| RuntimeError (msg : string)
| IllegalMonthError (month : Z)
| NameError (name : string)
| EOFError.

Inductive result (A : Type) : Type :=
| Ok (a : A)
| Raise (e : exn).

Arguments Ok {A} a.
Arguments Raise {A} e.

Definition bind {A B : Type} (c : result A) (k : A -> result B) : result B :=
  match c with
  | Ok a => k a
  | Raise e => Raise e
  end.

Declare Scope py_scope.
Delimit Scope py_scope with py.
Notation "x <- c ;; k" := (bind c (fun x => k))
  (at level 61, c at next level, right associativity) : py_scope.
Notation "' p <- c ;; k" := (bind c (fun x => let p := x in k))
  (at level 61, p pattern, c at next level, right associativity) : py_scope.
Open Scope py_scope.

(** ** [datetime]: dates, ordinals and differences *)

Module datetime.

Definition MINYEAR : Z := 1.
Definition MAXYEAR : Z := 9999.

Record date : Type := mkdate { year : Z; month : Z; day : Z }.

Record timedelta : Type := mktimedelta { days : Z }.

Definition _is_leap (y : Z) : bool :=
  (y mod 4 =? 0) && (negb (y mod 100 =? 0) || (y mod 400 =? 0)).

(* _DAYS_IN_MONTH = [-1, 31, 28, 31, 30, 31, 30, 31, 31, 30, 31, 30, 31] *)
Definition _DAYS_IN_MONTH : list Z :=
  [-1; 31; 28; 31; 30; 31; 30; 31; 31; 30; 31; 30; 31].

(* _DAYS_BEFORE_MONTH, the running sum of the table above *)
Definition _DAYS_BEFORE_MONTH : list Z :=
  [-1; 0; 31; 59; 90; 120; 151; 181; 212; 243; 273; 304; 334].

Definition _days_before_year (y : Z) : Z :=
  let y := y - 1 in
  y * 365 + y / 4 - y / 100 + y / 400.

Definition _days_in_month (y m : Z) : Z :=
  if (m =? 2) && _is_leap y then 29
  else nth (Z.to_nat m) _DAYS_IN_MONTH 0.

Definition _days_before_month (y m : Z) : Z :=
  nth (Z.to_nat m) _DAYS_BEFORE_MONTH 0
  + (if (2 <? m) && _is_leap y then 1 else 0).

Definition _ymd2ord (y m d : Z) : Z :=
  _days_before_year y + _days_before_month y m + d.

(* divmod-based inverse of _ymd2ord, as in CPython's _ord2ymd *)
Definition _DI400Y : Z := 146097.
Definition _DI100Y : Z := 36524.
Definition _DI4Y : Z := 1461.

Definition _ord2ymd (n : Z) : Z * Z * Z :=
  let n := n - 1 in
  let n400 := n / _DI400Y in
  let n := n mod _DI400Y in
  let y := n400 * 400 + 1 in
  let n100 := n / _DI100Y in
  let n := n mod _DI100Y in
  let n4 := n / _DI4Y in
  let n := n mod _DI4Y in
  let n1 := n / 365 in
  let n := n mod 365 in
  let y := y + n100 * 100 + n4 * 4 + n1 in
  if (n1 =? 4) || (n100 =? 4) then (y - 1, 12, 31)
  else
    let leapyear := (n1 =? 3) && (negb (n4 =? 24) || (n100 =? 3)) in
    let m := Z.shiftr (n + 50) 5 in
    let preceding :=
      nth (Z.to_nat m) _DAYS_BEFORE_MONTH 0
      + (if (2 <? m) && leapyear then 1 else 0) in
    if n <? preceding then
      let m := m - 1 in
      let preceding :=
        preceding
        - (nth (Z.to_nat m) _DAYS_IN_MONTH 0
           + (if (m =? 2) && leapyear then 1 else 0)) in
      (y, m, n - preceding + 1)
    else (y, m, n - preceding + 1).

Definition year_error (y : Z) : exn :=
  ValueError ("year " ++ NilZero.string_of_int (Z.to_int y)
              ++ " is out of range").
Definition month_error : exn := ValueError "month must be in 1..12".
Definition day_error : exn := ValueError "day is out of range for month".

(** [date(y, m, d)]: the constructor checks the three fields. *)
Definition date_new (y m d : Z) : result date :=
  if negb ((MINYEAR <=? y) && (y <=? MAXYEAR)) then Raise (year_error y)
  else if negb ((1 <=? m) && (m <=? 12)) then Raise month_error
  else if negb ((1 <=? d) && (d <=? _days_in_month y m)) then Raise day_error
  else Ok (mkdate y m d).

(** The values the constructor can build. *)
Definition date_ok (x : date) : bool :=
  (MINYEAR <=? year x) && (year x <=? MAXYEAR)
  && (1 <=? month x) && (month x <=? 12)
  && (1 <=? day x) && (day x <=? _days_in_month (year x) (month x)).

(* date.min and date.max *)
Definition date_min : date := mkdate MINYEAR 1 1.
Definition date_max : date := mkdate MAXYEAR 12 31.

Definition toordinal (x : date) : Z := _ymd2ord (year x) (month x) (day x).

Definition weekday (x : date) : Z := (toordinal x + 6) mod 7.

(* rich comparison goes through the (year, month, day) triples *)
Definition _cmp (a b : date) : comparison :=
  match year a ?= year b with
  | Eq => match month a ?= month b with
          | Eq => day a ?= day b
          | c => c
          end
  | c => c
  end.

Definition date_le (a b : date) : bool :=
  match _cmp a b with Gt => false | _ => true end.
Definition date_lt (a b : date) : bool :=
  match _cmp a b with Lt => true | _ => false end.
Definition date_gt (a b : date) : bool :=
  match _cmp a b with Gt => true | _ => false end.
Definition date_eqb (a b : date) : bool :=
  match _cmp a b with Eq => true | _ => false end.

(** [a - b] on dates *)
Definition date_sub (a b : date) : timedelta :=
  mktimedelta (toordinal a - toordinal b).

End datetime.

Import datetime.

(** ** [calendar]: month lengths *)

Module calendar.

Definition isleap (y : Z) : bool :=
  (y mod 4 =? 0) && (negb (y mod 100 =? 0) || (y mod 400 =? 0)).

Definition mdays : list Z := [0; 31; 28; 31; 30; 31; 30; 31; 31; 30; 31; 30; 31].

Definition February : Z := 2.

Definition weekday (y m d : Z) : result Z :=
  let y := if negb ((MINYEAR <=? y) && (y <=? MAXYEAR))
           then 2000 + y mod 400 else y in
  x <- date_new y m d ;;
  Ok (datetime.weekday x).

Definition monthrange (y m : Z) : result (Z * Z) :=
  if negb ((1 <=? m) && (m <=? 12)) then Raise (IllegalMonthError m)
  else
    day1 <- weekday y m 1 ;;
    let ndays := nth (Z.to_nat m) mdays 0
                 + (if (m =? February) && isleap y then 1 else 0) in
    Ok (day1, ndays).

End calendar.

(** ** [str]: code points, whitespace, digits *)

(** A Python [str] is the sequence of its code points. *)
Definition pystr : Type := list Z.

Definition str_eqb (a b : pystr) : bool :=
  if list_eq_dec Z.eq_dec a b then true else false.

Definition str_in (s : pystr) (set : list pystr) : bool :=
  existsb (str_eqb s) set.

(** [str.isspace] for one code point: the whitespace table of CPython
    ([_Py_ascii_whitespace] and [_PyUnicode_IsWhitespace]). *)
Definition isspace (c : Z) : bool :=
  ((9 <=? c) && (c <=? 13)) || ((28 <=? c) && (c <=? 32))
  || (c =? 133) || (c =? 160) || (c =? 5760)
  || ((8192 <=? c) && (c <=? 8202))
  || (c =? 8232) || (c =? 8233) || (c =? 8239) || (c =? 8287)
  || (c =? 12288).

Fixpoint lstrip (s : pystr) : pystr :=
  match s with
  | c :: s' => if isspace c then lstrip s' else s
  | [] => []
  end.

Definition rstrip (s : pystr) : pystr := rev (lstrip (rev s)).

Definition strip (s : pystr) : pystr := rstrip (lstrip s).

(** [str.split(sep)] for a separator of one character. *)
Fixpoint split (sep : Z) (s : pystr) : list pystr :=
  match s with
  | [] => [[]]
  | c :: s' =>
      if c =? sep then [] :: split sep s'
      else match split sep s' with
           | w :: ws => (c :: w) :: ws
           | [] => [[c]]
           end
  end.

(** [str.translate] with a table built by [str.maketrans(x, y)]. *)
Definition maketrans (x y : pystr) : list (Z * Z) := combine x y.

Fixpoint table_get (c : Z) (table : list (Z * Z)) : option Z :=
  match table with
  | (k, v) :: table' => if c =? k then Some v else table_get c table'
  | [] => None
  end.

(* a later pair of a dict built from pairs overrides an earlier one; the
   keys of the table of this program are distinct *)
Definition translate (table : list (Z * Z)) (s : pystr) : pystr :=
  map (fun c => match table_get c table with Some v => v | None => c end) s.

(** The part of the Unicode character database the program depends on
    and that varies with the interpreter: which code points are decimal
    digits (category Nd), with their values, and the lower-case mapping.
    [\d] of [re] and [int] both read the first; [str.lower] the second.
    Every version of the database has the ASCII, Arabic-Indic and
    Persian digits with their values, and in no version is the hyphen a
    digit. *)
Class UnicodeData : Type := {
  decimal : Z -> option Z;
  lower : pystr -> pystr;
  decimal_ascii : forall i, 0 <= i <= 9 -> decimal (48 + i) = Some i;
  decimal_arabic_indic : forall i, 0 <= i <= 9 -> decimal (1632 + i) = Some i;
  decimal_persian : forall i, 0 <= i <= 9 -> decimal (1776 + i) = Some i;
  decimal_hyphen : decimal 45 = None
}.

(** One such database, with the three families of digits the program
    names and the ASCII letters, on which the model can be run. *)
Definition three_scripts_decimal (c : Z) : option Z :=
  if (48 <=? c) && (c <=? 57) then Some (c - 48)
  else if (1632 <=? c) && (c <=? 1641) then Some (c - 1632)
  else if (1776 <=? c) && (c <=? 1785) then Some (c - 1776)
  else None.

Definition ascii_lower (s : pystr) : pystr :=
  map (fun c => if (65 <=? c) && (c <=? 90) then c + 32 else c) s.

Definition three_scripts : UnicodeData.
Proof.
  refine {| decimal := three_scripts_decimal; lower := ascii_lower |}.
  - intros i Hi. unfold three_scripts_decimal.
    replace ((48 <=? 48 + i) && (48 + i <=? 57)) with true
      by (symmetry; lia).
    f_equal. lia.
  - intros i Hi. unfold three_scripts_decimal.
    replace ((48 <=? 1632 + i) && (1632 + i <=? 57)) with false
      by (symmetry; lia).
    replace ((1632 <=? 1632 + i) && (1632 + i <=? 1641)) with true
      by (symmetry; lia).
    f_equal. lia.
  - intros i Hi. unfold three_scripts_decimal.
    replace ((48 <=? 1776 + i) && (1776 + i <=? 57)) with false
      by (symmetry; lia).
    replace ((1632 <=? 1776 + i) && (1776 + i <=? 1641)) with false
      by (symmetry; lia).
    replace ((1776 <=? 1776 + i) && (1776 + i <=? 1785)) with true
      by (symmetry; lia).
    f_equal. lia.
  - reflexivity.
Defined.

(** ** [re]: the fragment the program uses, matched by derivatives *)

Module re.

Inductive pattern : Type :=
| Fail                          (* matches nothing *)
| Empty                         (* the empty string *)
| Chr (c : Z)                   (* one literal character *)
| Digit                         (* \d *)
| Seq (p q : pattern)
| Alt (p q : pattern).

(** [p{n}] and [p{1,2}] *)
Fixpoint Rep (n : nat) (p : pattern) : pattern :=
  match n with
  | O => Empty
  | S n' => Seq p (Rep n' p)
  end.

Definition Rep12 (p : pattern) : pattern := Seq p (Alt p Empty).

Fixpoint nullable (p : pattern) : bool :=
  match p with
  | Fail => false
  | Empty => true
  | Chr _ => false
  | Digit => false
  | Seq p q => nullable p && nullable q
  | Alt p q => nullable p || nullable q
  end.

Section Match.
Context {U : UnicodeData}.

Definition isdigit (c : Z) : bool :=
  match decimal c with Some _ => true | None => false end.

Fixpoint deriv (c : Z) (p : pattern) : pattern :=
  match p with
  | Fail => Fail
  | Empty => Fail
  | Chr c' => if c =? c' then Empty else Fail
  | Digit => if isdigit c then Empty else Fail
  | Seq p q =>
      if nullable p then Alt (Seq (deriv c p) q) (deriv c q)
      else Seq (deriv c p) q
  | Alt p q => Alt (deriv c p) (deriv c q)
  end.

Fixpoint fullmatch (p : pattern) (s : pystr) : bool :=
  match s with
  | [] => nullable p
  | c :: s' => fullmatch (deriv c p) s'
  end.

(** What it means for a string to match a pattern; [fullmatch]
    decides it. *)
Fixpoint matches (p : pattern) (s : pystr) : Prop :=
  match p with
  | Fail => False
  | Empty => s = []
  | Chr c => s = [c]
  | Digit => exists c, s = [c] /\ isdigit c = true
  | Seq p q => exists s1 s2, s = s1 ++ s2 /\ matches p s1 /\ matches q s2
  | Alt p q => matches p s \/ matches q s
  end.

(** [re.sub] of a class of single characters by one character *)
Definition sub_chars (cls : list Z) (repl : Z) (s : pystr) : pystr :=
  map (fun c => if existsb (Z.eqb c) cls then repl else c) s.

End Match.

End re.

(** [int(s)] on a string of decimal digits of any script; the program
    only converts substrings that [\d] has matched, anything else is
    reported as the [ValueError] of [int]. *)
Section Int.
Context {U : UnicodeData}.

Fixpoint int_digits (acc : Z) (s : pystr) : option Z :=
  match s with
  | [] => Some acc
  | c :: s' =>
      match decimal c with
      | Some v => int_digits (10 * acc + v) s'
      | None => None
      end
  end.

(** The number a string of digits denotes. *)
Definition digits_value (s : pystr) : Z :=
  match int_digits 0 s with Some n => n | None => 0 end.

(** Strings of digits only. *)
Definition isdecimal (s : pystr) : bool := forallb re.isdigit s.

Definition int (s : pystr) : result Z :=
  match s with
  | [] => Raise (ValueError "invalid literal for int() with base 10")
  | _ => match int_digits 0 s with
         | Some n => Ok n
         | None => Raise (ValueError "invalid literal for int() with base 10")
         end
  end.

Fixpoint map_int (parts : list pystr) : result (list Z) :=
  match parts with
  | [] => Ok []
  | p :: parts' =>
      n <- int p ;;
      ns <- map_int parts' ;;
      Ok (n :: ns)
  end.

End Int.

(** ** i18n (Bottl.py, lines 75-79) *)

(* "۰۱۲۳۴۵۶۷۸۹٠١٢٣٤٥٦٧٨٩" and "01234567890123456789" *)
Definition P2L_DIGITS : list (Z * Z) :=
  maketrans
    [1776; 1777; 1778; 1779; 1780; 1781; 1782; 1783; 1784; 1785;
     1632; 1633; 1634; 1635; 1636; 1637; 1638; 1639; 1640; 1641]
    [48; 49; 50; 51; 52; 53; 54; 55; 56; 57;
     48; 49; 50; 51; 52; 53; 54; 55; 56; 57].

(** What the table does to one character. *)
Definition p2l (c : Z) : Z :=
  match table_get c P2L_DIGITS with Some v => v | None => c end.

Definition normalize_digits (s : pystr) : pystr := translate P2L_DIGITS s.

(** ** The current date (Bottl.py, lines 173-227) *)

(** What the process finds outside itself: the system clock read by
    [date.today()], which may raise, and the outcome of the best-effort
    HTTP lookup of [_fetch_online_date], which swallows every failure
    and yields a date or [None]. *)
Record world : Type := {
  date_today : result date;
  online_date : option date
}.

Definition _fetch_online_date (w : world) : option date := online_date w.

Definition plausible_year (y : Z) : bool := (1970 <=? y) && (y <=? 2100).

Definition get_current_date (w : world) : date :=
  let local :=
    match date_today w with
    | Ok local_today =>
        if plausible_year (year local_today) then Some local_today else None
    | Raise _ => None
    end in
  match local with
  | Some local_today => local_today
  | None =>
      match _fetch_online_date w with
      | Some online =>
          if plausible_year (year online) then online else mkdate 2000 1 1
      | None => mkdate 2000 1 1
      end
  end.

(** The branch of [get_current_date] that produced the date, which the
    spec wants the result to carry: the function follows the same tests
    and returns the name of the branch instead of the date. *)
Inductive source : Type := local | online | fallback.

Definition branch_taken (w : world) : source :=
  let local_ok :=
    match date_today w with
    | Ok local_today => plausible_year (year local_today)
    | Raise _ => false
    end in
  if local_ok then local
  else
    match _fetch_online_date w with
    | Some o => if plausible_year (year o) then online else fallback
    | None => fallback
    end.

(** ** Parsing helpers (Bottl.py, lines 230-244) *)

Definition use_gregorian : exn :=
  ValueError "Use Gregorian YYYY-MM-DD (e.g., 1990-07-15).".

Definition use_jalali : exn :=
  ValueError "Use Jalali YYYY-MM-DD (e.g., 1370-04-24).".

Section Parsing.
Context {U : UnicodeData}.

(* re.sub(r"[\/\.]", "-", s.strip()) *)
Definition _normalize_sep (s : pystr) : pystr :=
  re.sub_chars [47; 46] 45 (strip s).

(* \d{4}-\d{1,2}-\d{1,2} *)
Definition date_pattern : re.pattern :=
  re.Seq (re.Rep 4 re.Digit)
    (re.Seq (re.Chr 45)
       (re.Seq (re.Rep12 re.Digit)
          (re.Seq (re.Chr 45) (re.Rep12 re.Digit)))).

(** The strings the pattern of the two parsers accepts: four digits,
    a hyphen, one or two digits, a hyphen, one or two digits. *)
Definition date_shaped (s y m d : pystr) : Prop :=
  s = y ++ 45 :: m ++ 45 :: d
  /\ isdecimal y = true /\ List.length y = 4%nat
  /\ isdecimal m = true /\ (List.length m = 1 \/ List.length m = 2)%nat
  /\ isdecimal d = true /\ (List.length d = 1 \/ List.length d = 2)%nat.

Definition unpack_error : exn :=
  ValueError "wrong number of values to unpack (expected 3)".

Definition parse_gregorian (s : pystr) : result date :=
  let s := _normalize_sep s in
  if negb (re.fullmatch date_pattern s) then
    Raise use_gregorian
  else
    parts <- map_int (split 45 s) ;;
    match parts with
    | [y; m; d] => date_new y m d
    | _ => Raise unpack_error
    end.

(** The tuple is returned as it comes out of [map]; the callers unpack
    it into three names. *)
Definition parse_jalali_tuple (s : pystr) : result (list Z) :=
  let s := _normalize_sep s in
  if negb (re.fullmatch date_pattern s) then
    Raise use_jalali
  else
    map_int (split 45 s).

(** Patterns whose literal characters are among the separators. *)
Fixpoint separators_only (p : re.pattern) : Prop :=
  match p with
  | re.Chr c => 45 <= c <= 47
  | re.Seq p q | re.Alt p q => separators_only p /\ separators_only q
  | _ => True
  end.

End Parsing.

(** ASCII digit strings and their value, without the character
    database, to run the parsers on sample inputs. *)
Definition is_ascii_digits (s : pystr) : bool :=
  forallb (fun c => (48 <=? c) && (c <=? 57)) s.

Definition ascii_value (s : pystr) : Z :=
  fold_left (fun acc c => 10 * acc + (c - 48)) s 0.

(** Sample inputs: "1370-04-24", "۱۳۷۰-۰۴-۲۴", "٢٠٢٤/٢/٢٩" and its
    normalized form "2024/2/29", "2024-13-01", "2023.02.30", "24-1-1"
    and "1400-13-40". *)
Definition s_1370_04_24 : pystr := [49; 51; 55; 48; 45; 48; 52; 45; 50; 52].
Definition s_1370_04_24_fa : pystr :=
  [1777; 1779; 1783; 1776; 45; 1776; 1780; 45; 1778; 1780].
Definition s_2023_02_30 : pystr := [50; 48; 50; 51; 46; 48; 50; 46; 51; 48].
Definition s_1400_13_40 : pystr := [49; 52; 48; 48; 45; 49; 51; 45; 52; 48].

(** ** Optional Jalali backends (Bottl.py, lines 36-50) *)

(** The two packages the program may find installed.  Their code is not
    part of the program; the wrappers below only see these entry
    points. *)
Record convertdate_jalali : Type := {
  from_gregorian : Z -> Z -> Z -> result (Z * Z * Z);
  to_gregorian : Z -> Z -> Z -> result (Z * Z * Z)
}.

Record jdate : Type := mkjdate { jyear : Z; jmonth : Z; jday : Z }.

Record jdatetime : Type := {
  jd_date : Z -> Z -> Z -> result jdate;        (* jd.date(y, m, d) *)
  fromgregorian : date -> result jdate;        (* jd.date.fromgregorian(date=g) *)
  togregorian : jdate -> result date           (* j.togregorian() *)
}.

Record site_packages : Type := {
  pkg_convertdate : option convertdate_jalali;
  pkg_jdatetime : option jdatetime
}.

Inductive backend : Type := convertdate | jdatetime_backend.

Definition backend_eqb (a b : backend) : bool :=
  match a, b with
  | convertdate, convertdate => true
  | jdatetime_backend, jdatetime_backend => true
  | _, _ => false
  end.

(** The module globals the imports leave behind. *)
Record globals : Type := {
  JALALI_OK : bool;
  JALALI_BACKEND : option backend;
  cv_jalali : option convertdate_jalali;
  jd : option jdatetime
}.

Definition import_backends (sp : site_packages) : globals :=
  match pkg_convertdate sp with
  | Some cv =>
      {| JALALI_OK := true; JALALI_BACKEND := Some convertdate;
         cv_jalali := Some cv; jd := None |}
  | None =>
      match pkg_jdatetime sp with
      | Some j =>
          {| JALALI_OK := true; JALALI_BACKEND := Some jdatetime_backend;
             cv_jalali := None; jd := Some j |}
      | None =>
          {| JALALI_OK := false; JALALI_BACKEND := None;
             cv_jalali := None; jd := None |}
      end
  end.

(** ** Jalali conversion wrappers (Bottl.py, lines 247-265) *)

Definition no_backend : exn :=
  RuntimeError
    "Jalali backend not available. Install 'convertdate' or 'jdatetime'.".

Definition is_convertdate (G : globals) : bool :=
  match JALALI_BACKEND G with
  | Some b => backend_eqb b convertdate
  | None => false
  end.

Definition gdate_to_jtuple (G : globals) (gd : date) : result (Z * Z * Z) :=
  if negb (JALALI_OK G) then Raise no_backend
  else if is_convertdate G then
    match cv_jalali G with
    | Some cv => from_gregorian cv (year gd) (month gd) (day gd)
    | None => Raise (NameError "cv_jalali")
    end
  else
    match jd G with
    | Some jdm =>
        j <- fromgregorian jdm gd ;;
        Ok (jyear j, jmonth j, jday j)
    | None => Raise (NameError "jd")
    end.

Definition jtuple_to_gdate (G : globals) (jy jm jd_ : Z) : result date :=
  if negb (JALALI_OK G) then Raise no_backend
  else if is_convertdate G then
    match cv_jalali G with
    | Some cv =>
        '(gy, gm, gd) <- to_gregorian cv jy jm jd_ ;;
        date_new gy gm gd
    | None => Raise (NameError "cv_jalali")
    end
  else
    match jd G with
    | Some jdm =>
        j <- jd_date jdm jy jm jd_ ;;
        togregorian jdm j
    | None => Raise (NameError "jd")
    end.
(** ** Age math (Bottl.py, lines 268-302) *)

Definition future_birthdate : exn :=
  ValueError "Birthdate cannot be in the future.".

Definition age_ymd (born today : date) : result (Z * Z * Z) :=
  if date_gt born today then Raise future_birthdate
  else
    let y := year today - year born in
    let m := month today - month born in
    let d := day today - day born in
    '(m, d) <-
      (if d <? 0 then
         let '(prev_month, prev_year) :=
           if month today =? 1 then (12, year today - 1)
           else (month today - 1, year today) in
         mr <- calendar.monthrange prev_year prev_month ;;
         let days_in_prev_month := snd mr in
         Ok (m - 1, d + days_in_prev_month)
       else Ok (m, d)) ;;
    let '(y, m) := if m <? 0 then (y - 1, m + 12) else (y, m) in
    Ok (y, m, d).

Definition _safe_date (y m d : Z) : result date :=
  mr <- calendar.monthrange y m ;;
  let last_day := snd mr in
  date_new y m (Z.min d last_day).

Definition next_birthday_after (born today : date) : result date :=
  let b_month := month born in
  let b_day := day born in
  candidate <- _safe_date (year today) b_month b_day ;;
  if date_le candidate today then
    _safe_date (year today + 1) b_month b_day
  else Ok candidate.

Definition days_until_next_birthday (born today : date) : result Z :=
  nb <- next_birthday_after born today ;;
  Ok (days (date_sub nb today)).


(** The day on which a birthday is observed in year [y], in the words
    of the spec: born's month and day, the day clamped to the last day
    of that month ("safe date").  [next_birthday_after] is compared with
    it below. *)
Definition observance (born : date) (y : Z) : date :=
  mkdate y (month born) (Z.min (day born) (_days_in_month y (month born))).

(** Whether the next observance fits in [date]: today is before the
    last year, or the observance of the last year is still ahead. *)
Definition has_next_birthday (born today : date) : bool :=
  (year today <? MAXYEAR)
  || negb (date_le (observance born (year today)) today).

(** ** Cards and flows (Bottl.py, lines 348-469) *)

(** The presentation layer (language table, shaping, colours, box
    drawing) is kept symbolic: what is printed is recorded as the key of
    the text and the values shown, what is read comes from the list of
    the lines the user will type. *)
Inductive key : Type :=
| NEED_JALALI | FALLBACK_WARN | ONLINE_INFO
| ENTER_BD_G | ENTER_BD_J | J_DATE | G_DATE | TRY_ANOTHER
| AGE_CARD | BIRTH_G | TODAY_G | BIRTH_J | TODAY_J | AGE
| NEXT_BD_G | NEXT_BD_J | NEXT_BD | IN_
| CONV_J2G | CONV_G2J | LABEL_GREGORIAN | LABEL_JALALI.

Inductive shown : Type :=
| ShowDate (g : date)
| ShowJalali (j : Z * Z * Z)
| ShowAge (ymd : Z * Z * Z)
| ShowDays (n : Z).

Inductive output : Type :=
| Say (k : key)                     (* print(colorize(t(k), ...)) *)
| SayErr (e : exn)                  (* print(colorize(t("ERR", e=e), Fore.RED)) *)
| Blank                             (* print() *)
| Title (k : key)                   (* print(title(t(k))) *)
| Line (label : key) (v : shown)    (* print(line(t(label), ...)) *)
| BoxBottom                         (* print(BOX_BOTTOM) *)
| Ask (k : key).                    (* prompt(t(k)) *)

(** Printing code: the lines printed so far and the value or the
    exception that ended it. *)
Definition io (A : Type) : Type := list output * result A.

Definition io_bind {A B : Type} (c : io A) (k : A -> io B) : io B :=
  match c with
  | (o1, Ok a) => let '(o2, r) := k a in (o1 ++ o2, r)
  | (o1, Raise e) => (o1, Raise e)
  end.

Definition print (o : output) : io unit := ([o], Ok tt).
Definition lift {A : Type} (r : result A) : io A := ([], r).

Declare Scope io_scope.
Delimit Scope io_scope with io.
Notation "x <- c ;; k" := (io_bind c (fun x => k))
  (at level 61, c at next level, right associativity) : io_scope.
Notation "c ;; k" := (io_bind c (fun _ => k))
  (at level 61, right associativity) : io_scope.
Notation "' p <- c ;; k" := (io_bind c (fun x => let p := x in k))
  (at level 61, p pattern, c at next level, right associativity) : io_scope.

(** What a flow leaves behind: its output, how it ended, and the lines
    it has not read. *)
Record run : Type := mkrun {
  printed : list output;
  outcome : result unit;
  unread : list pystr
}.

Definition after (o : list output) (r : run) : run :=
  mkrun (o ++ printed r) (outcome r) (unread r).

Definition word_b : pystr := [98].
Definition word_back : pystr := [98; 97; 99; 107].
Definition word_y : pystr := [121].
Definition word_yes : pystr := [121; 101; 115].
Definition word_bale : pystr := [1576; 1604; 1607].   (* "بله" *)
Definition word_are : pystr := [1570; 1585; 1607].    (* "آره" *)

Section Flows.
Context {U : UnicodeData}.
Variable G : globals.
Variable w : world.

Definition show_age_card (born_g today_g : date) (ymd : Z * Z * Z)
    (d2n : Z) : io unit :=
  (print (Title AGE_CARD) ;;
   print (Line BIRTH_G (ShowDate born_g)) ;;
   print (Line TODAY_G (ShowDate today_g)) ;;
   (if JALALI_OK G then
      jb <- lift (gdate_to_jtuple G born_g) ;;
      jt <- lift (gdate_to_jtuple G today_g) ;;
      print (Line BIRTH_J (ShowJalali jb)) ;;
      print (Line TODAY_J (ShowJalali jt))
    else lift (Ok tt)) ;;
   print (Line AGE (ShowAge ymd)) ;;
   nb <- lift (next_birthday_after born_g today_g) ;;
   (if JALALI_OK G then
      jnb <- lift (gdate_to_jtuple G nb) ;;
      print (Line NEXT_BD_G (ShowDate nb)) ;;
      print (Line NEXT_BD_J (ShowJalali jnb))
    else print (Line NEXT_BD (ShowDate nb))) ;;
   print (Line IN_ (ShowDays d2n)) ;;
   print BoxBottom)%io.

Definition show_convert_card (title_text : key) (g : date)
    (j : Z * Z * Z) : io unit :=
  (print (Title title_text) ;;
   print (Line LABEL_GREGORIAN (ShowDate g)) ;;
   print (Line LABEL_JALALI (ShowJalali j)) ;;
   print BoxBottom)%io.

Definition jtuple_to_gregorian_safe (jy jm jd_ : Z) : result date :=
  jtuple_to_gdate G jy jm jd_.

(** The note printed before the first prompt of the two age flows;
    [date.today()] is read again and may raise. *)
Definition today_note (today : date) : io unit :=
  if negb (plausible_year (year today)) then print (Say FALLBACK_WARN)
  else
    (now <- lift (date_today w) ;;
     if negb (date_eqb today now) then print (Say ONLINE_INFO)
     else lift (Ok tt))%io.

Definition unpack3 (t : list Z) : result (Z * Z * Z) :=
  match t with
  | [a; b; c] => Ok (a, b, c)
  | _ => Raise unpack_error
  end.

(** The body of the [try] of each flow, up to the last [print()]. *)
Definition age_gregorian_try (today : date) (raw : pystr) : io unit :=
  (born <- lift (parse_gregorian raw) ;;
   ymd <- lift (age_ymd born today) ;;
   d2n <- lift (days_until_next_birthday born today) ;;
   print Blank ;;
   show_age_card born today ymd d2n ;;
   print Blank)%io.

Definition age_jalali_try (today : date) (raw : pystr) : io unit :=
  (t <- lift (parse_jalali_tuple raw) ;;
   '(jy, jm, jd_) <- lift (unpack3 t) ;;
   born_g <- lift (jtuple_to_gdate G jy jm jd_) ;;
   ymd <- lift (age_ymd born_g today) ;;
   d2n <- lift (days_until_next_birthday born_g today) ;;
   print Blank ;;
   show_age_card born_g today ymd d2n ;;
   print Blank)%io.

Definition convert_j2g_try (raw : pystr) : io unit :=
  (t <- lift (parse_jalali_tuple raw) ;;
   '(jy, jm, jd_) <- lift (unpack3 t) ;;
   g <- lift (jtuple_to_gregorian_safe jy jm jd_) ;;
   let j := (jy, jm, jd_) in
   print Blank ;;
   show_convert_card CONV_J2G g j ;;
   print Blank)%io.

Definition convert_g2j_try (raw : pystr) : io unit :=
  (g <- lift (parse_gregorian raw) ;;
   j <- lift (gdate_to_jtuple G g) ;;
   print Blank ;;
   show_convert_card CONV_G2J g j ;;
   print Blank)%io.

(** [while True:] of the age flows.  One turn reads the birthdate and,
    when the card was shown, the answer to "try another"; that second
    prompt is inside the [try], so running out of input there is
    caught and reported before the next turn fails at its own
    prompt. *)
Fixpoint age_loop (ask : key) (try_ : pystr -> io unit)
    (input : list pystr) : run :=
  match input with
  | [] => mkrun [Ask ask] (Raise EOFError) []
  | line :: rest =>
      let raw := normalize_digits (strip line) in
      if str_in (lower raw) [word_b; word_back] then
        mkrun [Ask ask] (Ok tt) rest
      else
        match try_ raw with
        | (o, Ok _) =>
            match rest with
            | [] =>
                after (Ask ask :: o ++ [Ask TRY_ANOTHER; SayErr EOFError])
                  (age_loop ask try_ rest)
            | answer :: rest' =>
                let again := lower (strip answer) in
                if negb (str_in again
                           [word_y; word_yes; word_bale; word_are]) then
                  mkrun (Ask ask :: o ++ [Ask TRY_ANOTHER]) (Ok tt) rest'
                else
                  after (Ask ask :: o ++ [Ask TRY_ANOTHER])
                    (age_loop ask try_ rest')
            end
        | (o, Raise e) =>
            after (Ask ask :: o ++ [SayErr e]) (age_loop ask try_ rest)
        end
  end.

(** [while True:] of the conversion flows: only "b" or "back" leaves. *)
Fixpoint convert_loop (ask : key) (try_ : pystr -> io unit)
    (input : list pystr) : run :=
  match input with
  | [] => mkrun [Ask ask] (Raise EOFError) []
  | line :: rest =>
      let raw := normalize_digits (strip line) in
      if str_in (lower raw) [word_b; word_back] then
        mkrun [Ask ask] (Ok tt) rest
      else
        match try_ raw with
        | (o, Ok _) => after (Ask ask :: o) (convert_loop ask try_ rest)
        | (o, Raise e) =>
            after (Ask ask :: o ++ [SayErr e]) (convert_loop ask try_ rest)
        end
  end.

Definition calculate_age_gregorian_flow (input : list pystr) : run :=
  let today := get_current_date w in
  match today_note today with
  | (o, Raise e) => mkrun o (Raise e) input
  | (o, Ok _) =>
      after o (age_loop ENTER_BD_G (age_gregorian_try today) input)
  end.

Definition calculate_age_jalali_flow (input : list pystr) : run :=
  if negb (JALALI_OK G) then mkrun [Say NEED_JALALI] (Ok tt) input
  else
    let today := get_current_date w in
    match today_note today with
    | (o, Raise e) => mkrun o (Raise e) input
    | (o, Ok _) =>
        after o (age_loop ENTER_BD_J (age_jalali_try today) input)
    end.

Definition convert_jalali_to_gregorian_flow (input : list pystr) : run :=
  if negb (JALALI_OK G) then mkrun [Say NEED_JALALI] (Ok tt) input
  else convert_loop J_DATE convert_j2g_try input.

Definition convert_gregorian_to_jalali_flow (input : list pystr) : run :=
  if negb (JALALI_OK G) then mkrun [Say NEED_JALALI] (Ok tt) input
  else convert_loop G_DATE convert_g2j_try input.

End Flows.

(** ** The conversion algorithm behind the wrappers *)

Module JalaliConverter.

(** Modelled from the spec: the calendar-conversion algorithm of the
    Jalali backend ([convertdate] or [jdatetime]), a third-party
    package whose code is not among the sources of the program.  The
    spec asks for the standard epoch-based Solar Hijri algorithm
    referenced to the Gregorian epoch: months 1-6 of 31 days, 7-11 of
    30, month 12 of 29 days or 30 in a leap year of the 33-year cycle;
    [gregorianToJalali] total on Gregorian dates, [jalaliToGregorian]
    failing with InvalidCalendarDate on a triple that is not
    structurally valid; 2025-10-18 and 1404-07-26 a golden pair. *)

Definition jalali_is_leap (jy : Z) : bool :=
  existsb (Z.eqb (jy mod 33)) [1; 5; 9; 13; 17; 22; 26; 30].

Definition jalali_days_in_month (jy jm : Z) : Z :=
  if jm <=? 6 then 31
  else if jm <=? 11 then 30
  else if jalali_is_leap jy then 30 else 29.

Definition jalali_valid (jy jm jd_ : Z) : bool :=
  (1 <=? jm) && (jm <=? 12)
  && (1 <=? jd_) && (jd_ <=? jalali_days_in_month jy jm).

(* days of the years 1 .. jy-1: 365 each and one more for each of the
   8 leap years of a cycle of 33 *)
Definition jalali_days_before_year (jy : Z) : Z :=
  365 * (jy - 1) + (8 * (jy - 1) + 29) / 33.

Definition jalali_days_before_month (jm : Z) : Z :=
  if jm <=? 7 then 31 * (jm - 1) else 186 + 30 * (jm - 7).

(* the day before 1 Farvardin of year 1, which the cycle puts on
   622-03-21 of the proleptic Gregorian calendar, as an ordinal *)
Definition JALALI_EPOCH : Z := _ymd2ord 622 3 20.

Definition jalali_to_ordinal (jy jm jd_ : Z) : Z :=
  JALALI_EPOCH + jalali_days_before_year jy
  + jalali_days_before_month jm + jd_.

Definition ordinal_to_jalali (n : Z) : Z * Z * Z :=
  let k := n - JALALI_EPOCH - 1 in
  let jy := 1 + (33 * k + 3) / 12053 in
  let doy := k - jalali_days_before_year jy in
  if doy <? 186 then (jy, doy / 31 + 1, doy mod 31 + 1)
  else (jy, (doy - 186) / 30 + 7, (doy - 186) mod 30 + 1).

Definition invalid_jalali : exn :=
  ValueError "not a valid Jalali date".

Definition gregorianToJalali (gy gm gd : Z) : Z * Z * Z :=
  ordinal_to_jalali (_ymd2ord gy gm gd).

Definition jalaliToGregorian (jy jm jd_ : Z) : result (Z * Z * Z) :=
  if negb (jalali_valid jy jm jd_) then Raise invalid_jalali
  else Ok (_ord2ymd (jalali_to_ordinal jy jm jd_)).

(** The two packages, each exposing the algorithm through its own
    entry points. *)
Definition convertdate_pkg : convertdate_jalali :=
  {| from_gregorian := fun gy gm gd => Ok (gregorianToJalali gy gm gd);
     to_gregorian := jalaliToGregorian |}.

Definition jdatetime_pkg : jdatetime :=
  {| jd_date := fun jy jm jd_ =>
       if negb (jalali_valid jy jm jd_) then Raise invalid_jalali
       else Ok (mkjdate jy jm jd_);
     fromgregorian := fun g =>
       let '(jy, jm, jd_) := gregorianToJalali (year g) (month g) (day g) in
       Ok (mkjdate jy jm jd_);
     togregorian := fun j =>
       '(gy, gm, gd) <- jalaliToGregorian (jyear j) (jmonth j) (jday j) ;;
       date_new gy gm gd |}.

Definition with_convertdate : globals :=
  import_backends
    {| pkg_convertdate := Some convertdate_pkg; pkg_jdatetime := None |}.

Definition with_jdatetime : globals :=
  import_backends
    {| pkg_convertdate := None; pkg_jdatetime := Some jdatetime_pkg |}.

(** The globals of a process that found the given backend. *)
Definition installed (b : backend) : globals :=
  match b with
  | convertdate => with_convertdate
  | jdatetime_backend => with_jdatetime
  end.

End JalaliConverter.

(** ** Shaping and boxes (Bottl.py, lines 52-70, 166-170, 305-339) *)

(** [LANG] is "fa" or "en". *)
Inductive language : Type := fa | en.

(** The optional shaping packages: [arabic_reshaper.reshape] and
    [bidi.algorithm.get_display], and whether they were found. *)
Record shaping : Type := {
  AR_SHAPE_OK : bool;
  reshape : pystr -> result pystr;
  get_display : pystr -> result pystr
}.

Definition len (s : pystr) : Z := Z.of_nat (List.length s).

(* c * n for a string of one character *)
Definition str_mul (c : Z) (n : Z) : pystr := repeat c (Z.to_nat n).

Definition ljust (s : pystr) (width : Z) : pystr :=
  s ++ str_mul 32 (width - len s).

Definition rjust (s : pystr) (width : Z) : pystr :=
  str_mul 32 (width - len s) ++ s.

(* s[:n] for n >= 0 *)
Definition slice_to (s : pystr) (n : Z) : pystr := firstn (Z.to_nat n) s.

Definition WIDTH : Z := 56.

(* "╔" + "═" * (WIDTH - 2) + "╗" and "╚" + "═" * (WIDTH - 2) + "╝" *)
Definition BOX_TOP : pystr := [9556] ++ str_mul 9552 (WIDTH - 2) ++ [9559].
Definition BOX_BOTTOM : pystr := [9562] ++ str_mul 9552 (WIDTH - 2) ++ [9565].

Section Render.
Variable LANG : language.
Variable libs : shaping.

Definition fa_shape (s : pystr) : pystr :=
  match s with
  | [] => s
  | _ =>
      if AR_SHAPE_OK libs then
        match (r <- reshape libs s ;; get_display libs r) with
        | Ok shaped => shaped
        | Raise _ => s
        end
      else s
  end.

Definition is_rtl : bool :=
  match LANG with fa => true | en => false end.

Definition shape_if_needed (s : pystr) : pystr :=
  if is_rtl then fa_shape s else s.

Definition render_box_title (text : pystr) : pystr :=
  let text := [32] ++ strip text ++ [32] in
  let text := shape_if_needed text in
  let inner_width := WIDTH - 2 in
  if is_rtl then
    let fill := str_mul 9552 (Z.max 0 (inner_width - len text)) in
    [9556] ++ fill ++ text ++ [9559]
  else
    let fill := str_mul 9552 (Z.max 0 (inner_width - len text)) in
    [9556] ++ text ++ fill ++ [9559].

Definition render_box_line (content : pystr) : pystr :=
  let inner_width := WIDTH - 2 in
  let content := shape_if_needed content in
  let padded :=
    if is_rtl then rjust content inner_width
    else ljust content inner_width in
  [9553] ++ slice_to padded inner_width ++ [9553].

Definition title (text : pystr) : pystr := render_box_title text.

Definition line (label value : pystr) : pystr :=
  let label_sh := shape_if_needed label in
  let value_sh := shape_if_needed value in
  let content :=
    if is_rtl then value_sh ++ [32; 32] ++ label_sh
    else label_sh ++ [58; 32] ++ value_sh in
  render_box_line content.

End Render.

(** ** The menus (Bottl.py, lines 472-514) *)

(** The texts of the two menus, by their key in the table [T]. *)
Inductive menu_key : Type :=
| MAIN_MENU | AGE_G_INPUT | AGE_J_INPUT | CONV_J2G_ITEM | CONV_G2J_ITEM
| LANGUAGE | EXIT | SELECT | GOODBYE | INVALID
| LANG_MENU | CUR_LANG | SWITCH_TO | LANG_FA | LANG_EN.

(** What the menus put on the screen, with the language in force when
    it is printed; what a flow prints is carried along. *)
Inductive screen : Type :=
| MenuBlank                                        (* print() *)
| MenuTitle (l : language) (k : menu_key)          (* print(title(t(k))) *)
| MenuItem (l : language) (number : Z) (k : menu_key)
                                                   (* print(line("1)", t(k))) *)
| MenuPair (l : language) (label value : menu_key) (* print(line(t(label), t(value))) *)
| MenuBottom                                       (* print(BOX_BOTTOM) *)
| MenuAsk (l : language) (k : menu_key)            (* prompt(t(k)) *)
| MenuAskSwitch (l : language) (alt : menu_key)    (* the prompt of language_menu *)
| MenuSay (l : language) (k : menu_key)            (* print(colorize(t(k), ...)) *)
| FromFlow (l : language) (o : output).

(** How a visit of a menu ends: what was shown, the value or the
    exception, the lines not read, and [LANG] at the end. *)
Record session : Type := mksession {
  screens : list screen;
  ended : result unit;
  remaining : list pystr;
  LANG_after : language
}.

Definition before (s : list screen) (r : session) : session :=
  mksession (s ++ screens r) (ended r) (remaining r) (LANG_after r).

Definition other_language (LANG : language) : language :=
  match LANG with fa => en | en => fa end.

Definition language_name (l : language) : menu_key :=
  match l with fa => LANG_FA | en => LANG_EN end.

Definition digit_1 : pystr := [49].
Definition digit_2 : pystr := [50].
Definition digit_3 : pystr := [51].
Definition digit_4 : pystr := [52].
Definition digit_5 : pystr := [53].
Definition digit_0 : pystr := [48].

Section Menus.
Context {U : UnicodeData}.
Variable G : globals.
Variable w : world.

Definition language_menu (LANG : language) (input : list pystr) : session :=
  let cur := language_name LANG in
  let alt := language_name (other_language LANG) in
  let s :=
    [MenuBlank; MenuTitle LANG LANG_MENU; MenuPair LANG CUR_LANG cur;
     MenuPair LANG SWITCH_TO alt; MenuBottom; MenuAskSwitch LANG alt] in
  match input with
  | [] => mksession s (Raise EOFError) [] LANG
  | answer :: rest =>
      let choice := strip (normalize_digits answer) in
      if str_eqb choice digit_1 then
        mksession s (Ok tt) rest (other_language LANG)
      else mksession s (Ok tt) rest LANG
  end.

Definition menu_screen (LANG : language) : list screen :=
  [MenuBlank; MenuTitle LANG MAIN_MENU;
   MenuItem LANG 1 AGE_G_INPUT; MenuItem LANG 2 AGE_J_INPUT;
   MenuItem LANG 3 CONV_J2G_ITEM; MenuItem LANG 4 CONV_G2J_ITEM;
   MenuItem LANG 5 LANGUAGE; MenuItem LANG 0 EXIT;
   MenuBottom; MenuAsk LANG SELECT].

(** A flow called from the menu, in the language of the moment. *)
Definition call_flow (LANG : language) (r : run) : session :=
  mksession (map (FromFlow LANG) (printed r)) (outcome r) (unread r) LANG.

(** [while True:] of the main menu.  One turn prints the menu, reads the
    choice and runs what was chosen; an exception that leaves a flow or
    the language menu leaves the main menu too.  The turns are counted
    by [fuel]; every turn reads a line, so more turns than lines are
    never needed. *)
Fixpoint main_menu (fuel : nat) (LANG : language) (input : list pystr)
    : option session :=
  match fuel with
  | O => None
  | Datatypes.S fuel' =>
      match input with
      | [] => Some (mksession (menu_screen LANG) (Raise EOFError) [] LANG)
      | answer :: rest =>
          let choice := strip (normalize_digits answer) in
          let chosen : option session :=
            if str_eqb choice digit_1 then
              Some (call_flow LANG (calculate_age_gregorian_flow G w rest))
            else if str_eqb choice digit_2 then
              Some (call_flow LANG (calculate_age_jalali_flow G w rest))
            else if str_eqb choice digit_3 then
              Some (call_flow LANG (convert_jalali_to_gregorian_flow G rest))
            else if str_eqb choice digit_4 then
              Some (call_flow LANG (convert_gregorian_to_jalali_flow G rest))
            else if str_eqb choice digit_5 then
              Some (language_menu LANG rest)
            else None in
          match chosen with
          | Some s =>
              match ended s with
              | Ok _ =>
                  match main_menu fuel' (LANG_after s) (remaining s) with
                  | Some r => Some (before (menu_screen LANG ++ screens s) r)
                  | None => None
                  end
              | Raise e =>
                  Some (mksession (menu_screen LANG ++ screens s) (Raise e)
                          (remaining s) (LANG_after s))
              end
          | None =>
              if str_eqb choice digit_0 then
                Some (mksession (menu_screen LANG ++ [MenuSay LANG GOODBYE])
                        (Ok tt) rest LANG)
              else
                match main_menu fuel' LANG rest with
                | Some r =>
                    Some (before (menu_screen LANG ++ [MenuSay LANG INVALID])
                            r)
                | None => None
                end
          end
      end
  end.

End Menus.

(** ** Notions used to state further properties *)

(** The digits that [normalize_digits] replaces. *)
Definition foreign_digit (c : Z) : Prop :=
  1776 <= c <= 1785 \/ 1632 <= c <= 1641.

(** Everything a piece of printing code prints satisfies [P]. *)
Definition io_all {A : Type} (P : output -> bool) (c : io A) : Prop :=
  forallb P (fst c) = true.

Definition not_fallback_warning (o : output) : bool :=
  match o with
  | Say FALLBACK_WARN => false
  | _ => true
  end.

Definition anything (o : output) : bool := true.

(** A normal end of a flow: it returned, or the input ran out and
    nothing is left; what is left unread is the end of the input. *)
Definition ends_well (input : list pystr) (r : run) : Prop :=
  (outcome r = Ok tt \/ (outcome r = Raise EOFError /\ unread r = []))
  /\ exists used, input = used ++ unread r.

(** The clock could not be read again before the first prompt. *)
Definition clock_fails (w : world) (input : list pystr) (r : run) : Prop :=
  exists e, date_today w = Raise e /\ r = mkrun [] (Raise e) input.

(** What the main menu runs for the choices 1 to 5. *)
Definition chosen_session {U : UnicodeData} (G : globals) (w : world)
    (LANG : language) (choice : pystr) (rest : list pystr)
    : option session :=
  if str_eqb choice digit_1 then
    Some (call_flow LANG (calculate_age_gregorian_flow G w rest))
  else if str_eqb choice digit_2 then
    Some (call_flow LANG (calculate_age_jalali_flow G w rest))
  else if str_eqb choice digit_3 then
    Some (call_flow LANG (convert_jalali_to_gregorian_flow G rest))
  else if str_eqb choice digit_4 then
    Some (call_flow LANG (convert_gregorian_to_jalali_flow G rest))
  else if str_eqb choice digit_5 then
    Some (language_menu LANG rest)
  else None.

(** The language a screen line was printed in. *)
Definition screen_language (s : screen) : option language :=
  match s with
  | MenuBlank | MenuBottom => None
  | MenuTitle l _ | MenuItem l _ _ | MenuPair l _ _ | MenuAsk l _
  | MenuAskSwitch l _ | MenuSay l _ | FromFlow l _ => Some l
  end.

Definition is_goodbye (s : screen) : bool :=
  match s with
  | MenuSay _ GOODBYE => true
  | _ => false
  end.

(** ** Values used in the examples *)

(** A clock that reads 2025-10-18, with no network. *)
Definition clock_2025_10_18 : world :=
  {| date_today := Ok (mkdate 2025 10 18); online_date := None |}.

(** The shaping packages are not installed. *)
Definition shaping_missing : shaping :=
  {| AR_SHAPE_OK := false;
     reshape := fun _ => Raise (NameError "arabic_reshaper");
     get_display := fun _ => Raise (NameError "get_display") |}.

(* "Age: 35" *)
Definition s_age_35 : pystr := [65; 103; 101; 58; 32; 51; 53].

(* "5", "1" and the Persian zero, typed one after the other *)
Definition typed_5_1_0 : list pystr := [[53]; [49]; [1776]].

(* "9" and then "0" *)
Definition typed_9_0 : list pystr := [[57]; [48]].

(** Neither Jalali package is installed. *)
Definition nothing_installed : globals :=
  import_backends {| pkg_convertdate := None; pkg_jdatetime := None |}.

(** * Facts *)

(** ** Facts about [datetime] and [calendar] *)

Lemma month_cases (m : Z) :
  1 <= m <= 12 ->
  m = 1 \/ m = 2 \/ m = 3 \/ m = 4 \/ m = 5 \/ m = 6 \/
  m = 7 \/ m = 8 \/ m = 9 \/ m = 10 \/ m = 11 \/ m = 12.
Proof. lia. Qed.

Ltac each_month H :=
  let C := fresh "C" in
  pose proof (month_cases _ H) as C;
  repeat (destruct C as [C | C]; [subst | ]); [ .. | subst ].

Section DateFacts.


Lemma isleap_is_leap (y : Z) : calendar.isleap y = _is_leap y.
Proof. reflexivity. Qed.

Lemma days_before_year_succ (y : Z) :
  _days_before_year (y + 1)
  = _days_before_year y + 365 + (if _is_leap y then 1 else 0).
Proof.
  unfold _days_before_year, _is_leap.
  replace (y + 1 - 1) with y by lia.
  destruct (Z.eqb_spec (y mod 4) 0), (Z.eqb_spec (y mod 100) 0),
    (Z.eqb_spec (y mod 400) 0); cbn [andb orb negb];
    Z.div_mod_to_equations; lia.
Qed.

Lemma days_before_year_mono (a b : Z) :
  a <= b -> _days_before_year a + 365 * (b - a) <= _days_before_year b.
Proof.
  unfold _days_before_year. intros H.
  Z.div_mod_to_equations. lia.
Qed.

Lemma days_in_month_bounds (y m : Z) :
  1 <= m <= 12 -> 28 <= _days_in_month y m <= 31.
Proof.
  intros H. unfold _days_in_month.
  each_month H; destruct (_is_leap y); simpl; lia.
Qed.

Lemma days_before_month_succ (y m : Z) :
  1 <= m <= 11 ->
  _days_before_month y (m + 1) = _days_before_month y m + _days_in_month y m.
Proof.
  intros H. assert (H' : 1 <= m <= 12) by lia.
  unfold _days_before_month, _days_in_month.
  each_month H'; try lia; destruct (_is_leap y); simpl; lia.
Qed.

Lemma days_before_month_last (y : Z) :
  _days_before_month y 12 + _days_in_month y 12
  = 365 + (if _is_leap y then 1 else 0).
Proof.
  unfold _days_before_month, _days_in_month.
  destruct (_is_leap y); simpl; lia.
Qed.

Lemma days_before_month_mono (y a b : Z) :
  1 <= a -> a < b -> b <= 12 ->
  _days_before_month y a + _days_in_month y a <= _days_before_month y b.
Proof.
  intros Ha Hab Hb.
  assert (Ha' : 1 <= a <= 12) by lia.
  assert (Hb' : 1 <= b <= 12) by lia.
  unfold _days_before_month, _days_in_month.
  each_month Ha'; each_month Hb'; try lia; destruct (_is_leap y); simpl; lia.
Qed.

Lemma monthrange_ok (y m : Z) :
  1 <= m <= 12 ->
  exists day1, calendar.monthrange y m = Ok (day1, _days_in_month y m).
Proof.
  intros H. unfold calendar.monthrange, calendar.weekday.
  replace ((1 <=? m) && (m <=? 12)) with true by (symmetry; lia).
  cbn [negb].
  set (y' := if negb _ then _ else _).
  assert (Hy : MINYEAR <= y' <= MAXYEAR).
  { subst y'. unfold MINYEAR, MAXYEAR.
    destruct (Z.leb_spec 1 y), (Z.leb_spec y 9999); cbn [andb negb];
      try lia; Z.div_mod_to_equations; lia. }
  unfold date_new.
  replace ((MINYEAR <=? y') && (y' <=? MAXYEAR)) with true by (symmetry; lia).
  replace ((1 <=? m) && (m <=? 12)) with true by (symmetry; lia).
  pose proof (days_in_month_bounds y' m H) as Hb.
  replace ((1 <=? 1) && (1 <=? _days_in_month y' m)) with true by (symmetry; lia).
  cbn [negb bind]. eexists. f_equal. f_equal.
  rewrite isleap_is_leap. unfold _days_in_month, calendar.February.
  each_month H; destruct (_is_leap y); reflexivity.
Qed.

Lemma days_before_month_nonneg (y m : Z) :
  1 <= m <= 12 -> 0 <= _days_before_month y m.
Proof.
  intros H. unfold _days_before_month.
  each_month H; destruct (_is_leap y); simpl; lia.
Qed.

Lemma date_ok_iff (x : date) :
  date_ok x = true <->
  (MINYEAR <= year x <= MAXYEAR /\ 1 <= month x <= 12
   /\ 1 <= day x <= _days_in_month (year x) (month x)).
Proof.
  unfold date_ok. rewrite !andb_true_iff, !Z.leb_le. tauto.
Qed.

Lemma date_new_ok (y m d : Z) :
  date_ok (mkdate y m d) = true -> date_new y m d = Ok (mkdate y m d).
Proof.
  intros H. apply date_ok_iff in H. cbn in H. unfold date_new.
  replace ((MINYEAR <=? y) && (y <=? MAXYEAR)) with true by (symmetry; lia).
  replace ((1 <=? m) && (m <=? 12)) with true by (symmetry; lia).
  replace ((1 <=? d) && (d <=? _days_in_month y m)) with true
    by (symmetry; lia).
  reflexivity.
Qed.

Lemma date_new_inv (y m d : Z) (x : date) :
  date_new y m d = Ok x -> x = mkdate y m d /\ date_ok x = true.
Proof.
  unfold date_new.
  destruct ((MINYEAR <=? y) && (y <=? MAXYEAR)) eqn:Hy; cbn [negb];
    [ | discriminate ].
  destruct ((1 <=? m) && (m <=? 12)) eqn:Hm; cbn [negb]; [ | discriminate ].
  destruct ((1 <=? d) && (d <=? _days_in_month y m)) eqn:Hd; cbn [negb];
    [ | discriminate ].
  intros [= <-]. split; [ reflexivity | ].
  unfold date_ok; cbn. rewrite <- !andb_assoc in *.
  rewrite andb_true_iff in Hy. destruct Hy as [-> ->].
  rewrite andb_true_iff in Hm. destruct Hm as [-> ->].
  rewrite andb_true_iff in Hd. destruct Hd as [-> ->]. reflexivity.
Qed.

(** The three comparisons in terms of the fields. *)
Lemma date_lt_iff (a b : date) :
  date_lt a b = true <->
  (year a < year b
   \/ (year a = year b
       /\ (month a < month b \/ (month a = month b /\ day a < day b)))).
Proof.
  unfold date_lt, _cmp.
  destruct (Z.compare_spec (year a) (year b));
    destruct (Z.compare_spec (month a) (month b));
    destruct (Z.compare_spec (day a) (day b));
    split; intros; try discriminate; try reflexivity; lia.
Qed.

Lemma date_le_iff (a b : date) :
  date_le a b = true <-> (date_lt a b = true \/ a = b).
Proof.
  rewrite date_lt_iff. unfold date_le, _cmp.
  destruct a as [ya ma da], b as [yb mb db]; cbn.
  destruct (Z.compare_spec ya yb);
    destruct (Z.compare_spec ma mb);
    destruct (Z.compare_spec da db);
    split; intros; subst; try discriminate; try reflexivity;
    try (right; reflexivity); try (left; lia);
    match goal with
    | H : _ \/ _ |- _ => destruct H as [H | H]; [ lia | inversion H; lia ]
    end.
Qed.

Lemma date_gt_not_le (a b : date) : date_gt a b = negb (date_le a b).
Proof. unfold date_gt, date_le. destruct (_cmp a b); reflexivity. Qed.

Lemma date_le_not_lt (a b : date) : date_le a b = negb (date_lt b a).
Proof.
  unfold date_le, date_lt, _cmp.
  rewrite (Z.compare_antisym (year a) (year b)),
    (Z.compare_antisym (month a) (month b)),
    (Z.compare_antisym (day a) (day b)).
  destruct (year a ?= year b), (month a ?= month b), (day a ?= day b);
    reflexivity.
Qed.

(** [_ymd2ord] is strictly increasing along the order of the triples
    that have a real month and day, whatever the year. *)
Lemma ymd2ord_lt (ya ma da yb mb db : Z) :
  1 <= ma <= 12 -> 1 <= da <= _days_in_month ya ma ->
  1 <= mb <= 12 -> 1 <= db <= _days_in_month yb mb ->
  (ya < yb \/ (ya = yb /\ (ma < mb \/ (ma = mb /\ da < db)))) ->
  _ymd2ord ya ma da < _ymd2ord yb mb db.
Proof.
  intros Hma Hda Hmb Hdb Hlt. unfold _ymd2ord.
  destruct Hlt as [Hy | (Hy & [Hm | (Hm & Hd)])].
  - pose proof (days_before_year_mono (ya + 1) yb ltac:(lia)) as H1.
    rewrite days_before_year_succ in H1.
    pose proof (days_before_month_last ya) as H2.
    pose proof (days_before_month_nonneg yb mb Hmb) as H3.
    assert (H4 : _days_before_month ya ma + _days_in_month ya ma
                 <= _days_before_month ya 12 + _days_in_month ya 12).
    { destruct (Z.eq_dec ma 12) as [-> | Hne]; [ lia | ].
      pose proof (days_before_month_mono ya ma 12
                    ltac:(lia) ltac:(lia) ltac:(lia)) as H5.
      pose proof (days_in_month_bounds ya 12 ltac:(lia)). lia. }
    lia.
  - subst ya.
    pose proof (days_before_month_mono yb ma mb ltac:(lia) Hm ltac:(lia)).
    lia.
  - subst ya ma. lia.
Qed.

Lemma ymd2ord_inj (ya ma da yb mb db : Z) :
  1 <= ma <= 12 -> 1 <= da <= _days_in_month ya ma ->
  1 <= mb <= 12 -> 1 <= db <= _days_in_month yb mb ->
  _ymd2ord ya ma da = _ymd2ord yb mb db ->
  (ya, ma, da) = (yb, mb, db).
Proof.
  intros Hma Hda Hmb Hdb E.
  assert (T : (ya < yb \/ (ya = yb /\ (ma < mb \/ (ma = mb /\ da < db))))
              \/ (yb < ya \/ (yb = ya /\ (mb < ma \/ (mb = ma /\ db < da))))
              \/ (ya = yb /\ ma = mb /\ da = db)) by lia.
  destruct T as [T | [T | (-> & -> & ->)]]; [ | | reflexivity ].
  - pose proof (ymd2ord_lt _ _ _ _ _ _ Hma Hda Hmb Hdb T). lia.
  - pose proof (ymd2ord_lt _ _ _ _ _ _ Hmb Hdb Hma Hda T). lia.
Qed.

(** [toordinal] is strictly increasing along the order of dates, so a
    later date is a positive number of days away. *)
Lemma toordinal_lt (a b : date) :
  date_ok a = true -> date_ok b = true ->
  date_lt a b = true -> toordinal a < toordinal b.
Proof.
  intros Ha Hb Hlt.
  apply date_ok_iff in Ha. apply date_ok_iff in Hb.
  apply date_lt_iff in Hlt.
  destruct Ha as (_ & Hma & Hda), Hb as (_ & Hmb & Hdb).
  apply ymd2ord_lt; assumption.
Qed.

Lemma safe_date_ok (y m d : Z) :
  MINYEAR <= y <= MAXYEAR -> 1 <= m <= 12 -> 1 <= d ->
  _safe_date y m d = Ok (mkdate y m (Z.min d (_days_in_month y m))).
Proof.
  intros Hy Hm Hd. unfold _safe_date.
  destruct (monthrange_ok y m Hm) as [w ->]. cbn [bind snd].
  apply date_new_ok. apply date_ok_iff. cbn.
  pose proof (days_in_month_bounds y m Hm). lia.
Qed.

Lemma safe_date_overflow (y m d : Z) :
  MAXYEAR < y -> 1 <= m <= 12 ->
  _safe_date y m d = Raise (year_error y).
Proof.
  intros Hy Hm. unfold _safe_date.
  destruct (monthrange_ok y m Hm) as [w ->]. cbn [bind snd].
  unfold date_new.
  replace ((MINYEAR <=? y) && (y <=? MAXYEAR)) with false; [ reflexivity | ].
  symmetry. apply andb_false_iff. right. apply Z.leb_gt. exact Hy.
Qed.

Lemma is_leap_true_iff (y : Z) :
  _is_leap y = true <-> (y mod 4 = 0 /\ (y mod 100 <> 0 \/ y mod 400 = 0)).
Proof.
  unfold _is_leap.
  rewrite andb_true_iff, orb_true_iff, negb_true_iff, !Z.eqb_eq, Z.eqb_neq.
  tauto.
Qed.

Lemma days_before_year_cycles (a b c e : Z) :
  0 <= b <= 3 -> 0 <= c <= 24 -> 0 <= e <= 3 ->
  _days_before_year (400 * a + 100 * b + 4 * c + e + 1)
  = 146097 * a + 36524 * b + 1461 * c + 365 * e.
Proof.
  intros Hb Hc He. unfold _days_before_year.
  replace (400 * a + 100 * b + 4 * c + e + 1 - 1)
    with (400 * a + 100 * b + 4 * c + e) by lia.
  Z.div_mod_to_equations. lia.
Qed.

Lemma is_leap_cycles (a b c e : Z) :
  0 <= b <= 3 -> 0 <= c <= 24 -> 0 <= e <= 3 ->
  _is_leap (400 * a + 100 * b + 4 * c + e + 1)
  = (e =? 3) && (negb (c =? 24) || (b =? 3)).
Proof.
  intros Hb Hc He.
  apply eq_true_iff_eq.
  rewrite is_leap_true_iff.
  rewrite andb_true_iff, orb_true_iff, negb_true_iff, !Z.eqb_eq, Z.eqb_neq.
  Z.div_mod_to_equations. lia.
Qed.

(** The month and day that [_ord2ymd] reads off a day of the year. *)
Lemma month_of_yday (leap : bool) (n : Z) :
  0 <= n <= 364 ->
  let m := Z.shiftr (n + 50) 5 in
  let preceding :=
    nth (Z.to_nat m) _DAYS_BEFORE_MONTH 0
    + (if (2 <? m) && leap then 1 else 0) in
  let '(m', p') :=
    if n <? preceding then
      (m - 1,
       preceding - (nth (Z.to_nat (m - 1)) _DAYS_IN_MONTH 0
                    + (if (m - 1 =? 2) && leap then 1 else 0)))
    else (m, preceding) in
  1 <= m' <= 12
  /\ p' = nth (Z.to_nat m') _DAYS_BEFORE_MONTH 0
          + (if (2 <? m') && leap then 1 else 0)
  /\ 1 <= n - p' + 1
     <= (if (m' =? 2) && leap then 29
         else nth (Z.to_nat m') _DAYS_IN_MONTH 0).
Proof.
  intros Hn. rewrite Z.shiftr_div_pow2 by lia.
  change (2 ^ 5) with 32.
  assert (Hm : 1 <= (n + 50) / 32 <= 12)
    by (Z.div_mod_to_equations; lia).
  remember ((n + 50) / 32) as m eqn:Em.
  cbv zeta.
  assert (Hr : 32 * m <= n + 50 < 32 * m + 32)
    by (subst m; Z.div_mod_to_equations; lia).
  clear Em.
  each_month Hm; destruct leap; simpl;
    match goal with
    | |- context [?a <? ?b] => destruct (Z.ltb_spec a b)
    end; simpl; lia.
Qed.

(** [_ord2ymd] inverts [_ymd2ord]: every ordinal is the ordinal of the
    triple computed for it, and that triple has a real month and day. *)
Lemma ord2ymd_spec (n : Z) :
  let '(y, m, d) := _ord2ymd n in
  1 <= m <= 12 /\ 1 <= d <= _days_in_month y m /\ _ymd2ord y m d = n.
Proof.
  unfold _ord2ymd, _DI400Y, _DI100Y, _DI4Y.
  remember ((n - 1) / 146097) as a eqn:Ea.
  remember ((n - 1) mod 146097) as ra eqn:Era.
  remember (ra / 36524) as b eqn:Eb.
  remember (ra mod 36524) as rb eqn:Erb.
  remember (rb / 1461) as c eqn:Ec.
  remember (rb mod 1461) as rc eqn:Erc.
  remember (rc / 365) as e eqn:Ee.
  remember (rc mod 365) as r eqn:Er.
  assert (Hn : n = 146097 * a + 36524 * b + 1461 * c + 365 * e + r + 1)
    by (subst; Z.div_mod_to_equations; lia).
  assert (Hb : 0 <= b <= 4) by (subst; Z.div_mod_to_equations; lia).
  assert (Hc : 0 <= c <= 24) by (subst; Z.div_mod_to_equations; lia).
  assert (He : 0 <= e <= 4) by (subst; Z.div_mod_to_equations; lia).
  assert (Hr : 0 <= r <= 364) by (subst; Z.div_mod_to_equations; lia).
  assert (Hb4 : b = 4 -> c = 0 /\ e = 0 /\ r = 0)
    by (subst; Z.div_mod_to_equations; lia).
  assert (He4 : e = 4 -> r = 0 /\ c <> 24)
    by (subst; Z.div_mod_to_equations; lia).
  clear Ea Era Eb Erb Ec Erc Ee Er ra rb rc.
  destruct (Z.eqb_spec e 4) as [E4 | E4]; cbn [orb].
  { (* the last day of a leap year that ends a cycle of four *)
    destruct (He4 E4) as [-> Hc24]. subst e.
    assert (b <> 4) by lia.
    replace (a * 400 + 1 + b * 100 + c * 4 + 4 - 1)
      with (400 * a + 100 * b + 4 * c + 3 + 1) by lia.
    pose proof (days_before_month_last (400 * a + 100 * b + 4 * c + 3 + 1))
      as L.
    rewrite is_leap_cycles in L by lia.
    change (_days_in_month (400 * a + 100 * b + 4 * c + 3 + 1) 12)
      with 31 in L |- *.
    unfold _ymd2ord. rewrite days_before_year_cycles by lia.
    change (3 =? 3) with true in L. cbn [andb] in L.
    destruct (negb (c =? 24) || (b =? 3)) eqn:L'; [ lia | ].
    exfalso. apply orb_false_iff in L'. destruct L' as [L1 L2].
    apply negb_false_iff, Z.eqb_eq in L1. apply Z.eqb_neq in L2.
    lia. }
  destruct (Z.eqb_spec b 4) as [B4 | B4].
  { (* the last day of a cycle of 400 years *)
    destruct (Hb4 B4) as (-> & -> & ->). subst b.
    replace (a * 400 + 1 + 4 * 100 + 0 * 4 + 0 - 1)
      with (400 * a + 100 * 3 + 4 * 24 + 3 + 1) by lia.
    pose proof (days_before_month_last (400 * a + 100 * 3 + 4 * 24 + 3 + 1))
      as L.
    rewrite is_leap_cycles in L by lia.
    change (_days_in_month (400 * a + 100 * 3 + 4 * 24 + 3 + 1) 12)
      with 31 in L |- *.
    unfold _ymd2ord. rewrite days_before_year_cycles by lia.
    cbn [andb orb negb Z.eqb Pos.eqb] in L. lia. }
  assert (He' : 0 <= e <= 3) by lia.
  assert (Hb' : 0 <= b <= 3) by lia.
  replace (a * 400 + 1 + b * 100 + c * 4 + e)
    with (400 * a + 100 * b + 4 * c + e + 1) by lia.
  pose proof (month_of_yday ((e =? 3) && (negb (c =? 24) || (b =? 3))) r Hr)
    as M.
  cbv zeta in M |- *.
  set (leap := (e =? 3) && (negb (c =? 24) || (b =? 3))) in *.
  set (m := Z.shiftr (r + 50) 5) in *.
  set (p := nth (Z.to_nat m) _DAYS_BEFORE_MONTH 0
            + (if (2 <? m) && leap then 1 else 0)) in *.
  destruct (r <? p).
  - destruct M as (M1 & M2 & M3).
    unfold _ymd2ord, _days_in_month, _days_before_month.
    rewrite days_before_year_cycles, is_leap_cycles by lia.
    fold leap. split; [ exact M1 | ]. split; [ exact M3 | ].
    rewrite <- M2. lia.
  - destruct M as (M1 & M2 & M3).
    unfold _ymd2ord, _days_in_month, _days_before_month.
    rewrite days_before_year_cycles, is_leap_cycles by lia.
    fold leap. split; [ exact M1 | ]. split; [ exact M3 | ].
    rewrite <- M2. lia.
Qed.

Lemma ord2ymd_ymd2ord (y m d : Z) :
  1 <= m <= 12 -> 1 <= d <= _days_in_month y m ->
  _ord2ymd (_ymd2ord y m d) = (y, m, d).
Proof.
  intros Hm Hd.
  pose proof (ord2ymd_spec (_ymd2ord y m d)) as S.
  destruct (_ord2ymd (_ymd2ord y m d)) as [[y' m'] d'].
  destruct S as (Hm' & Hd' & E).
  apply ymd2ord_inj; assumption.
Qed.

(** The ordinals of the dates the constructor accepts. *)
Lemma ord2ymd_year_range (n : Z) :
  _ymd2ord MINYEAR 1 1 <= n <= _ymd2ord MAXYEAR 12 31 <->
  MINYEAR <= fst (fst (_ord2ymd n)) <= MAXYEAR.
Proof.
  pose proof (ord2ymd_spec n) as S.
  destruct (_ord2ymd n) as [[y m] d]. cbn [fst].
  destruct S as (Hm & Hd & E). unfold MINYEAR, MAXYEAR.
  assert (H1 : 1 <= 1 <= _days_in_month 1 1) by (vm_compute; split; discriminate).
  assert (H2 : 1 <= 31 <= _days_in_month 9999 12)
    by (vm_compute; split; discriminate).
  split.
  - intros [L R]. split.
    + destruct (Z.le_gt_cases 1 y) as [ | Hy ]; [ assumption | exfalso ].
      pose proof (ymd2ord_lt y m d 1 1 1 Hm Hd ltac:(lia) H1 ltac:(lia)).
      lia.
    + destruct (Z.le_gt_cases y 9999) as [ | Hy ]; [ assumption | exfalso ].
      pose proof (ymd2ord_lt 9999 12 31 y m d ltac:(lia) H2 Hm Hd
                    ltac:(lia)).
      lia.
  - intros [L R]. rewrite <- E. split.
    + assert (T : (1 < y \/ (1 = y /\ (1 < m \/ (1 = m /\ 1 < d))))
                  \/ (y = 1 /\ m = 1 /\ d = 1)) by lia.
      destruct T as [T | (-> & -> & ->)]; [ | lia ].
      pose proof (ymd2ord_lt 1 1 1 y m d ltac:(lia) H1 Hm Hd T). lia.
    + pose proof (days_in_month_bounds y m Hm) as B.
      assert (T : (y < 9999 \/ (y = 9999 /\ (m < 12 \/ (m = 12 /\ d < 31))))
                  \/ (y = 9999 /\ m = 12 /\ d = 31)).
      { destruct (Z.eq_dec y 9999) as [-> | ]; [ | lia ].
        destruct (Z.eq_dec m 12) as [-> | ]; [ | lia ].
        change (_days_in_month 9999 12) with 31 in Hd. lia. }
      destruct T as [T | (-> & -> & ->)]; [ | lia ].
      pose proof (ymd2ord_lt y m d 9999 12 31 Hm Hd ltac:(lia) H2 T). lia.
Qed.

End DateFacts.
(** ** Facts about the conversion algorithm *)

Section ConverterFacts.
Import JalaliConverter.

Lemma jalali_is_leap_iff (jy : Z) :
  jalali_is_leap jy = true <-> (8 * jy + 29) mod 33 < 8.
Proof.
  unfold jalali_is_leap.
  rewrite <- (Zplus_mod_idemp_l (8 * jy)), <- Zmult_mod_idemp_r,
    Zplus_mod_idemp_l.
  pose proof (Z.mod_pos_bound jy 33 ltac:(lia)) as Hr.
  generalize dependent (jy mod 33). intros r Hr.
  assert (Hk : exists k, r = Z.of_nat k /\ (k < 33)%nat)
    by (exists (Z.to_nat r); lia).
  destruct Hk as (k & -> & Hk). clear Hr.
  do 33 (destruct k as [ | k ];
         [ vm_compute; split; intros; (reflexivity || discriminate) | ]).
  lia.
Qed.

Lemma jalali_days_before_year_succ (jy : Z) :
  jalali_days_before_year (jy + 1)
  = jalali_days_before_year jy + 365 + (if jalali_is_leap jy then 1 else 0).
Proof.
  pose proof (jalali_is_leap_iff jy) as L.
  unfold jalali_days_before_year.
  destruct (jalali_is_leap jy).
  - assert (H : (8 * jy + 29) mod 33 < 8) by (apply L; reflexivity).
    clear L. Z.div_mod_to_equations. lia.
  - assert (H : ~ (8 * jy + 29) mod 33 < 8)
      by (intros H; apply L in H; discriminate).
    clear L. Z.div_mod_to_equations. lia.
Qed.

Lemma jalali_year_of (k jy : Z) :
  jalali_days_before_year jy <= k < jalali_days_before_year (jy + 1) ->
  1 + (33 * k + 3) / 12053 = jy.
Proof.
  unfold jalali_days_before_year.
  replace (jy + 1 - 1) with jy by lia.
  intros H. Z.div_mod_to_equations. lia.
Qed.

Lemma jalali_year_bounds (k : Z) :
  let jy := 1 + (33 * k + 3) / 12053 in
  jalali_days_before_year jy <= k < jalali_days_before_year (jy + 1).
Proof.
  cbv zeta. unfold jalali_days_before_year.
  replace (1 + (33 * k + 3) / 12053 + 1 - 1)
    with (1 + (33 * k + 3) / 12053) by lia.
  replace (1 + (33 * k + 3) / 12053 - 1)
    with ((33 * k + 3) / 12053) by lia.
  Z.div_mod_to_equations. lia.
Qed.

Lemma jalali_valid_iff (jy jm jd_ : Z) :
  jalali_valid jy jm jd_ = true <->
  (1 <= jm <= 12 /\ 1 <= jd_ <= jalali_days_in_month jy jm).
Proof.
  unfold jalali_valid. rewrite !andb_true_iff, !Z.leb_le. tauto.
Qed.

(** Every ordinal is the ordinal of the Jalali date computed for it,
    which is structurally valid. *)
Lemma ordinal_to_jalali_spec (n : Z) :
  let '(jy, jm, jd_) := ordinal_to_jalali n in
  jalali_valid jy jm jd_ = true /\ jalali_to_ordinal jy jm jd_ = n.
Proof.
  unfold ordinal_to_jalali.
  set (k := n - JALALI_EPOCH - 1).
  pose proof (jalali_year_bounds k) as B. cbv zeta in B.
  set (jy := 1 + (33 * k + 3) / 12053) in *.
  rewrite jalali_days_before_year_succ in B.
  set (doy := k - jalali_days_before_year jy).
  assert (Hdoy : 0 <= doy < 365 + (if jalali_is_leap jy then 1 else 0))
    by (subst doy; lia).
  assert (Hn : n = JALALI_EPOCH + jalali_days_before_year jy + doy + 1)
    by (subst doy k; lia).
  clearbody doy. clear B. clearbody jy. clear k.
  destruct (Z.ltb_spec doy 186) as [Hd | Hd];
    rewrite jalali_valid_iff; unfold jalali_to_ordinal,
      jalali_days_in_month, jalali_days_before_month.
  - destruct (Z.leb_spec (doy / 31 + 1) 6);
      [ | exfalso; Z.div_mod_to_equations; lia ].
    destruct (Z.leb_spec (doy / 31 + 1) 7);
      [ | exfalso; Z.div_mod_to_equations; lia ].
    Z.div_mod_to_equations. lia.
  - destruct (Z.leb_spec ((doy - 186) / 30 + 7) 6);
      [ exfalso; Z.div_mod_to_equations; lia | ].
    destruct (Z.leb_spec ((doy - 186) / 30 + 7) 7),
      (Z.leb_spec ((doy - 186) / 30 + 7) 11),
      (jalali_is_leap jy);
      Z.div_mod_to_equations; lia.
Qed.

(** A structurally valid Jalali date is recovered from its ordinal. *)
Lemma ordinal_to_jalali_to_ordinal (jy jm jd_ : Z) :
  jalali_valid jy jm jd_ = true ->
  ordinal_to_jalali (jalali_to_ordinal jy jm jd_) = (jy, jm, jd_).
Proof.
  rewrite jalali_valid_iff. intros (Hm & Hd).
  unfold ordinal_to_jalali, jalali_to_ordinal.
  set (doy := jalali_days_before_month jm + jd_ - 1).
  replace (JALALI_EPOCH + jalali_days_before_year jy
           + jalali_days_before_month jm + jd_ - JALALI_EPOCH - 1)
    with (jalali_days_before_year jy + doy) by (subst doy; lia).
  assert (Hdoy : 0 <= doy < 365 + (if jalali_is_leap jy then 1 else 0)
                 /\ (if doy <? 186
                     then (doy / 31 + 1 = jm /\ doy mod 31 + 1 = jd_)
                     else ((doy - 186) / 30 + 7 = jm
                           /\ (doy - 186) mod 30 + 1 = jd_))).
  { subst doy. revert Hd.
    unfold jalali_days_in_month, jalali_days_before_month.
    each_month Hm; cbn [Z.leb Z.compare Pos.compare Pos.compare_cont];
      intros Hd;
      match goal with
      | |- context [?a <? ?b] => destruct (Z.ltb_spec a b)
      end;
      destruct (jalali_is_leap jy);
      Z.div_mod_to_equations; lia. }
  destruct Hdoy as (Hr & Hmd).
  rewrite (jalali_year_of (jalali_days_before_year jy + doy) jy)
    by (rewrite jalali_days_before_year_succ; lia).
  replace (jalali_days_before_year jy + doy - jalali_days_before_year jy)
    with doy by lia.
  destruct (doy <? 186); destruct Hmd as [-> ->]; reflexivity.
Qed.

Lemma gdate_to_jtuple_installed (b : backend) (g : date) :
  gdate_to_jtuple (installed b) g
  = Ok (gregorianToJalali (year g) (month g) (day g)).
Proof.
  destruct b; cbn; [ reflexivity | ].
  destruct (gregorianToJalali (year g) (month g) (day g)) as [[jy jm] jd_].
  reflexivity.
Qed.

Lemma jtuple_to_gdate_installed (b : backend) (jy jm jd_ : Z) :
  jtuple_to_gdate (installed b) jy jm jd_
  = ('(gy, gm, gd) <- jalaliToGregorian jy jm jd_ ;; date_new gy gm gd).
Proof.
  destruct b; cbn; [ reflexivity | ].
  unfold jalaliToGregorian.
  destruct (jalali_valid jy jm jd_) eqn:V; cbn; [ | reflexivity ].
  rewrite V. reflexivity.
Qed.

Lemma gregorianToJalali_valid (gy gm gd : Z) :
  let '(jy, jm, jd_) := gregorianToJalali gy gm gd in
  jalali_valid jy jm jd_ = true
  /\ jalali_to_ordinal jy jm jd_ = _ymd2ord gy gm gd.
Proof. apply ordinal_to_jalali_spec. Qed.

(** Outside the range of [date] the conversion to Gregorian raises. *)
Lemma jtuple_to_gdate_out_of_range (b : backend) (jy jm jd_ : Z) :
  jalali_valid jy jm jd_ = true ->
  ~ toordinal date_min <= jalali_to_ordinal jy jm jd_ <= toordinal date_max ->
  exists gy, jtuple_to_gdate (installed b) jy jm jd_ = Raise (year_error gy).
Proof.
  intros V R. rewrite jtuple_to_gdate_installed.
  unfold jalaliToGregorian. rewrite V. cbn [negb bind].
  rewrite (ord2ymd_year_range (jalali_to_ordinal jy jm jd_)) in R.
  destruct (_ord2ymd (jalali_to_ordinal jy jm jd_)) as [[gy gm] gd].
  cbn [fst] in R. exists gy. unfold date_new.
  replace ((MINYEAR <=? gy) && (gy <=? MAXYEAR)) with false;
    [ reflexivity | ].
  symmetry. apply not_true_is_false. rewrite andb_true_iff, !Z.leb_le. lia.
Qed.

End ConverterFacts.

(** ** Facts about the age math *)

Section AgeFacts.

(** The month borrowed from: the one before today's. *)
Lemma borrowed_month_ok (today : date) :
  date_ok today = true ->
  1 <= fst (if month today =? 1 then (12, year today - 1)
            else (month today - 1, year today)) <= 12.
Proof.
  intros H. apply date_ok_iff in H.
  destruct (Z.eqb_spec (month today) 1); cbn [fst]; lia.
Qed.

(** [age_ymd] without the monad, for a birthdate that is not in the
    future. *)
Lemma age_ymd_not_future (born today : date) :
  date_ok today = true -> date_gt born today = false ->
  age_ymd born today =
  let y := year today - year born in
  let m := month today - month born in
  let d := day today - day born in
  let '(pm, py) := if month today =? 1 then (12, year today - 1)
                   else (month today - 1, year today) in
  let '(m, d) := if d <? 0 then (m - 1, d + _days_in_month py pm)
                 else (m, d) in
  let '(y, m) := if m <? 0 then (y - 1, m + 12) else (y, m) in
  Ok (y, m, d).
Proof.
  intros Ht Hgt. unfold age_ymd. rewrite Hgt. cbv zeta.
  pose proof (borrowed_month_ok today Ht) as Hp.
  destruct (if month today =? 1 then (12, year today - 1)
            else (month today - 1, year today)) as [pm py].
  cbn [fst] in Hp.
  destruct (day today - day born <? 0); [ | reflexivity ].
  destruct (monthrange_ok py pm Hp) as [w ->]. reflexivity.
Qed.

Lemma observance_ok (born : date) (y : Z) :
  date_ok born = true -> MINYEAR <= y <= MAXYEAR ->
  date_ok (observance born y) = true.
Proof.
  intros Hb Hy. apply date_ok_iff in Hb. apply date_ok_iff.
  unfold observance. cbn.
  pose proof (days_in_month_bounds y (month born) ltac:(lia)). lia.
Qed.

Lemma safe_date_observance (born : date) (y : Z) :
  date_ok born = true -> MINYEAR <= y <= MAXYEAR ->
  _safe_date y (month born) (day born) = Ok (observance born y).
Proof.
  intros Hb Hy. apply date_ok_iff in Hb.
  apply safe_date_ok; lia.
Qed.

(** [next_birthday_after] without the monad, when the next observance
    fits in [date]. *)
Lemma next_birthday_after_eq (born today : date) :
  date_ok born = true -> date_ok today = true ->
  has_next_birthday born today = true ->
  next_birthday_after born today
  = Ok (if date_le (observance born (year today)) today
        then observance born (year today + 1)
        else observance born (year today)).
Proof.
  intros Hb Ht Hn. pose proof Ht as Ht'. apply date_ok_iff in Ht'.
  unfold next_birthday_after.
  rewrite safe_date_observance by (assumption || lia). cbn [bind].
  unfold has_next_birthday in Hn.
  destruct (date_le (observance born (year today)) today);
    [ | reflexivity ].
  cbn [negb] in Hn. rewrite orb_false_r in Hn. apply Z.ltb_lt in Hn.
  apply safe_date_observance; [ assumption | lia ].
Qed.

Lemma next_birthday_after_later (born today nb : date) :
  date_ok born = true -> date_ok today = true ->
  next_birthday_after born today = Ok nb ->
  date_ok nb = true /\ date_lt today nb = true.
Proof.
  intros Hb Ht. pose proof Ht as Ht'. apply date_ok_iff in Ht'.
  unfold next_birthday_after.
  rewrite safe_date_observance by (assumption || lia). cbn [bind].
  destruct (date_le (observance born (year today)) today) eqn:L.
  - unfold _safe_date.
    destruct (monthrange_ok (year today + 1) (month born)) as [w ->];
      [ apply date_ok_iff in Hb; lia | ].
    cbn [bind snd]. intros E. apply date_new_inv in E.
    destruct E as [-> Hok]. split; [ exact Hok | ].
    apply date_lt_iff. left. cbn. lia.
  - intros [= <-].
    split; [ apply observance_ok; [ assumption | lia ] | ].
    rewrite date_le_not_lt in L. apply negb_false_iff in L. exact L.
Qed.

(** In the last year of [date] a birthday that has passed has no
    successor: the second candidate cannot be built. *)
Lemma next_birthday_after_last_year (born today : date) :
  date_ok born = true -> date_ok today = true ->
  has_next_birthday born today = false ->
  next_birthday_after born today = Raise (year_error (MAXYEAR + 1)).
Proof.
  intros Hb Ht Hn. pose proof Hb as Hb'. apply date_ok_iff in Hb'.
  pose proof Ht as Ht'. apply date_ok_iff in Ht'.
  unfold has_next_birthday in Hn. apply orb_false_iff in Hn.
  destruct Hn as [Hy L]. apply Z.ltb_ge in Hy. apply negb_false_iff in L.
  assert (Ey : year today = MAXYEAR) by lia.
  unfold next_birthday_after.
  rewrite safe_date_observance by (assumption || lia).
  cbn [bind]. rewrite L. rewrite Ey.
  apply safe_date_overflow; lia.
Qed.

End AgeFacts.

(** ** Facts about patterns, digits and separators *)

Section TextFacts.
Context {U : UnicodeData}.

Lemma nullable_iff (p : re.pattern) :
  re.nullable p = true <-> re.matches p [].
Proof.
  induction p as [ | | c | | p IHp q IHq | p IHp q IHq ]; cbn.
  - split; [ discriminate | tauto ].
  - split; reflexivity.
  - split; discriminate.
  - split; [ discriminate | intros (c & H & _); discriminate ].
  - rewrite andb_true_iff, IHp, IHq. split.
    + intros [H1 H2]. exists [], []. auto.
    + intros (s1 & s2 & E & H1 & H2).
      symmetry in E. apply app_eq_nil in E. destruct E; subst. auto.
  - rewrite orb_true_iff, IHp, IHq. tauto.
Qed.

Lemma deriv_iff (p : re.pattern) (c : Z) (s : pystr) :
  re.matches (re.deriv c p) s <-> re.matches p (c :: s).
Proof.
  revert s.
  induction p as [ | | c' | | p IHp q IHq | p IHp q IHq ]; intros s; cbn.
  - tauto.
  - split; [ tauto | discriminate ].
  - destruct (Z.eqb_spec c c') as [-> | Hne]; cbn.
    + split; [ intros ->; reflexivity | intros [= ->]; reflexivity ].
    + split; [ tauto | intros [= -> _]; congruence ].
  - destruct (re.isdigit c) eqn:D; cbn.
    + split.
      * intros ->. exists c. auto.
      * intros (c0 & [= -> ->] & _). reflexivity.
    + split; [ tauto | ].
      intros (c0 & [= -> ->] & D'). congruence.
  - assert (Hseq : (exists s1 s2, s = s1 ++ s2
                      /\ re.matches (re.deriv c p) s1 /\ re.matches q s2)
                   <-> (exists s1 s2, c :: s = (c :: s1) ++ s2
                          /\ re.matches p (c :: s1) /\ re.matches q s2)).
    { split; intros (s1 & s2 & E & H1 & H2); exists s1, s2.
      - subst s. rewrite <- IHp. auto.
      - cbn in E. injection E as E. rewrite IHp. auto. }
    destruct (re.nullable p) eqn:N; cbn.
    + rewrite Hseq, IHq. split.
      * intros [(s1 & s2 & E & H1 & H2) | H].
        -- exists (c :: s1), s2. auto.
        -- exists [], (c :: s). split; [ reflexivity | ].
           split; [ apply nullable_iff; exact N | exact H ].
      * intros (s1 & s2 & E & H1 & H2). destruct s1 as [ | c1 s1 ].
        -- right. cbn in E. subst s2. exact H2.
        -- left. cbn in E. injection E as -> ->. exists s1, s2. auto.
    + rewrite Hseq. split.
      * intros (s1 & s2 & E & H1 & H2). exists (c :: s1), s2. auto.
      * intros (s1 & s2 & E & H1 & H2). destruct s1 as [ | c1 s1 ].
        -- apply nullable_iff in H1. congruence.
        -- cbn in E. injection E as -> ->. exists s1, s2. auto.
  - rewrite IHp, IHq. tauto.
Qed.

(** [fullmatch] decides [matches]. *)
Lemma fullmatch_iff (p : re.pattern) (s : pystr) :
  re.fullmatch p s = true <-> re.matches p s.
Proof.
  revert p. induction s as [ | c s IH ]; intros p; cbn.
  - apply nullable_iff.
  - rewrite IH. apply deriv_iff.
Qed.


Lemma matches_rep_digit (n : nat) (s : pystr) :
  re.matches (re.Rep n re.Digit) s
  <-> (isdecimal s = true /\ List.length s = n).
Proof.
  revert s. induction n as [ | n IH ]; intros s; cbn.
  - split.
    + intros ->. auto.
    + intros [_ H]. destruct s; [ reflexivity | discriminate ].
  - split.
    + intros (s1 & s2 & -> & (c & -> & D) & H2).
      apply IH in H2. destruct H2 as [H2 L]. cbn.
      unfold isdecimal in *. cbn. rewrite D, H2, L. auto.
    + intros [D L]. destruct s as [ | c s ]; [ discriminate | ].
      unfold isdecimal in D. cbn in D. apply andb_true_iff in D.
      destruct D as [D1 D2]. injection L as L.
      exists [c], s. split; [ reflexivity | ].
      split; [ exists c; auto | apply IH; auto ].
Qed.

Lemma matches_rep12_digit (s : pystr) :
  re.matches (re.Rep12 re.Digit) s
  <-> (isdecimal s = true /\ (List.length s = 1 \/ List.length s = 2)%nat).
Proof.
  unfold re.Rep12. cbn. split.
  - intros (s1 & s2 & -> & (c & -> & D) & [(c' & -> & D') | ->]);
      unfold isdecimal; cbn; rewrite D, ?D'; auto.
  - intros [D L]. unfold isdecimal in D.
    destruct s as [ | c [ | c' [ | c'' s ] ] ]; cbn in L;
      [ destruct L; discriminate | | | destruct L; discriminate ];
      cbn in D; rewrite ?andb_true_r in D.
    + exists [c], []. split; [ reflexivity | ].
      split; [ exists c; auto | right; reflexivity ].
    + apply andb_true_iff in D. destruct D as [D1 D2].
      exists [c], [c']. split; [ reflexivity | ].
      split; [ exists c; auto | left; exists c'; auto ].
Qed.

Lemma date_pattern_iff (s : pystr) :
  re.fullmatch date_pattern s = true <-> exists y m d, date_shaped s y m d.
Proof.
  rewrite fullmatch_iff. unfold date_pattern, date_shaped.
  change (re.matches (re.Seq ?p ?q) s)
    with (exists s1 s2, s = s1 ++ s2 /\ re.matches p s1 /\ re.matches q s2).
  split.
  - intros (y & s2 & -> & Hy & H2).
    destruct H2 as (h1 & s3 & -> & Hh1 & H3).
    destruct H3 as (m & s4 & -> & Hm & H4).
    destruct H4 as (h2 & d & -> & Hh2 & Hd).
    cbn in Hh1, Hh2. subst h1 h2.
    apply matches_rep_digit in Hy.
    apply matches_rep12_digit in Hm. apply matches_rep12_digit in Hd.
    exists y, m, d. cbn [app]. tauto.
  - intros (y & m & d & -> & Dy & Ly & Dm & Lm & Dd & Ld).
    exists y, (45 :: m ++ 45 :: d). split; [ reflexivity | ].
    split; [ apply matches_rep_digit; auto | ].
    exists [45], (m ++ 45 :: d). split; [ reflexivity | ].
    split; [ reflexivity | ].
    exists m, (45 :: d). split; [ reflexivity | ].
    split; [ apply matches_rep12_digit; auto | ].
    exists [45], d. split; [ reflexivity | ].
    split; [ reflexivity | apply matches_rep12_digit; auto ].
Qed.

Lemma isdigit_not_hyphen (c : Z) : re.isdigit c = true -> c <> 45.
Proof.
  unfold re.isdigit. intros H ->. rewrite decimal_hyphen in H.
  discriminate.
Qed.

Lemma split_nonempty (sep : Z) (s : pystr) : split sep s <> [].
Proof.
  induction s as [ | c s IH ]; cbn; [ discriminate | ].
  destruct (c =? sep); [ discriminate | ].
  destruct (split sep s); [ discriminate | discriminate ].
Qed.

Lemma split_decimal (s : pystr) :
  isdecimal s = true -> split 45 s = [s].
Proof.
  unfold isdecimal. induction s as [ | c s IH ]; cbn; [ reflexivity | ].
  intros D. apply andb_true_iff in D. destruct D as [D1 D2].
  apply isdigit_not_hyphen in D1. apply Z.eqb_neq in D1. rewrite D1.
  rewrite IH by assumption. reflexivity.
Qed.

Lemma split_decimal_app (y rest : pystr) :
  isdecimal y = true -> split 45 (y ++ 45 :: rest) = y :: split 45 rest.
Proof.
  unfold isdecimal. induction y as [ | c y IH ]; cbn; [ reflexivity | ].
  intros D. apply andb_true_iff in D. destruct D as [D1 D2].
  apply isdigit_not_hyphen in D1. apply Z.eqb_neq in D1. rewrite D1.
  rewrite IH by assumption. reflexivity.
Qed.

Lemma int_digits_decimal (s : pystr) (acc : Z) :
  isdecimal s = true -> exists n, int_digits acc s = Some n.
Proof.
  unfold isdecimal. revert acc.
  induction s as [ | c s IH ]; intros acc; cbn; [ eauto | ].
  unfold re.isdigit. destruct (decimal c); [ | discriminate ].
  intros D. apply IH. exact D.
Qed.

Lemma int_decimal (s : pystr) :
  isdecimal s = true -> s <> [] -> int s = Ok (digits_value s).
Proof.
  intros D N. unfold int, digits_value.
  destruct (int_digits_decimal s 0 D) as [n ->].
  destruct s; [ congruence | reflexivity ].
Qed.

(** A string of that shape splits into its three numbers. *)
Lemma map_int_date_shaped (s y m d : pystr) :
  date_shaped s y m d ->
  map_int (split 45 s)
  = Ok [digits_value y; digits_value m; digits_value d].
Proof.
  intros (-> & Dy & Ly & Dm & Lm & Dd & Ld).
  rewrite split_decimal_app by assumption.
  rewrite split_decimal_app by assumption.
  rewrite split_decimal by assumption.
  cbn [map_int].
  rewrite !int_decimal; try assumption; try reflexivity;
    intros ->; cbn in *; lia.
Qed.


(** *** Digit normalization *)

Lemma normalize_digits_map (s : pystr) : normalize_digits s = map p2l s.
Proof. reflexivity. Qed.

Lemma p2l_cases (c : Z) :
  (1776 <= c <= 1785 /\ p2l c = 48 + (c - 1776))
  \/ (1632 <= c <= 1641 /\ p2l c = 48 + (c - 1632))
  \/ (~ 1776 <= c <= 1785 /\ ~ 1632 <= c <= 1641 /\ p2l c = c).
Proof.
  unfold p2l, P2L_DIGITS, maketrans. cbn [combine table_get].
  repeat match goal with
         | |- context [c =? ?k] =>
             destruct (Z.eqb_spec c k); [ subst c; lia | ]
         end.
  lia.
Qed.

Lemma decimal_p2l (c : Z) : decimal (p2l c) = decimal c.
Proof.
  destruct (p2l_cases c) as [(R & ->) | [(R & ->) | (_ & _ & ->)]];
    [ | | reflexivity ].
  - rewrite decimal_ascii by lia.
    replace c with (1776 + (c - 1776)) at 2 by lia.
    rewrite decimal_persian by lia. reflexivity.
  - rewrite decimal_ascii by lia.
    replace c with (1632 + (c - 1632)) at 2 by lia.
    rewrite decimal_arabic_indic by lia. reflexivity.
Qed.

Lemma isdigit_p2l (c : Z) : re.isdigit (p2l c) = re.isdigit c.
Proof. unfold re.isdigit. rewrite decimal_p2l. reflexivity. Qed.

Lemma isspace_digit_ranges (c : Z) :
  48 <= c <= 57 \/ 1632 <= c <= 1641 \/ 1776 <= c <= 1785 ->
  isspace c = false.
Proof.
  intros H. apply not_true_is_false. unfold isspace.
  rewrite !orb_true_iff, !andb_true_iff, !Z.leb_le, !Z.eqb_eq. lia.
Qed.

Lemma isspace_p2l (c : Z) : isspace (p2l c) = isspace c.
Proof.
  destruct (p2l_cases c) as [(R & ->) | [(R & ->) | (_ & _ & ->)]];
    [ | | reflexivity ];
    rewrite !isspace_digit_ranges by lia; reflexivity.
Qed.

(** The table leaves the three separators alone and maps nothing else
    to them. *)
Lemma p2l_separator (c k : Z) :
  45 <= k <= 47 -> (p2l c =? k) = (c =? k).
Proof.
  intros Hk.
  destruct (p2l_cases c) as [(R & ->) | [(R & ->) | (_ & _ & ->)]];
    [ | | reflexivity ];
    match goal with
    | |- (?a =? k) = _ => destruct (Z.eqb_spec a k), (Z.eqb_spec c k)
    end;
    try reflexivity; lia.
Qed.

Lemma lstrip_map (f : Z -> Z) (s : pystr) :
  (forall c, isspace (f c) = isspace c) ->
  lstrip (map f s) = map f (lstrip s).
Proof.
  intros Hf. induction s as [ | c s IH ]; cbn; [ reflexivity | ].
  rewrite Hf. destruct (isspace c); [ exact IH | reflexivity ].
Qed.

Lemma strip_map (f : Z -> Z) (s : pystr) :
  (forall c, isspace (f c) = isspace c) ->
  strip (map f s) = map f (strip s).
Proof.
  intros Hf. unfold strip, rstrip.
  rewrite lstrip_map by assumption.
  rewrite <- map_rev, lstrip_map by assumption.
  rewrite map_rev. reflexivity.
Qed.

Lemma sub_chars_p2l (s : pystr) :
  re.sub_chars [47; 46] 45 (map p2l s)
  = map p2l (re.sub_chars [47; 46] 45 s).
Proof.
  unfold re.sub_chars. rewrite !map_map. apply map_ext. intros c.
  cbn [existsb]. rewrite !p2l_separator by lia.
  destruct (Z.eqb_spec c 47) as [-> | ]; [ reflexivity | ].
  destruct (Z.eqb_spec c 46) as [-> | ]; reflexivity.
Qed.

Lemma normalize_sep_p2l (s : pystr) :
  _normalize_sep (map p2l s) = map p2l (_normalize_sep s).
Proof.
  unfold _normalize_sep.
  rewrite strip_map by apply isspace_p2l. apply sub_chars_p2l.
Qed.

Lemma deriv_p2l (p : re.pattern) (c : Z) :
  separators_only p -> re.deriv (p2l c) p = re.deriv c p.
Proof.
  induction p as [ | | c' | | p IHp q IHq | p IHp q IHq ]; cbn;
    intros H; try reflexivity.
  - rewrite p2l_separator by assumption. reflexivity.
  - rewrite isdigit_p2l. reflexivity.
  - destruct H as [Hp Hq]. rewrite IHp, IHq by assumption. reflexivity.
  - destruct H as [Hp Hq]. rewrite IHp, IHq by assumption. reflexivity.
Qed.

Lemma separators_only_deriv (p : re.pattern) (c : Z) :
  separators_only p -> separators_only (re.deriv c p).
Proof.
  induction p as [ | | c' | | p IHp q IHq | p IHp q IHq ]; cbn;
    intros H; try exact I.
  - destruct (c =? c'); exact I.
  - destruct (re.isdigit c); exact I.
  - destruct H as [Hp Hq]. destruct (re.nullable p); cbn; auto.
  - destruct H as [Hp Hq]. auto.
Qed.

Lemma fullmatch_p2l (p : re.pattern) (s : pystr) :
  separators_only p ->
  re.fullmatch p (map p2l s) = re.fullmatch p s.
Proof.
  revert p. induction s as [ | c s IH ]; intros p H; cbn;
    [ reflexivity | ].
  rewrite deriv_p2l by assumption.
  apply IH. apply separators_only_deriv. exact H.
Qed.

Lemma split_p2l (s : pystr) :
  split 45 (map p2l s) = map (map p2l) (split 45 s).
Proof.
  induction s as [ | c s IH ]; cbn; [ reflexivity | ].
  rewrite p2l_separator by lia. rewrite IH.
  destruct (c =? 45); [ reflexivity | ].
  destruct (split 45 s); reflexivity.
Qed.

Lemma int_digits_p2l (s : pystr) (acc : Z) :
  int_digits acc (map p2l s) = int_digits acc s.
Proof.
  revert acc. induction s as [ | c s IH ]; intros acc; cbn;
    [ reflexivity | ].
  rewrite decimal_p2l. destruct (decimal c); [ apply IH | reflexivity ].
Qed.

Lemma int_p2l (s : pystr) : int (map p2l s) = int s.
Proof.
  unfold int. rewrite int_digits_p2l. destruct s; reflexivity.
Qed.

Lemma map_int_p2l (parts : list pystr) :
  map_int (map (map p2l) parts) = map_int parts.
Proof.
  induction parts as [ | p parts IH ]; cbn; [ reflexivity | ].
  rewrite int_p2l, IH. reflexivity.
Qed.

(** *** Separators *)

Lemma sub_chars_idem (s : pystr) :
  re.sub_chars [47; 46] 45 (re.sub_chars [47; 46] 45 s)
  = re.sub_chars [47; 46] 45 s.
Proof.
  unfold re.sub_chars. rewrite map_map. apply map_ext. intros c.
  cbn [existsb].
  destruct (Z.eqb_spec c 47) as [-> | ]; [ reflexivity | ].
  destruct (Z.eqb_spec c 46) as [-> | ]; [ reflexivity | ].
  cbn [orb].
  destruct (Z.eqb_spec c 47); [ congruence | ].
  destruct (Z.eqb_spec c 46); [ congruence | ]. reflexivity.
Qed.

Lemma normalize_sep_sub_chars (s : pystr) :
  _normalize_sep (re.sub_chars [47; 46] 45 s) = _normalize_sep s.
Proof.
  unfold _normalize_sep, re.sub_chars at 2.
  rewrite strip_map.
  - apply sub_chars_idem.
  - intros c. cbn [existsb].
    destruct (Z.eqb_spec c 47) as [-> | ]; [ reflexivity | ].
    destruct (Z.eqb_spec c 46) as [-> | ]; reflexivity.
Qed.

End TextFacts.

(** ** Facts about the parsers *)

Section ParseFacts.
Context {U : UnicodeData}.

Lemma date_pattern_separators : separators_only date_pattern.
Proof. cbn. lia. Qed.


Lemma parse_jalali_tuple_normalize_digits (s : pystr) :
  parse_jalali_tuple (normalize_digits s) = parse_jalali_tuple s.
Proof.
  unfold parse_jalali_tuple.
  rewrite normalize_digits_map, normalize_sep_p2l.
  rewrite fullmatch_p2l by apply date_pattern_separators.
  rewrite split_p2l, map_int_p2l. reflexivity.
Qed.


Lemma parse_jalali_tuple_separators (s : pystr) :
  parse_jalali_tuple (re.sub_chars [47; 46] 45 s) = parse_jalali_tuple s.
Proof.
  unfold parse_jalali_tuple. rewrite normalize_sep_sub_chars. reflexivity.
Qed.

Lemma parse_gregorian_matched (s y m d : pystr) :
  date_shaped (_normalize_sep s) y m d ->
  parse_gregorian s
  = date_new (digits_value y) (digits_value m) (digits_value d).
Proof.
  intros H. unfold parse_gregorian.
  replace (re.fullmatch date_pattern (_normalize_sep s)) with true
    by (symmetry; apply date_pattern_iff; eauto).
  cbn [negb]. rewrite (map_int_date_shaped _ _ _ _ H). reflexivity.
Qed.

Lemma parse_jalali_tuple_matched (s y m d : pystr) :
  date_shaped (_normalize_sep s) y m d ->
  parse_jalali_tuple s
  = Ok [digits_value y; digits_value m; digits_value d].
Proof.
  intros H. unfold parse_jalali_tuple.
  replace (re.fullmatch date_pattern (_normalize_sep s)) with true
    by (symmetry; apply date_pattern_iff; eauto).
  cbn [negb]. apply (map_int_date_shaped _ _ _ _ H).
Qed.

(** What the constructor answers. *)
Lemma date_new_cases (y m d : Z) :
  (date_ok (mkdate y m d) = true /\ date_new y m d = Ok (mkdate y m d))
  \/ (date_ok (mkdate y m d) = false
      /\ (date_new y m d = Raise (year_error y)
          \/ date_new y m d = Raise month_error
          \/ date_new y m d = Raise day_error)).
Proof.
  destruct (date_ok (mkdate y m d)) eqn:E.
  - left. split; [ reflexivity | apply date_new_ok; exact E ].
  - right. split; [ reflexivity | ].
    unfold date_new.
    destruct ((MINYEAR <=? y) && (y <=? MAXYEAR)) eqn:Hy; cbn [negb];
      [ | auto ].
    destruct ((1 <=? m) && (m <=? 12)) eqn:Hm; cbn [negb]; [ | auto ].
    destruct ((1 <=? d) && (d <=? _days_in_month y m)) eqn:Hd; cbn [negb];
      [ | auto ].
    exfalso. unfold date_ok in E. cbn [year month day] in E.
    rewrite <- !andb_assoc in E.
    apply andb_true_iff in Hy, Hm, Hd.
    destruct Hy as [Hy1 Hy2], Hm as [Hm1 Hm2], Hd as [Hd1 Hd2].
    rewrite Hy1, Hy2, Hm1, Hm2, Hd1, Hd2 in E. discriminate.
Qed.

(** ASCII digits are digits of every version of the database. *)
Lemma int_digits_ascii (s : pystr) (acc : Z) :
  is_ascii_digits s = true ->
  isdecimal s = true
  /\ int_digits acc s
     = Some (fold_left (fun acc c => 10 * acc + (c - 48)) s acc).
Proof.
  unfold is_ascii_digits, isdecimal. revert acc.
  induction s as [ | c s IH ]; intros acc; cbn; [ auto | ].
  intros H. apply andb_true_iff in H. destruct H as [Hc Hs].
  apply andb_true_iff in Hc. rewrite !Z.leb_le in Hc.
  assert (D : decimal c = Some (c - 48)).
  { replace c with (48 + (c - 48)) at 1 by lia. apply decimal_ascii. lia. }
  unfold re.isdigit. rewrite D.
  destruct (IH (10 * acc + (c - 48)) Hs) as [D' V]. auto.
Qed.

Lemma ascii_digits_decimal (s : pystr) :
  is_ascii_digits s = true ->
  isdecimal s = true /\ digits_value s = ascii_value s.
Proof.
  intros H. destruct (int_digits_ascii s 0 H) as [D V].
  unfold digits_value, ascii_value. rewrite V. auto.
Qed.

Lemma date_shaped_ascii (s y m d : pystr) :
  s = y ++ 45 :: m ++ 45 :: d ->
  is_ascii_digits y = true -> List.length y = 4%nat ->
  is_ascii_digits m = true -> (List.length m = 1 \/ List.length m = 2)%nat ->
  is_ascii_digits d = true -> (List.length d = 1 \/ List.length d = 2)%nat ->
  date_shaped s y m d
  /\ digits_value y = ascii_value y
  /\ digits_value m = ascii_value m
  /\ digits_value d = ascii_value d.
Proof.
  intros E Ay Ly Am Lm Ad Ld.
  destruct (ascii_digits_decimal y Ay) as [Dy Vy].
  destruct (ascii_digits_decimal m Am) as [Dm Vm].
  destruct (ascii_digits_decimal d Ad) as [Dd Vd].
  unfold date_shaped. tauto.
Qed.


Lemma parse_jalali_tuple_ascii (s y m d : pystr) :
  _normalize_sep s = y ++ 45 :: m ++ 45 :: d ->
  is_ascii_digits y = true -> List.length y = 4%nat ->
  is_ascii_digits m = true -> (List.length m = 1 \/ List.length m = 2)%nat ->
  is_ascii_digits d = true -> (List.length d = 1 \/ List.length d = 2)%nat ->
  parse_jalali_tuple s = Ok [ascii_value y; ascii_value m; ascii_value d].
Proof.
  intros E Ay Ly Am Lm Ad Ld.
  destruct (date_shaped_ascii _ y m d E Ay Ly Am Lm Ad Ld)
    as (H & <- & <- & <-).
  apply parse_jalali_tuple_matched. exact H.
Qed.



End ParseFacts.

(** Runs a parser on a sample whose three fields are ASCII digits. *)
Ltac run_ascii lemma y m d :=
  rewrite (lemma _ y m d);
  [ | first [ reflexivity | left; reflexivity | right; reflexivity ] .. ].

(** ** Facts about the flows *)

Section FlowFacts.
Context {U : UnicodeData}.

(** The loops only look at what the body of the [try] prints and
    raises. *)
Lemma age_loop_ext (ask : key) (f g : pystr -> io unit)
    (input : list pystr) :
  (forall raw, f raw = g raw) ->
  age_loop ask f input = age_loop ask g input.
Proof.
  intros E. remember (List.length input) as n eqn:Hn.
  revert input Hn.
  induction n as [n IH] using lt_wf_ind. intros input Hn.
  destruct input as [ | line rest ]; [ reflexivity | ].
  cbn [age_loop]. rewrite E.
  destruct (str_in _ _); [ reflexivity | ].
  destruct (g (normalize_digits (strip line))) as [o [[] | e]].
  - destruct rest as [ | answer rest' ]; [ reflexivity | ].
    destruct (negb _); [ reflexivity | ].
    f_equal. apply (IH (List.length rest')); [ subst n; cbn; lia | reflexivity ].
  - f_equal. apply (IH (List.length rest)); [ subst n; cbn; lia | reflexivity ].
Qed.

Lemma show_age_card_no_backend (G : globals) (born today : date)
    (ymd : Z * Z * Z) (d2n : Z) :
  JALALI_OK G = false ->
  show_age_card G born today ymd d2n
  = (print (Title AGE_CARD) ;;
     print (Line BIRTH_G (ShowDate born)) ;;
     print (Line TODAY_G (ShowDate today)) ;;
     print (Line AGE (ShowAge ymd)) ;;
     nb <- lift (next_birthday_after born today) ;;
     print (Line NEXT_BD (ShowDate nb)) ;;
     print (Line IN_ (ShowDays d2n)) ;;
     print BoxBottom)%io.
Proof.
  intros H. unfold show_age_card. rewrite H. cbn.
  destruct (next_birthday_after born today); reflexivity.
Qed.

End FlowFacts.

(** * Claims: Jalali conversion *)

Section Conversion.
Import JalaliConverter.

(** C1, as stated, fails: 1 Farvardin 9999 is a structurally valid
    Jalali date, but its Gregorian equivalent is in the year 10620,
    which [date] cannot hold, so [jtuple_to_gdate] raises and the
    composition does not give the date back. *)
Lemma jalali_roundtrip_counterexample :
  jalali_valid 9999 1 1 = true
  /\ jtuple_to_gdate (installed convertdate) 9999 1 1
     = Raise (year_error 10620)
  /\ jtuple_to_gdate (installed jdatetime_backend) 9999 1 1
     = Raise (year_error 10620).
Proof. vm_compute. repeat split. Qed.

(** C1, amended: with either backend, every valid Gregorian date [g]
    is converted by [gdate_to_jtuple] to a structurally valid Jalali
    date that [jtuple_to_gdate] converts back to [g]; and every
    structurally valid Jalali date whose day lies between [date.min]
    and [date.max] is converted by [jtuple_to_gdate] to a date that
    [gdate_to_jtuple] converts back to it. *)
Theorem jalali_roundtrip (b : backend) (g : date) (jy jm jd_ : Z) :
  (date_ok g = true ->
   exists j,
     gdate_to_jtuple (installed b) g = Ok j
     /\ jalali_valid (fst (fst j)) (snd (fst j)) (snd j) = true
     /\ jtuple_to_gdate (installed b) (fst (fst j)) (snd (fst j)) (snd j)
        = Ok g)
  /\ (jalali_valid jy jm jd_ = true ->
      toordinal date_min <= jalali_to_ordinal jy jm jd_
        <= toordinal date_max ->
      exists g',
        jtuple_to_gdate (installed b) jy jm jd_ = Ok g'
        /\ date_ok g' = true
        /\ gdate_to_jtuple (installed b) g' = Ok (jy, jm, jd_)).
Proof.
  split.
  - intros Hg. rewrite gdate_to_jtuple_installed.
    pose proof (gregorianToJalali_valid (year g) (month g) (day g)) as S.
    destruct (gregorianToJalali (year g) (month g) (day g))
      as [[y m] d].
    destruct S as [V E].
    exists (y, m, d). cbn [fst snd]. split; [ reflexivity | ].
    split; [ exact V | ].
    rewrite jtuple_to_gdate_installed. unfold jalaliToGregorian.
    rewrite V, E. cbn [negb bind].
    pose proof Hg as Hg'. apply date_ok_iff in Hg'.
    destruct Hg' as (_ & Hm & Hd).
    rewrite ord2ymd_ymd2ord by assumption.
    destruct g as [gy gm gd]. apply date_new_ok. exact Hg.
  - intros V R. rewrite jtuple_to_gdate_installed.
    unfold jalaliToGregorian. rewrite V. cbn [negb bind].
    set (n := jalali_to_ordinal jy jm jd_) in *.
    pose proof (ord2ymd_spec n) as S.
    pose proof (proj1 (ord2ymd_year_range n) R) as Y.
    destruct (_ord2ymd n) as [[gy gm] gd]. cbn [fst] in Y.
    destruct S as (Hm & Hd & E).
    assert (Hok : date_ok (mkdate gy gm gd) = true)
      by (apply date_ok_iff; cbn; lia).
    exists (mkdate gy gm gd).
    split; [ apply date_new_ok; exact Hok | ].
    split; [ exact Hok | ].
    rewrite gdate_to_jtuple_installed. cbn [year month day].
    unfold gregorianToJalali. rewrite E. subst n.
    rewrite ordinal_to_jalali_to_ordinal by exact V. reflexivity.
Qed.

(** The round trips of C1 at the golden pair, with [convertdate]. *)
Lemma jalali_roundtrip_witness :
  (exists j,
     gdate_to_jtuple (installed convertdate) (mkdate 2025 10 18) = Ok j
     /\ jalali_valid (fst (fst j)) (snd (fst j)) (snd j) = true
     /\ jtuple_to_gdate (installed convertdate)
          (fst (fst j)) (snd (fst j)) (snd j)
        = Ok (mkdate 2025 10 18))
  /\ (exists g',
        jtuple_to_gdate (installed convertdate) 1404 7 26 = Ok g'
        /\ date_ok g' = true
        /\ gdate_to_jtuple (installed convertdate) g' = Ok (1404, 7, 26)).
Proof.
  destruct (jalali_roundtrip convertdate (mkdate 2025 10 18) 1404 7 26)
    as [H1 H2].
  split.
  - apply H1. reflexivity.
  - apply H2; [ reflexivity | vm_compute; split; discriminate ].
Defined.

(** The golden pair of the spec. *)
Example golden_pair (b : backend) :
  gdate_to_jtuple (installed b) (mkdate 2025 10 18) = Ok (1404, 7, 26)
  /\ jtuple_to_gdate (installed b) 1404 7 26 = Ok (mkdate 2025 10 18).
Proof. destruct b; vm_compute; split; reflexivity. Qed.

End Conversion.

(** * Claims: age math *)

Section AgeMath.

(** C2: the code breaks the claim.  For born 2000-01-31 and today
    2001-03-01 (born <= today) the borrow adds the 28 days of February
    to 1 - 31 and [age_ymd] returns -2 days, outside the range
    0..(days in borrowed month) that the claim states. *)
Theorem age_ymd_negative_days :
  date_ok (mkdate 2000 1 31) = true
  /\ date_ok (mkdate 2001 3 1) = true
  /\ date_le (mkdate 2000 1 31) (mkdate 2001 3 1) = true
  /\ age_ymd (mkdate 2000 1 31) (mkdate 2001 3 1) = Ok (1, 1, -2).
Proof. repeat split. Qed.

(** What does hold of the result of [age_ymd] for born <= today, whose
    computation with the two borrows is [age_ymd_not_future]: years >= 0,
    months in 0..11, and days in -2..30; then the example of the spec. *)
Lemma age_ymd_bounds (born today : date) (y m d : Z) :
  date_ok born = true -> date_ok today = true ->
  date_le born today = true ->
  age_ymd born today = Ok (y, m, d) ->
  0 <= y /\ 0 <= m <= 11 /\ -2 <= d <= 30.
Proof.
  intros Hb Ht Hle.
  rewrite age_ymd_not_future
    by (assumption || (rewrite date_gt_not_le, Hle; reflexivity)).
  cbv zeta.
  pose proof (borrowed_month_ok today Ht) as Hp.
  destruct (if month today =? 1 then (12, year today - 1)
            else (month today - 1, year today)) as [pm py].
  cbn [fst] in Hp.
  pose proof (days_in_month_bounds py pm Hp) as Hdim.
  apply date_ok_iff in Hb. apply date_ok_iff in Ht.
  pose proof (days_in_month_bounds (year born) (month born) ltac:(lia)).
  pose proof (days_in_month_bounds (year today) (month today) ltac:(lia)).
  apply date_le_iff in Hle. rewrite date_lt_iff in Hle.
  assert (Hord : year born < year today
                 \/ (year born = year today
                     /\ (month born < month today
                         \/ (month born = month today
                             /\ day born <= day today)))).
  { destruct Hle as [Hle | ->]; lia. }
  clear Hle.
  destruct (Z.ltb_spec (day today - day born) 0) as [Hd | Hd].
  - destruct (Z.ltb_spec (month today - month born - 1) 0);
      intros [= <- <- <-]; lia.
  - destruct (Z.ltb_spec (month today - month born) 0);
      intros [= <- <- <-]; lia.
Qed.

Example age_ymd_example :
  age_ymd (mkdate 1990 7 15) (mkdate 2025 10 18) = Ok (35, 3, 3).
Proof. reflexivity. Qed.

(** C3: [age_ymd] raises the "future birthdate" [ValueError] exactly
    when born > today, raises nothing else, and returns a triple when
    born <= today. *)
Theorem age_ymd_future_birthdate (born today : date) :
  date_ok born = true -> date_ok today = true ->
  (age_ymd born today = Raise future_birthdate
   <-> date_gt born today = true)
  /\ (forall e, age_ymd born today = Raise e -> e = future_birthdate)
  /\ (date_le born today = true ->
      exists y m d, age_ymd born today = Ok (y, m, d)).
Proof.
  intros Hb Ht.
  destruct (date_gt born today) eqn:Hgt.
  - unfold age_ymd. rewrite Hgt. split; [ tauto | ]. split.
    + intros e [= <-]. reflexivity.
    + rewrite date_gt_not_le in Hgt. apply negb_true_iff in Hgt.
      rewrite Hgt. discriminate.
  - rewrite age_ymd_not_future by assumption. cbv zeta.
    destruct (if month today =? 1 then (12, year today - 1)
              else (month today - 1, year today)) as [pm py].
    destruct (if day today - day born <? 0
              then (month today - month born - 1,
                    day today - day born + _days_in_month py pm)
              else (month today - month born, day today - day born))
      as [m d].
    destruct (if m <? 0 then (year today - year born - 1, m + 12)
              else (year today - year born, m)) as [y m'].
    split; [ split; discriminate | ].
    split; [ discriminate | ].
    intros _. exists y, m', d. reflexivity.
Qed.

(** C3 at born 1990-07-15 and today 2025-10-18. *)
Lemma age_ymd_future_birthdate_witness :
  date_le (mkdate 1990 7 15) (mkdate 2025 10 18) = true
  /\ exists y m d,
       age_ymd (mkdate 1990 7 15) (mkdate 2025 10 18) = Ok (y, m, d).
Proof.
  split; [ reflexivity | ].
  destruct (age_ymd_future_birthdate (mkdate 1990 7 15) (mkdate 2025 10 18)
              eq_refl eq_refl) as (_ & _ & H).
  apply H. reflexivity.
Defined.

Example age_ymd_future_example :
  age_ymd (mkdate 2030 1 1) (mkdate 2025 1 1) = Raise future_birthdate.
Proof. reflexivity. Qed.

(** C4, as stated, fails twice.  For born 2000-02-29 and today
    2025-03-01 the candidate of 2025 is 2025-02-28, which is not after
    today, so the function returns the candidate of 2026, 2026-02-28,
    not 2025-02-28.  And for a today in the year 9999 whose candidate
    has passed there is no year + 1 in [date]: the function raises. *)
Lemma next_birthday_after_counterexample :
  next_birthday_after (mkdate 2000 2 29) (mkdate 2025 3 1)
  = Ok (mkdate 2026 2 28)
  /\ next_birthday_after (mkdate 2000 2 29) (mkdate 2025 3 1)
     <> Ok (mkdate 2025 2 28)
  /\ next_birthday_after (mkdate 2000 2 29) (mkdate 9999 3 1)
     = Raise (year_error 10000).
Proof. repeat split. discriminate. Qed.

(** C4, amended: for every born and today whose next observance fits
    in [date] (today's year is before 9999, or the observance of 9999 is
    still ahead), [next_birthday_after] returns the observance of the
    birthday (born's month and day, the day clamped to the end of the
    month) in today's year if that is after today, and else the
    observance in the next year; the returned date is a real date
    strictly after today; for born 2000-02-29 and today 2025-03-01 it is
    2026-02-28, not 2026-03-01. *)
Theorem next_birthday_after_spec (born today : date) :
  (date_ok born = true -> date_ok today = true ->
   has_next_birthday born today = true ->
   exists nb,
     next_birthday_after born today = Ok nb
     /\ nb = (if date_le (observance born (year today)) today
              then observance born (year today + 1)
              else observance born (year today))
     /\ date_ok nb = true
     /\ date_lt today nb = true)
  /\ next_birthday_after (mkdate 2000 2 29) (mkdate 2025 3 1)
     = Ok (mkdate 2026 2 28)
  /\ next_birthday_after (mkdate 2000 2 29) (mkdate 2025 3 1)
     <> Ok (mkdate 2026 3 1).
Proof.
  split.
  - intros Hb Ht Hn.
    pose proof (next_birthday_after_eq born today Hb Ht Hn) as E.
    eexists. split; [ exact E | ]. split; [ reflexivity | ].
    apply (next_birthday_after_later born today); assumption.
  - split; [ reflexivity | discriminate ].
Qed.

(** C4 at born 1990-07-15 and today 2025-10-18. *)
Lemma next_birthday_after_spec_witness :
  exists nb,
    next_birthday_after (mkdate 1990 7 15) (mkdate 2025 10 18) = Ok nb
    /\ nb = mkdate 2026 7 15
    /\ date_ok nb = true
    /\ date_lt (mkdate 2025 10 18) nb = true.
Proof.
  destruct (next_birthday_after_spec (mkdate 1990 7 15) (mkdate 2025 10 18))
    as [H _].
  apply H; reflexivity.
Defined.

(** C5, as stated, fails: for today 9999-12-31 there is no next
    birthday in [date], and [days_until_next_birthday] raises instead
    of returning a number. *)
Lemma days_until_next_birthday_counterexample :
  date_ok (mkdate 1990 7 15) = true
  /\ date_ok (mkdate 9999 12 31) = true
  /\ days_until_next_birthday (mkdate 1990 7 15) (mkdate 9999 12 31)
     = Raise (year_error 10000).
Proof. repeat split. Qed.

(** C5, amended: for every born and today whose next observance fits
    in [date] (today's year is before 9999, or the observance of 9999 is
    still ahead), [days_until_next_birthday] returns the difference in
    days between the date [next_birthday_after] returns and today, and
    this number is >= 0. *)
Theorem days_until_next_birthday_spec (born today : date) :
  date_ok born = true -> date_ok today = true ->
  has_next_birthday born today = true ->
  exists nb,
    next_birthday_after born today = Ok nb
    /\ days_until_next_birthday born today
       = Ok (toordinal nb - toordinal today)
    /\ 0 <= toordinal nb - toordinal today.
Proof.
  intros Hb Ht Hn.
  pose proof (next_birthday_after_eq born today Hb Ht Hn) as E.
  destruct (next_birthday_after_later born today _ Hb Ht E) as [Hok Hlt].
  eexists. split; [ exact E | ].
  unfold days_until_next_birthday. rewrite E. cbn [bind date_sub days].
  split; [ reflexivity | ].
  pose proof (toordinal_lt _ _ Ht Hok Hlt). lia.
Qed.

(** C5 at born 1990-07-15 and today 2025-10-18. *)
Lemma days_until_next_birthday_spec_witness :
  exists nb,
    next_birthday_after (mkdate 1990 7 15) (mkdate 2025 10 18) = Ok nb
    /\ days_until_next_birthday (mkdate 1990 7 15) (mkdate 2025 10 18)
       = Ok (toordinal nb - toordinal (mkdate 2025 10 18))
    /\ 0 <= toordinal nb - toordinal (mkdate 2025 10 18).
Proof.
  apply (days_until_next_birthday_spec (mkdate 1990 7 15)
           (mkdate 2025 10 18)); reflexivity.
Defined.

Example days_until_next_birthday_example :
  days_until_next_birthday (mkdate 1990 7 15) (mkdate 2025 10 18) = Ok 270.
Proof. reflexivity. Qed.

(** C10, as stated, fails: on 9999-12-31 someone born on a 31 December
    has born <= today and a birthday today, but the observance of the
    year 10000 cannot be built and no number of days is returned. *)
Lemma birthday_today_counterexample :
  date_ok (mkdate 2000 12 31) = true
  /\ date_ok (mkdate 9999 12 31) = true
  /\ date_le (mkdate 2000 12 31) (mkdate 9999 12 31) = true
  /\ observance (mkdate 2000 12 31) 9999 = mkdate 9999 12 31
  /\ days_until_next_birthday (mkdate 2000 12 31) (mkdate 9999 12 31)
     = Raise (year_error 10000).
Proof. repeat split. Qed.

(** C10, amended: for every born <= today whose next observance fits
    in [date] (today's year is before 9999, or the observance of 9999 is
    still ahead), [days_until_next_birthday] is >= 1; when today is the
    (clamped) observance of the birthday, [next_birthday_after] returns
    the observance of the next year, never today itself. *)
Theorem days_until_next_birthday_positive (born today : date) :
  date_ok born = true -> date_ok today = true ->
  date_le born today = true -> has_next_birthday born today = true ->
  (exists n, days_until_next_birthday born today = Ok n /\ 1 <= n)
  /\ (observance born (year today) = today ->
      next_birthday_after born today
      = Ok (observance born (year today + 1))
      /\ next_birthday_after born today <> Ok today).
Proof.
  intros Hb Ht _ Hn.
  pose proof (next_birthday_after_eq born today Hb Ht Hn) as E.
  destruct (next_birthday_after_later born today _ Hb Ht E) as [Hok Hlt].
  split.
  - unfold days_until_next_birthday. rewrite E. cbn [bind date_sub days].
    eexists. split; [ reflexivity | ].
    pose proof (toordinal_lt _ _ Ht Hok Hlt). lia.
  - intros Hobs. rewrite E, Hobs.
    replace (date_le today today) with true
      by (symmetry; apply date_le_iff; right; reflexivity).
    split; [ reflexivity | ].
    intros [= H]. unfold observance in H.
    destruct today as [ty tm td]. cbn in H. injection H. lia.
Qed.

(** C10 on the birthday itself: born 1990-07-15, today 2025-07-15. *)
Lemma days_until_next_birthday_positive_witness :
  (exists n,
     days_until_next_birthday (mkdate 1990 7 15) (mkdate 2025 7 15) = Ok n
     /\ 1 <= n)
  /\ next_birthday_after (mkdate 1990 7 15) (mkdate 2025 7 15)
     = Ok (mkdate 2026 7 15)
  /\ next_birthday_after (mkdate 1990 7 15) (mkdate 2025 7 15)
     <> Ok (mkdate 2025 7 15).
Proof.
  destruct (days_until_next_birthday_positive (mkdate 1990 7 15)
              (mkdate 2025 7 15) eq_refl eq_refl eq_refl eq_refl)
    as [H1 H2].
  split; [ exact H1 | ].
  apply H2. reflexivity.
Defined.

End AgeMath.

(** * Claims: parsing *)

Section ParsingClaims.
Context {U : UnicodeData}.
Import JalaliConverter.




(** C7: [parse_jalali_tuple] normalizes and matches like
    [parse_gregorian] (same answer with or without digit normalization,
    '/' and '.' for '-', the "Use Jalali" [ValueError] exactly when
    [parse_gregorian] raises its own for the format), but on every
    matching string it returns the three numbers as they are, with no
    check of the calendar; a triple that is not a Jalali date is refused
    only by [jtuple_to_gdate], with the [ValueError] of the conversion.
    "1400-13-40" parses to (1400, 13, 40) and fails in the conversion. *)
Theorem parse_jalali_tuple_spec (s : pystr) (b : backend) (jy jm jd_ : Z) :
  parse_jalali_tuple (normalize_digits s) = parse_jalali_tuple s
  /\ parse_jalali_tuple (re.sub_chars [47; 46] 45 s) = parse_jalali_tuple s
  /\ (parse_jalali_tuple s = Raise use_jalali
      <-> re.fullmatch date_pattern (_normalize_sep s) = false)
  /\ (parse_gregorian s = Raise use_gregorian
      <-> parse_jalali_tuple s = Raise use_jalali)
  /\ (re.fullmatch date_pattern (_normalize_sep s) = true ->
      exists y m d,
        date_shaped (_normalize_sep s) y m d
        /\ parse_jalali_tuple s
           = Ok [digits_value y; digits_value m; digits_value d])
  /\ (jalali_valid jy jm jd_ = false ->
      jtuple_to_gdate (installed b) jy jm jd_ = Raise invalid_jalali)
  /\ parse_jalali_tuple s_1400_13_40 = Ok [1400; 13; 40]
  /\ jtuple_to_gdate (installed b) 1400 13 40 = Raise invalid_jalali.
Proof.
  split; [ apply parse_jalali_tuple_normalize_digits | ].
  split; [ apply parse_jalali_tuple_separators | ].
  assert (M : re.fullmatch date_pattern (_normalize_sep s) = true ->
              exists y m d,
                date_shaped (_normalize_sep s) y m d
                /\ parse_jalali_tuple s
                   = Ok [digits_value y; digits_value m; digits_value d]).
  { intros H. apply date_pattern_iff in H. destruct H as (y & m & d & H).
    exists y, m, d. split; [ exact H | ].
    apply parse_jalali_tuple_matched. exact H. }
  assert (J : parse_jalali_tuple s = Raise use_jalali
              <-> re.fullmatch date_pattern (_normalize_sep s) = false).
  { destruct (re.fullmatch date_pattern (_normalize_sep s)) eqn:F.
    - destruct (M eq_refl) as (y & m & d & _ & ->).
      split; discriminate.
    - unfold parse_jalali_tuple. rewrite F. split; reflexivity. }
  split; [ exact J | ].
  split.
  { rewrite J.
    destruct (re.fullmatch date_pattern (_normalize_sep s)) eqn:F.
    - apply date_pattern_iff in F. destruct F as (y & m & d & F).
      rewrite (parse_gregorian_matched s y m d F).
      split; [ | discriminate ].
      destruct (date_new_cases (digits_value y) (digits_value m)
                  (digits_value d)) as [[_ ->] | [_ [-> | [-> | ->]]]];
        discriminate.
    - unfold parse_gregorian. rewrite F. split; reflexivity. }
  split; [ exact M | ].
  split.
  { intros V. rewrite jtuple_to_gdate_installed. unfold jalaliToGregorian.
    rewrite V. reflexivity. }
  split.
  { run_ascii parse_jalali_tuple_ascii [49; 52; 48; 48] [49; 51] [52; 48].
    reflexivity. }
  destruct b; reflexivity.
Qed.

End ParsingClaims.


(** C7 on "1400-13-40", with the database of three scripts. *)
Lemma parse_jalali_tuple_spec_witness :
  (exists y m d,
     date_shaped (U := three_scripts) (_normalize_sep s_1400_13_40) y m d
     /\ parse_jalali_tuple (U := three_scripts) s_1400_13_40
        = Ok [digits_value (U := three_scripts) y;
              digits_value (U := three_scripts) m;
              digits_value (U := three_scripts) d])
  /\ jtuple_to_gdate (JalaliConverter.installed jdatetime_backend) 1400 13 40
     = Raise JalaliConverter.invalid_jalali.
Proof.
  destruct (parse_jalali_tuple_spec (U := three_scripts) s_1400_13_40
              jdatetime_backend 1400 13 40)
    as (_ & _ & _ & _ & H1 & H2 & _).
  split; [ exact (H1 eq_refl) | apply H2; reflexivity ].
Defined.

(** * Claims: the current date *)

Section CurrentDate.

Lemma plausible_year_iff (y : Z) :
  plausible_year y = true <-> 1970 <= y <= 2100.
Proof. unfold plausible_year. rewrite andb_true_iff, !Z.leb_le. tauto. Qed.

(** Whatever the branch, the year of the date returned is plausible: the
    fallback date is itself inside the window, so the test of the flows
    for the fallback never fires. *)
Lemma get_current_date_plausible (w : world) :
  plausible_year (year (get_current_date w)) = true.
Proof.
  unfold get_current_date, _fetch_online_date.
  destruct (date_today w) as [d | e].
  - destruct (plausible_year (year d)) eqn:P; [ exact P | ].
    destruct (online_date w) as [o | ]; [ | reflexivity ].
    destruct (plausible_year (year o)) eqn:Q; [ exact Q | reflexivity ].
  - destruct (online_date w) as [o | ]; [ | reflexivity ].
    destruct (plausible_year (year o)) eqn:Q; [ exact Q | reflexivity ].
Qed.

(** C8: the code breaks the claim.  With a clock that reads 1969-12-31
    and no network [get_current_date] takes the fallback branch and
    returns 2000-01-01, but as a bare [date] whose year is plausible:
    the test of the two age flows for the fallback, [not
    plausible_year(today.year)], does not fire, and since 2000-01-01
    differs from what the clock reads they print ONLINE_INFO where
    FALLBACK_WARN was meant. *)
Theorem get_current_date_fallback_unreported :
  let w := {| date_today := Ok (mkdate 1969 12 31); online_date := None |} in
  get_current_date w = mkdate 2000 1 1
  /\ branch_taken w = fallback
  /\ plausible_year (year (get_current_date w)) = true
  /\ (forall (U : UnicodeData) (G : globals),
        calculate_age_gregorian_flow G w []
        = mkrun [Say ONLINE_INFO; Ask ENTER_BD_G] (Raise EOFError) [])
  /\ (forall (U : UnicodeData) (G : globals) (input : list pystr),
        hd_error (printed (calculate_age_gregorian_flow G w input))
        = Some (Say ONLINE_INFO)
        /\ hd_error (printed (calculate_age_jalali_flow G w input))
           = Some (if JALALI_OK G then Say ONLINE_INFO
                   else Say NEED_JALALI)).
Proof.
  cbv zeta. split; [ reflexivity | ]. split; [ reflexivity | ].
  split; [ reflexivity | ]. split; [ intros U G; reflexivity | ].
  intros U G input. split; [ reflexivity | ].
  unfold calculate_age_jalali_flow.
  destruct (JALALI_OK G); reflexivity.
Qed.

(** The result carries no tag.  A clock that reads 2000-01-01 (local
    branch) and a clock that reads 1969-12-31 with no network (fallback
    branch) give the same result, so nothing computed from the result
    can tell the branch. *)
Lemma get_current_date_counterexample :
  let w1 := {| date_today := Ok (mkdate 2000 1 1); online_date := None |} in
  let w2 := {| date_today := Ok (mkdate 1969 12 31); online_date := None |} in
  get_current_date w1 = get_current_date w2
  /\ branch_taken w1 = local
  /\ branch_taken w2 = fallback
  /\ ~ exists tag : date -> source,
         forall w, tag (get_current_date w) = branch_taken w.
Proof.
  cbv zeta. repeat split.
  intros (tag & H).
  pose proof (H {| date_today := Ok (mkdate 2000 1 1);
                   online_date := None |}) as H1.
  pose proof (H {| date_today := Ok (mkdate 1969 12 31);
                   online_date := None |}) as H2.
  cbn in H1, H2. congruence.
Qed.

(** What does hold of the order of the sources: [get_current_date]
    returns the date of the first that succeeds: the local date if the
    clock can be read and its year is in [1970, 2100]; otherwise the
    online date if there is one and its year is in the window;
    otherwise 2000-01-01.  With a clock reporting 1969 and a failing
    network it returns 2000-01-01. *)
Lemma get_current_date_spec (w : world) :
  (forall d, date_today w = Ok d -> 1970 <= year d <= 2100 ->
             get_current_date w = d /\ branch_taken w = local)
  /\ (forall o,
        (forall d, date_today w = Ok d -> ~ 1970 <= year d <= 2100) ->
        online_date w = Some o -> 1970 <= year o <= 2100 ->
        get_current_date w = o /\ branch_taken w = online)
  /\ ((forall d, date_today w = Ok d -> ~ 1970 <= year d <= 2100) ->
      (forall o, online_date w = Some o -> ~ 1970 <= year o <= 2100) ->
      get_current_date w = mkdate 2000 1 1 /\ branch_taken w = fallback)
  /\ (forall d, date_today w = Ok d -> year d = 1969 ->
                online_date w = None ->
                get_current_date w = mkdate 2000 1 1).
Proof.
  unfold get_current_date, branch_taken, _fetch_online_date.
  destruct (date_today w) as [d0 | e];
    [ destruct (plausible_year (year d0)) eqn:P0 | ];
    (destruct (online_date w) as [o0 | ];
     [ destruct (plausible_year (year o0)) eqn:Q0 | ]);
    rewrite <- ?not_true_iff_false, ?plausible_year_iff in *;
    (split; [ intros d [= <-] R; try tauto; split; reflexivity | ]);
    (split; [ intros o L [= <-] R; try tauto;
              try (pose proof (L d0 eq_refl); tauto);
              split; reflexivity | ]);
    (split; [ intros L R;
              try (pose proof (L d0 eq_refl); tauto);
              try (pose proof (R o0 eq_refl); tauto);
              split; reflexivity | ]);
    intros d [= <-] Y; try lia; intros [= ]; reflexivity.
Qed.

(** The order of the sources with a clock reading 1969-12-31 and no
    network. *)
Lemma get_current_date_spec_witness :
  get_current_date
    {| date_today := Ok (mkdate 1969 12 31); online_date := None |}
  = mkdate 2000 1 1.
Proof.
  destruct (get_current_date_spec
              {| date_today := Ok (mkdate 1969 12 31); online_date := None |})
    as (_ & _ & _ & H).
  apply (H (mkdate 1969 12 31)); reflexivity.
Defined.

End CurrentDate.

(** * Claims: the optional backend *)

Section Capability.
Context {U : UnicodeData}.

(** C9: when no backend was found ([JALALI_OK] is false): the two
    wrappers, and the pass-through [jtuple_to_gregorian_safe], raise the
    [RuntimeError] "Jalali backend not available", which is no
    [ValueError]; each of the three Jalali flows prints NEED_JALALI and
    returns at once, before any prompt; and the places that convert
    behind a test of [JALALI_OK] do not reach the backend: the age card
    is printed without Jalali lines and the Gregorian age flow runs the
    same whatever the globals hold. *)
Theorem no_backend_fails_fast (G : globals) (w : world)
    (input : list pystr) (g born today : date) (ymd : Z * Z * Z)
    (jy jm jd_ d2n : Z) :
  JALALI_OK G = false ->
  gdate_to_jtuple G g = Raise no_backend
  /\ jtuple_to_gdate G jy jm jd_ = Raise no_backend
  /\ jtuple_to_gregorian_safe G jy jm jd_ = Raise no_backend
  /\ (forall msg, no_backend <> ValueError msg)
  /\ calculate_age_jalali_flow G w input
     = mkrun [Say NEED_JALALI] (Ok tt) input
  /\ convert_jalali_to_gregorian_flow G input
     = mkrun [Say NEED_JALALI] (Ok tt) input
  /\ convert_gregorian_to_jalali_flow G input
     = mkrun [Say NEED_JALALI] (Ok tt) input
  /\ show_age_card G born today ymd d2n
     = (print (Title AGE_CARD) ;;
        print (Line BIRTH_G (ShowDate born)) ;;
        print (Line TODAY_G (ShowDate today)) ;;
        print (Line AGE (ShowAge ymd)) ;;
        nb <- lift (next_birthday_after born today) ;;
        print (Line NEXT_BD (ShowDate nb)) ;;
        print (Line IN_ (ShowDays d2n)) ;;
        print BoxBottom)%io
  /\ (forall G', JALALI_OK G' = false ->
                 calculate_age_gregorian_flow G w input
                 = calculate_age_gregorian_flow G' w input).
Proof.
  intros H.
  unfold gdate_to_jtuple, jtuple_to_gregorian_safe, jtuple_to_gdate,
    calculate_age_jalali_flow, convert_jalali_to_gregorian_flow,
    convert_gregorian_to_jalali_flow.
  rewrite H. cbn [negb].
  repeat (split; [ reflexivity | ]).
  split; [ discriminate | ].
  repeat (split; [ reflexivity | ]).
  split; [ apply show_age_card_no_backend; exact H | ].
  intros G' H'. unfold calculate_age_gregorian_flow.
  destruct (today_note w (get_current_date w)) as [o [[] | e]];
    [ | reflexivity ].
  f_equal. apply age_loop_ext. intros raw. unfold age_gregorian_try.
  destruct (parse_gregorian raw) as [b | e]; [ | reflexivity ].
  cbn [lift io_bind].
  destruct (age_ymd b (get_current_date w)) as [a | e]; [ | reflexivity ].
  destruct (days_until_next_birthday b (get_current_date w)) as [n | e];
    [ | reflexivity ].
  rewrite !show_age_card_no_backend by assumption. reflexivity.
Qed.

(** With neither package installed, the imports leave [JALALI_OK]
    false. *)
Lemma import_nothing :
  JALALI_OK (import_backends
               {| pkg_convertdate := None; pkg_jdatetime := None |}) = false.
Proof. reflexivity. Qed.

End Capability.

(** C9 for a process that found neither package. *)
Lemma no_backend_fails_fast_witness :
  let G := import_backends
             {| pkg_convertdate := None; pkg_jdatetime := None |} in
  gdate_to_jtuple G (mkdate 2025 10 18) = Raise no_backend
  /\ jtuple_to_gdate G 1404 7 26 = Raise no_backend
  /\ calculate_age_jalali_flow (U := three_scripts) G
       {| date_today := Ok (mkdate 2025 10 18); online_date := None |}
       [s_1370_04_24]
     = mkrun [Say NEED_JALALI] (Ok tt) [s_1370_04_24].
Proof.
  cbv zeta.
  destruct (no_backend_fails_fast (U := three_scripts)
              (import_backends
                 {| pkg_convertdate := None; pkg_jdatetime := None |})
              {| date_today := Ok (mkdate 2025 10 18); online_date := None |}
              [s_1370_04_24] (mkdate 2025 10 18) (mkdate 1990 7 15)
              (mkdate 2025 10 18) (35, 3, 3) 1404 7 26 270 eq_refl)
    as (H1 & H2 & _ & _ & H5 & _).
  split; [ exact H1 | ]. split; [ exact H2 | exact H5 ].
Defined.

(** * Sample runs *)

(** The Gregorian age flow without a backend, on 2025-10-18: the user
    types "۱۳۷۰-۰۴-۲۴", answers "y", types "2023.02.30", and the input
    ends. *)
Example calculate_age_gregorian_flow_run :
  calculate_age_gregorian_flow (U := three_scripts)
    (import_backends {| pkg_convertdate := None; pkg_jdatetime := None |})
    {| date_today := Ok (mkdate 2025 10 18); online_date := None |}
    [s_1370_04_24_fa; word_y; s_2023_02_30]
  = mkrun
      [Ask ENTER_BD_G; Blank; Title AGE_CARD;
       Line BIRTH_G (ShowDate (mkdate 1370 4 24));
       Line TODAY_G (ShowDate (mkdate 2025 10 18));
       Line AGE (ShowAge (655, 5, 24));
       Line NEXT_BD (ShowDate (mkdate 2026 4 24));
       Line IN_ (ShowDays 188); BoxBottom; Blank;
       Ask TRY_ANOTHER; Ask ENTER_BD_G; SayErr day_error; Ask ENTER_BD_G]
      (Raise EOFError) [].
Proof. vm_compute. reflexivity. Qed.

(** The Jalali age flow with [jdatetime], a clock reading 1969 and no
    network: today is the fallback 2000-01-01, whose year is plausible,
    so the note printed is ONLINE_INFO. *)
Example calculate_age_jalali_flow_run :
  calculate_age_jalali_flow (U := three_scripts)
    (JalaliConverter.installed jdatetime_backend)
    {| date_today := Ok (mkdate 1969 10 18); online_date := None |}
    [s_1370_04_24_fa; s_1400_13_40]
  = mkrun
      [Say ONLINE_INFO; Ask ENTER_BD_J; Blank; Title AGE_CARD;
       Line BIRTH_G (ShowDate (mkdate 1991 7 15));
       Line TODAY_G (ShowDate (mkdate 2000 1 1));
       Line BIRTH_J (ShowJalali (1370, 4, 24));
       Line TODAY_J (ShowJalali (1378, 10, 11));
       Line AGE (ShowAge (8, 5, 17));
       Line NEXT_BD_G (ShowDate (mkdate 2000 7 15));
       Line NEXT_BD_J (ShowJalali (1379, 4, 25));
       Line IN_ (ShowDays 196); BoxBottom; Blank; Ask TRY_ANOTHER]
      (Ok tt) [].
Proof. vm_compute. reflexivity. Qed.

(** The conversion flow with [convertdate]: a date, a triple that is no
    Jalali date, then "back". *)
Example convert_jalali_to_gregorian_flow_run :
  convert_jalali_to_gregorian_flow (U := three_scripts)
    (JalaliConverter.installed convertdate)
    [s_1370_04_24_fa; s_1400_13_40; word_back]
  = mkrun
      [Ask J_DATE; Blank; Title CONV_J2G;
       Line LABEL_GREGORIAN (ShowDate (mkdate 1991 7 15));
       Line LABEL_JALALI (ShowJalali (1370, 4, 24)); BoxBottom; Blank;
       Ask J_DATE; SayErr JalaliConverter.invalid_jalali; Ask J_DATE]
      (Ok tt) [].
Proof. vm_compute. reflexivity. Qed.

(** * Further properties of the program *)

(** ** The parsers *)

Section ParserProperties.
Context {U : UnicodeData}.

(** X1: The two parsers accept the same strings up to the calendar check:
    a date returned by [parse_gregorian] is a real date and
    [parse_jalali_tuple] returns its three fields; whatever
    [parse_jalali_tuple] returns has three numbers, on which
    [parse_gregorian] answers what the constructor of [date] answers. *)
Theorem parsers_agree (s : pystr) :
  (forall g, parse_gregorian s = Ok g ->
             date_ok g = true
             /\ parse_jalali_tuple s = Ok [year g; month g; day g])
  /\ (forall t, parse_jalali_tuple s = Ok t ->
                exists y m d,
                  t = [y; m; d] /\ parse_gregorian s = date_new y m d).
Proof.
  destruct (re.fullmatch date_pattern (_normalize_sep s)) eqn:F.
  - apply date_pattern_iff in F. destruct F as (y & m & d & F).
    rewrite (parse_gregorian_matched s y m d F),
      (parse_jalali_tuple_matched s y m d F).
    split.
    + intros g E. apply date_new_inv in E. destruct E as [-> Hok].
      split; [ exact Hok | reflexivity ].
    + intros t [= <-]. eauto.
  - unfold parse_gregorian, parse_jalali_tuple. rewrite F. cbn [negb].
    split; [ intros g | intros t ]; discriminate.
Qed.

Lemma lstrip_spaces (ws s : pystr) :
  forallb isspace ws = true -> lstrip (ws ++ s) = lstrip s.
Proof.
  induction ws as [ | c ws IH ]; cbn; [ reflexivity | ].
  intros H. apply andb_true_iff in H. destruct H as [-> H]. auto.
Qed.

Lemma lstrip_app_spaces (s ws : pystr) :
  forallb isspace ws = true ->
  lstrip (s ++ ws) = match lstrip s with [] => [] | _ => lstrip s ++ ws end.
Proof.
  intros H. induction s as [ | c s IH ]; cbn.
  - rewrite <- (app_nil_r ws) at 1. rewrite lstrip_spaces by assumption.
    reflexivity.
  - destruct (isspace c); [ exact IH | reflexivity ].
Qed.

Lemma rstrip_app_spaces (s ws : pystr) :
  forallb isspace ws = true -> rstrip (s ++ ws) = rstrip s.
Proof.
  intros H. unfold rstrip. rewrite rev_app_distr.
  rewrite lstrip_spaces; [ reflexivity | ].
  rewrite forallb_forall in *. intros c Hc. apply H.
  apply in_rev. exact Hc.
Qed.

Lemma strip_spaces (ws1 s ws2 : pystr) :
  forallb isspace ws1 = true -> forallb isspace ws2 = true ->
  strip (ws1 ++ s ++ ws2) = strip s.
Proof.
  intros H1 H2. unfold strip.
  rewrite lstrip_spaces by assumption.
  rewrite lstrip_app_spaces by assumption.
  destruct (lstrip s) as [ | c r ]; [ reflexivity | ].
  apply rstrip_app_spaces. exact H2.
Qed.

(** X2: White space around the date does not matter to either parser. *)
Theorem parsers_ignore_outer_space (ws1 s ws2 : pystr) :
  forallb isspace ws1 = true -> forallb isspace ws2 = true ->
  parse_gregorian (ws1 ++ s ++ ws2) = parse_gregorian s
  /\ parse_jalali_tuple (ws1 ++ s ++ ws2) = parse_jalali_tuple s.
Proof.
  intros H1 H2. unfold parse_gregorian, parse_jalali_tuple, _normalize_sep.
  rewrite strip_spaces by assumption. split; reflexivity.
Qed.

Lemma int_digits_bound (s : pystr) (acc n : Z) :
  (forall c v, decimal c = Some v -> 0 <= v <= 9) ->
  0 <= acc -> int_digits acc s = Some n ->
  acc * 10 ^ Z.of_nat (List.length s) <= n
  < (acc + 1) * 10 ^ Z.of_nat (List.length s).
Proof.
  intros R. revert acc.
  induction s as [ | c s IH ]; intros acc Hacc; cbn [int_digits List.length].
  - intros [= <-]. cbn. lia.
  - destruct (decimal c) as [v | ] eqn:D; [ | discriminate ].
    apply R in D. intros E. apply IH in E; [ | lia ].
    rewrite Nat2Z.inj_succ, Z.pow_succ_r by lia.
    assert (0 < 10 ^ Z.of_nat (List.length s)) by (apply Z.pow_pos_nonneg; lia).
    nia.
Qed.

Lemma digits_value_bound (s : pystr) :
  (forall c v, decimal c = Some v -> 0 <= v <= 9) ->
  isdecimal s = true ->
  0 <= digits_value s < 10 ^ Z.of_nat (List.length s).
Proof.
  intros R D. unfold digits_value.
  destruct (int_digits_decimal s 0 D) as [n E]. rewrite E.
  pose proof (int_digits_bound s 0 n R ltac:(lia) E). lia.
Qed.

(** X3: [parse_jalali_tuple] checks no calendar, but what it returns is
    bounded by the pattern: three numbers, the year in 0..9999, the
    month and the day in 0..99 (decimal digits have values 0..9). *)
Theorem parse_jalali_tuple_bounds (s : pystr) (t : list Z) :
  (forall c v, decimal c = Some v -> 0 <= v <= 9) ->
  parse_jalali_tuple s = Ok t ->
  exists y m d,
    t = [y; m; d] /\ 0 <= y <= 9999 /\ 0 <= m <= 99 /\ 0 <= d <= 99.
Proof.
  intros R E.
  destruct (re.fullmatch date_pattern (_normalize_sep s)) eqn:F.
  - apply date_pattern_iff in F. destruct F as (y & m & d & F).
    rewrite (parse_jalali_tuple_matched s y m d F) in E.
    injection E as <-.
    destruct F as (_ & Dy & Ly & Dm & Lm & Dd & Ld).
    pose proof (digits_value_bound y R Dy) as By.
    pose proof (digits_value_bound m R Dm) as Bm.
    pose proof (digits_value_bound d R Dd) as Bd.
    rewrite Ly in By.
    exists (digits_value y), (digits_value m), (digits_value d).
    split; [ reflexivity | ].
    split; [ change (10 ^ Z.of_nat 4) with 10000 in By; lia | ].
    split.
    + destruct Lm as [Lm | Lm]; rewrite Lm in Bm;
        [ change (10 ^ Z.of_nat 1) with 10 in Bm
        | change (10 ^ Z.of_nat 2) with 100 in Bm ]; lia.
    + destruct Ld as [Ld | Ld]; rewrite Ld in Bd;
        [ change (10 ^ Z.of_nat 1) with 10 in Bd
        | change (10 ^ Z.of_nat 2) with 100 in Bd ]; lia.
  - unfold parse_jalali_tuple in E. rewrite F in E. discriminate.
Qed.

End ParserProperties.

(** X1, example: [parsers_agree] on "1370-04-24". *)
Lemma parsers_agree_witness :
  date_ok (mkdate 1370 4 24) = true
  /\ parse_jalali_tuple (U := three_scripts) s_1370_04_24
     = Ok [1370; 4; 24].
Proof.
  destruct (parsers_agree (U := three_scripts) s_1370_04_24) as [H _].
  apply (H (mkdate 1370 4 24)). reflexivity.
Defined.

(** X3, example: [parse_jalali_tuple_bounds] on "1400-13-40". *)
Lemma parse_jalali_tuple_bounds_witness :
  exists y m d,
    [1400; 13; 40] = [y; m; d]
    /\ 0 <= y <= 9999 /\ 0 <= m <= 99 /\ 0 <= d <= 99.
Proof.
  apply (parse_jalali_tuple_bounds (U := three_scripts) s_1400_13_40).
  - intros c v. cbn. unfold three_scripts_decimal.
    destruct ((48 <=? c) && (c <=? 57)) eqn:A.
    { intros [= <-]. lia. }
    destruct ((1632 <=? c) && (c <=? 1641)) eqn:B.
    { intros [= <-]. lia. }
    destruct ((1776 <=? c) && (c <=? 1785)) eqn:C.
    { intros [= <-]. lia. }
    discriminate.
  - reflexivity.
Defined.

(** ** Digit normalization *)

(** X4: [normalize_digits] keeps the length of the string, leaves no Persian
    or Arabic-Indic digit behind, changes nothing else, and applying it
    twice is applying it once. *)
Theorem normalize_digits_properties (s : pystr) :
  List.length (normalize_digits s) = List.length s
  /\ Forall (fun c => ~ foreign_digit c) (normalize_digits s)
  /\ (Forall (fun c => ~ foreign_digit c) s -> normalize_digits s = s)
  /\ normalize_digits (normalize_digits s) = normalize_digits s.
Proof.
  rewrite !normalize_digits_map.
  assert (A : Forall (fun c => ~ foreign_digit c) (map p2l s)).
  { apply Forall_forall. intros c Hc. apply in_map_iff in Hc.
    destruct Hc as (c0 & <- & _). unfold foreign_digit.
    destruct (p2l_cases c0) as [(R & ->) | [(R & ->) | (N1 & N2 & ->)]];
      lia. }
  assert (B : forall l, Forall (fun c => ~ foreign_digit c) l ->
                        map p2l l = l).
  { intros l H. induction H as [ | c l Hc Hl IH ]; cbn; [ reflexivity | ].
    rewrite IH. f_equal. unfold foreign_digit in Hc.
    destruct (p2l_cases c) as [(R & _) | [(R & _) | (_ & _ & E)]];
      [ lia | lia | exact E ]. }
  split; [ apply length_map | ].
  split; [ exact A | ].
  split; [ apply B | apply B; exact A ].
Qed.

(** X4, example: An ASCII string is left alone. *)
Lemma normalize_digits_properties_witness :
  normalize_digits s_1370_04_24 = s_1370_04_24.
Proof.
  destruct (normalize_digits_properties s_1370_04_24) as (_ & _ & H & _).
  apply H. unfold foreign_digit, s_1370_04_24.
  repeat constructor; lia.
Defined.

(** X2, example: " 1370-04-24\n" between a space and a newline. *)
Lemma parsers_ignore_outer_space_witness :
  parse_gregorian (U := three_scripts) ([32] ++ s_1370_04_24 ++ [10])
  = parse_gregorian (U := three_scripts) s_1370_04_24
  /\ parse_jalali_tuple (U := three_scripts) ([32] ++ s_1370_04_24 ++ [10])
     = parse_jalali_tuple (U := three_scripts) s_1370_04_24.
Proof.
  apply (parsers_ignore_outer_space (U := three_scripts)); reflexivity.
Defined.

(** ** Age math *)

Section AgeProperties.

(** What [age_ymd] returns for born <= today, field by field. *)
Lemma age_ymd_fields (born today : date) :
  date_ok born = true -> date_ok today = true ->
  date_le born today = true ->
  exists y m d,
    age_ymd born today = Ok (y, m, d)
    /\ 0 <= y <= year today - year born /\ 0 <= m <= 11 /\ d <= 30
    /\ (day born <= day today -> d = day today - day born)
    /\ (day today < day born -> day today - day born + 28 <= d).
Proof.
  intros Hb Ht Hle.
  rewrite age_ymd_not_future
    by (assumption || (rewrite date_gt_not_le, Hle; reflexivity)).
  cbv zeta.
  pose proof (borrowed_month_ok today Ht) as Hp.
  destruct (if month today =? 1 then (12, year today - 1)
            else (month today - 1, year today)) as [pm py].
  cbn [fst] in Hp.
  pose proof (days_in_month_bounds py pm Hp) as Hdim.
  apply date_ok_iff in Hb. apply date_ok_iff in Ht.
  pose proof (days_in_month_bounds (year born) (month born) ltac:(lia)).
  pose proof (days_in_month_bounds (year today) (month today) ltac:(lia)).
  apply date_le_iff in Hle. rewrite date_lt_iff in Hle.
  assert (Hord : year born < year today
                 \/ (year born = year today
                     /\ (month born < month today
                         \/ (month born = month today
                             /\ day born <= day today)))).
  { destruct Hle as [Hle | ->]; lia. }
  clear Hle.
  destruct (Z.ltb_spec (day today - day born) 0) as [Hd | Hd].
  - destruct (Z.ltb_spec (month today - month born - 1) 0);
      eexists _, _, _; (split; [ reflexivity | lia ]).
  - destruct (Z.ltb_spec (month today - month born) 0);
      eexists _, _, _; (split; [ reflexivity | lia ]).
Qed.

(** X5: For born <= today [age_ymd] returns years between 0 and the
    difference of the calendar years, months in 0..11 and days in
    -2..30: at worst 1 - 31 plus the 28 days of a February. *)
Theorem age_ymd_ranges (born today : date) :
  date_ok born = true -> date_ok today = true ->
  date_le born today = true ->
  exists y m d,
    age_ymd born today = Ok (y, m, d)
    /\ 0 <= y <= year today - year born /\ 0 <= m <= 11 /\ -2 <= d <= 30.
Proof.
  intros Hb Ht Hle.
  destruct (age_ymd_fields born today Hb Ht Hle)
    as (y & m & d & E & By & Bm & Bd & D1 & D2).
  exists y, m, d. split; [ exact E | ].
  apply date_ok_iff in Hb. apply date_ok_iff in Ht.
  pose proof (days_in_month_bounds (year born) (month born) ltac:(lia)).
  lia.
Qed.

(** X5, example: At born 2000-01-31 and today 2001-03-01 the lower bound
    of the days is reached. *)
Lemma age_ymd_ranges_witness :
  exists y m d,
    age_ymd (mkdate 2000 1 31) (mkdate 2001 3 1) = Ok (y, m, d)
    /\ 0 <= y <= 2001 - 2000 /\ 0 <= m <= 11 /\ -2 <= d <= 30.
Proof.
  apply (age_ymd_ranges (mkdate 2000 1 31) (mkdate 2001 3 1)); reflexivity.
Defined.

(** X6: For a birthdate on one of the days 1..28 of its month the days of
    the age are never negative: every month borrowed from has at least
    28 days. *)
Theorem age_ymd_days_nonneg (born today : date) :
  date_ok born = true -> date_ok today = true ->
  date_le born today = true -> day born <= 28 ->
  exists y m d,
    age_ymd born today = Ok (y, m, d)
    /\ 0 <= y /\ 0 <= m <= 11 /\ 0 <= d <= 30.
Proof.
  intros Hb Ht Hle H28.
  destruct (age_ymd_fields born today Hb Ht Hle)
    as (y & m & d & E & By & Bm & Bd & D1 & D2).
  exists y, m, d. split; [ exact E | ].
  apply date_ok_iff in Ht. lia.
Qed.

(** X6, example: [age_ymd_days_nonneg] at a concrete input. *)
Lemma age_ymd_days_nonneg_witness :
  exists y m d,
    age_ymd (mkdate 2000 1 28) (mkdate 2001 3 1) = Ok (y, m, d)
    /\ 0 <= y /\ 0 <= m <= 11 /\ 0 <= d <= 30.
Proof.
  apply (age_ymd_days_nonneg (mkdate 2000 1 28) (mkdate 2001 3 1));
    first [ reflexivity | cbn; lia ].
Defined.

(** X7: On an anniversary (same month and day as the birthdate, born <=
    today) the age is a whole number of years; in particular the age on
    the day of birth is (0, 0, 0). *)
Theorem age_ymd_anniversary (born today : date) :
  date_ok today = true -> year born <= year today ->
  month born = month today -> day born = day today ->
  age_ymd born today = Ok (year today - year born, 0, 0).
Proof.
  intros Ht Hy Hm Hd.
  assert (G : date_gt born today = false).
  { unfold date_gt, _cmp. rewrite Hm, Hd, !Z.compare_refl.
    destruct (Z.compare_spec (year born) (year today)); try reflexivity.
    lia. }
  rewrite age_ymd_not_future by assumption. cbv zeta.
  rewrite Hm, Hd, !Z.sub_diag.
  destruct (if month today =? 1 then (12, year today - 1)
            else (month today - 1, year today)) as [pm py].
  reflexivity.
Qed.

(** X7, example: [age_ymd_anniversary] at a concrete input. *)
Lemma age_ymd_anniversary_witness :
  age_ymd (mkdate 1990 7 15) (mkdate 2025 7 15) = Ok (2025 - 1990, 0, 0).
Proof.
  apply (age_ymd_anniversary (mkdate 1990 7 15) (mkdate 2025 7 15));
    first [ reflexivity | cbn; lia ].
Defined.

Lemma ordinal_in_year (x : date) :
  date_ok x = true ->
  _days_before_year (year x) + 1 <= toordinal x
  <= _days_before_year (year x + 1).
Proof.
  intros H. apply date_ok_iff in H. destruct H as (_ & Hm & Hd).
  unfold toordinal, _ymd2ord. rewrite days_before_year_succ.
  pose proof (days_before_month_nonneg (year x) (month x) Hm).
  pose proof (days_before_month_last (year x)).
  assert (_days_before_month (year x) (month x)
          + _days_in_month (year x) (month x)
          <= _days_before_month (year x) 12 + _days_in_month (year x) 12).
  { destruct (Z.eq_dec (month x) 12) as [-> | Hne]; [ lia | ].
    pose proof (days_before_month_mono (year x) (month x) 12
                  ltac:(lia) ltac:(lia) ltac:(lia)).
    pose proof (days_in_month_bounds (year x) 12 ltac:(lia)). lia. }
  lia.
Qed.

Lemma toordinal_le (a b : date) :
  date_ok a = true -> date_ok b = true ->
  date_le a b = true -> toordinal a <= toordinal b.
Proof.
  intros Ha Hb H. apply date_le_iff in H. destruct H as [H | ->]; [ | lia ].
  pose proof (toordinal_lt a b Ha Hb H). lia.
Qed.

(** From one observance of a birthday to the next there are 365 or 366
    days. *)
Lemma observance_gap (born : date) (y : Z) :
  1 <= month born <= 12 -> 1 <= day born ->
  365 <= toordinal (observance born (y + 1)) - toordinal (observance born y)
  <= 366.
Proof.
  destruct born as [b_year b_month b_day]. cbn [year month day].
  intros Hm Hd. unfold observance, toordinal, _ymd2ord.
  cbn [year month day]. rewrite days_before_year_succ.
  generalize (_days_before_year y). intros base.
  unfold _days_before_month, _days_in_month.
  each_month Hm; destruct (_is_leap y), (_is_leap (y + 1));
    repeat match goal with
           | |- context [nth ?n ?l ?d] =>
               let v := eval vm_compute in (nth n l d) in
               change (nth n l d) with v
           | |- context [if ?b then _ else _] =>
               let v := eval vm_compute in b in
               change b with v; cbv iota
           end;
    lia.
Qed.

(** X8: Whenever there is a next birthday in [date], it is between 1 and
    366 days away, and exactly 365 or 366 days away on the day of the
    observance itself. *)
Theorem days_until_next_birthday_range (born today : date) :
  date_ok born = true -> date_ok today = true ->
  has_next_birthday born today = true ->
  exists n,
    days_until_next_birthday born today = Ok n
    /\ 1 <= n <= 366
    /\ (observance born (year today) = today -> 365 <= n).
Proof.
  intros Hb Ht Hn.
  pose proof (next_birthday_after_eq born today Hb Ht Hn) as E.
  destruct (next_birthday_after_later born today _ Hb Ht E) as [Hok Hlt].
  pose proof (toordinal_lt _ _ Ht Hok Hlt) as Hpos.
  unfold days_until_next_birthday. rewrite E. cbn [bind date_sub days].
  eexists. split; [ reflexivity | ].
  pose proof Hb as Hb'. apply date_ok_iff in Hb'.
  pose proof Ht as Ht'. apply date_ok_iff in Ht'.
  pose proof (observance_gap born (year today) ltac:(lia) ltac:(lia)) as G.
  assert (Oy : date_ok (observance born (year today)) = true)
    by (apply observance_ok; [ assumption | lia ]).
  destruct (date_le (observance born (year today)) today) eqn:L.
  - pose proof (toordinal_le _ _ Oy Ht L).
    split; [ lia | ]. intros O. rewrite O in G. lia.
  - pose proof (ordinal_in_year _ Oy) as B1.
    pose proof (ordinal_in_year _ Ht) as B2.
    change (year (observance born (year today))) with (year today) in B1.
    rewrite days_before_year_succ in B1.
    split; [ destruct (_is_leap (year today)); lia | ].
    intros O. rewrite O in L.
    replace (date_le today today) with true in L
      by (symmetry; apply date_le_iff; right; reflexivity).
    discriminate.
Qed.

(** X8, example: [days_until_next_birthday_range] at a concrete input. *)
Lemma days_until_next_birthday_range_witness :
  exists n,
    days_until_next_birthday (mkdate 2000 2 29) (mkdate 2024 2 29) = Ok n
    /\ 1 <= n <= 366
    /\ (observance (mkdate 2000 2 29) 2024 = mkdate 2024 2 29 -> 365 <= n).
Proof.
  apply (days_until_next_birthday_range (mkdate 2000 2 29)
           (mkdate 2024 2 29)); reflexivity.
Defined.



End AgeProperties.

(** ** The flows *)

Section FlowProperties.
Context {U : UnicodeData}.

Lemma io_all_bind {A B : Type} (P : output -> bool) (c : io A)
    (k : A -> io B) :
  io_all P c -> (forall a, io_all P (k a)) -> io_all P (io_bind c k).
Proof.
  unfold io_all. destruct c as [o1 [a | e]]; cbn; intros H1 H2.
  - specialize (H2 a). destruct (k a) as [o2 r]. cbn in *.
    rewrite forallb_app, H1, H2. reflexivity.
  - exact H1.
Qed.

Lemma io_all_print (P : output -> bool) (o : output) :
  P o = true -> io_all P (print o).
Proof. unfold io_all. cbn. intros ->. reflexivity. Qed.

Lemma io_all_lift {A : Type} (P : output -> bool) (r : result A) :
  io_all P (lift r).
Proof. reflexivity. Qed.

Ltac io_all :=
  repeat first
    [ apply io_all_lift
    | apply io_all_print; reflexivity
    | apply io_all_bind; [ | intros ? ]
    | match goal with
      | |- io_all _ (if ?b then _ else _) => destruct b
      | |- io_all _ (let '(_, _) := ?x in _) => destruct x
      end ].

Lemma forallb_after (P : output -> bool) (o : list output) (r : run) :
  forallb P (printed (after o r)) = forallb P o && forallb P (printed r).
Proof. unfold after. cbn [printed]. apply forallb_app. Qed.

Lemma forallb_cons_app (P : output -> bool) (a : output)
    (o tail : list output) :
  P a = true -> forallb P o = true -> forallb P tail = true ->
  forallb P (a :: o ++ tail) = true.
Proof.
  intros Ha Ho Ht. cbn [forallb]. rewrite Ha, forallb_app, Ho, Ht.
  reflexivity.
Qed.

(** What one run of the loop of the age flows amounts to, whatever the
    body of the [try]: everything printed is a prompt, a reported error
    or comes from the body; it ends by returning or by the end of the
    input, and then nothing is left unread; what is left unread is the
    end of the input. *)
Lemma age_loop_run (P : output -> bool) (ask : key)
    (try_ : pystr -> io unit) (input : list pystr) :
  P (Ask ask) = true -> P (Ask TRY_ANOTHER) = true ->
  (forall e, P (SayErr e) = true) ->
  (forall raw, io_all P (try_ raw)) ->
  let r := age_loop ask try_ input in
  forallb P (printed r) = true
  /\ (outcome r = Ok tt \/ (outcome r = Raise EOFError /\ unread r = []))
  /\ exists used, input = used ++ unread r.
Proof.
  intros Pa Pt Pe Pb. cbv zeta.
  remember (List.length input) as n eqn:Hn. revert input Hn.
  induction n as [n IH] using lt_wf_ind. intros input Hn.
  destruct input as [ | line rest ].
  { cbn [age_loop printed outcome unread forallb]. rewrite Pa.
    split; [ reflexivity | ].
    split; [ right; auto | exists []; reflexivity ]. }
  cbn [age_loop].
  destruct (str_in _ _).
  { cbn [printed outcome unread forallb]. rewrite Pa.
    split; [ reflexivity | ].
    split; [ left; reflexivity | exists [line]; reflexivity ]. }
  pose proof (Pb (normalize_digits (strip line))) as Hb. unfold io_all in Hb.
  destruct (try_ (normalize_digits (strip line))) as [o [[] | e]];
    cbn [fst] in Hb.
  - destruct rest as [ | answer rest' ].
    + rewrite forallb_after. cbn [age_loop after printed outcome unread].
      rewrite forallb_cons_app by (cbn [forallb]; rewrite ?Pt, ?Pe; auto).
      cbn [forallb]. rewrite Pa.
      split; [ reflexivity | ].
      split; [ right; auto | exists [line]; reflexivity ].
    + destruct (negb _).
      * cbn [printed outcome unread].
        rewrite forallb_cons_app by (cbn [forallb]; rewrite ?Pt; auto).
        split; [ reflexivity | ].
        split; [ left; reflexivity | exists [line; answer]; reflexivity ].
      * destruct (IH (List.length rest') ltac:(subst n; cbn; lia) rest'
                    eq_refl) as (H1 & H2 & used & H3).
        rewrite forallb_after, H1. unfold after at 1 2 3.
        cbn [outcome unread].
        rewrite forallb_cons_app by (cbn [forallb]; rewrite ?Pt; auto).
        split; [ reflexivity | ]. split; [ exact H2 | ].
        exists (line :: answer :: used). cbn -[age_loop]. congruence.
  - destruct (IH (List.length rest) ltac:(subst n; cbn; lia) rest eq_refl)
      as (H1 & H2 & used & H3).
    rewrite forallb_after, H1. unfold after at 1 2 3. cbn [outcome unread].
    rewrite forallb_cons_app by (cbn [forallb]; rewrite ?Pe; auto).
    split; [ reflexivity | ]. split; [ exact H2 | ].
    exists (line :: used). cbn -[age_loop]. congruence.
Qed.

Lemma convert_loop_run (P : output -> bool) (ask : key)
    (try_ : pystr -> io unit) (input : list pystr) :
  P (Ask ask) = true -> (forall e, P (SayErr e) = true) ->
  (forall raw, io_all P (try_ raw)) ->
  let r := convert_loop ask try_ input in
  forallb P (printed r) = true
  /\ (outcome r = Ok tt \/ (outcome r = Raise EOFError /\ unread r = []))
  /\ exists used, input = used ++ unread r.
Proof.
  intros Pa Pe Pb. cbv zeta.
  induction input as [ | line rest IH ].
  { cbn [convert_loop printed outcome unread forallb]. rewrite Pa.
    split; [ reflexivity | ].
    split; [ right; auto | exists []; reflexivity ]. }
  cbn [convert_loop].
  destruct (str_in _ _).
  { cbn [printed outcome unread forallb]. rewrite Pa.
    split; [ reflexivity | ].
    split; [ left; reflexivity | exists [line]; reflexivity ]. }
  pose proof (Pb (normalize_digits (strip line))) as Hb. unfold io_all in Hb.
  destruct IH as (H1 & H2 & used & H3).
  destruct (try_ (normalize_digits (strip line))) as [o [[] | e]];
    cbn [fst] in Hb; rewrite forallb_after, H1; unfold after at 1 2 3;
    cbn [outcome unread].
  - cbn [forallb]. rewrite Pa, Hb.
    split; [ reflexivity | ]. split; [ exact H2 | ].
    exists (line :: used). cbn -[convert_loop]. congruence.
  - rewrite forallb_cons_app by (cbn [forallb]; rewrite ?Pe; auto).
    split; [ reflexivity | ]. split; [ exact H2 | ].
    exists (line :: used). cbn -[convert_loop]. congruence.
Qed.

Lemma tries_print (P : output -> bool) (G : globals) (today : date)
    (raw : pystr) :
  P Blank = true -> P BoxBottom = true ->
  (forall k, P (Title k) = true) -> (forall k v, P (Line k v) = true) ->
  io_all P (age_gregorian_try G today raw)
  /\ io_all P (age_jalali_try G today raw)
  /\ io_all P (convert_j2g_try G raw)
  /\ io_all P (convert_g2j_try G raw).
Proof.
  intros Pb Px Pt Pl.
  unfold age_gregorian_try, age_jalali_try, convert_j2g_try,
    convert_g2j_try, show_age_card, show_convert_card.
  repeat split;
    repeat first
      [ apply io_all_lift
      | apply io_all_print; auto
      | apply io_all_bind; [ | intros ? ]
      | match goal with
        | |- io_all _ (if ?b then _ else _) => destruct b
        | |- io_all _ (let '(_, _) := ?x in _) => destruct x
        end ].
Qed.

Lemma today_note_cases (w : world) :
  let c := today_note w (get_current_date w) in
  (c = ([], Ok tt) \/ c = ([Say ONLINE_INFO], Ok tt)
   \/ exists e, date_today w = Raise e /\ c = ([], Raise e)).
Proof.
  cbv zeta. unfold today_note.
  rewrite get_current_date_plausible. cbn [negb].
  destruct (date_today w) as [now | e]; cbn.
  - destruct (negb _); auto.
  - right. right. eauto.
Qed.

(** X10: The warning about the fallback date is never shown: the date that
    [get_current_date] returns always has a plausible year, the fallback
    2000-01-01 included, so the test of the two age flows for an
    implausible today never holds, whatever the clock, the network, the
    backend and the input. *)
Theorem fallback_warning_never_printed (G : globals) (w : world)
    (input : list pystr) :
  ~ In (Say FALLBACK_WARN)
       (printed (calculate_age_gregorian_flow G w input))
  /\ ~ In (Say FALLBACK_WARN)
          (printed (calculate_age_jalali_flow G w input)).
Proof.
  assert (L : forall ask try_,
             (forall raw, io_all not_fallback_warning (try_ raw)) ->
             forallb not_fallback_warning
               (printed
                  (match today_note w (get_current_date w) with
                   | (o, Raise e) => mkrun o (Raise e) input
                   | (o, Ok _) => after o (age_loop ask try_ input)
                   end)) = true).
  { intros ask try_ Ht.
    destruct (age_loop_run not_fallback_warning ask try_ input
                eq_refl eq_refl (fun _ => eq_refl) Ht) as (H & _).
    destruct (today_note_cases w) as [-> | [-> | (e & _ & ->)]].
    - rewrite forallb_after, H. reflexivity.
    - rewrite forallb_after, H. reflexivity.
    - reflexivity. }
  assert (N : forall l, forallb not_fallback_warning l = true ->
                        ~ In (Say FALLBACK_WARN) l).
  { intros l H I. rewrite forallb_forall in H. apply H in I. discriminate. }
  pose proof (fun raw =>
                tries_print not_fallback_warning G (get_current_date w) raw
                  eq_refl eq_refl (fun _ => eq_refl) (fun _ _ => eq_refl))
    as T.
  split; apply N.
  - unfold calculate_age_gregorian_flow. apply L. intros raw.
    apply (T raw).
  - unfold calculate_age_jalali_flow.
    destruct (negb (JALALI_OK G)); [ reflexivity | ].
    apply L. intros raw. apply (T raw).
Qed.

Lemma flow_endings (G : globals) (w : world) (input : list pystr) :
  ends_well input (convert_jalali_to_gregorian_flow G input)
  /\ ends_well input (convert_gregorian_to_jalali_flow G input)
  /\ (ends_well input (calculate_age_gregorian_flow G w input)
      \/ clock_fails w input (calculate_age_gregorian_flow G w input))
  /\ (ends_well input (calculate_age_jalali_flow G w input)
      \/ clock_fails w input (calculate_age_jalali_flow G w input)).
Proof.
  unfold ends_well, clock_fails.
  assert (C : forall ask try_,
             (forall raw, io_all anything (try_ raw)) ->
             let r := convert_loop ask try_ input in
             (outcome r = Ok tt
              \/ (outcome r = Raise EOFError /\ unread r = []))
             /\ exists used, input = used ++ unread r).
  { intros ask try_ Ht.
    apply (convert_loop_run anything ask try_ input eq_refl
             (fun _ => eq_refl) Ht). }
  assert (A : forall ask try_,
             (forall raw, io_all anything (try_ raw)) ->
             let r := match today_note w (get_current_date w) with
                      | (o, Raise e) => mkrun o (Raise e) input
                      | (o, Ok _) => after o (age_loop ask try_ input)
                      end in
             ((outcome r = Ok tt
               \/ (outcome r = Raise EOFError /\ unread r = []))
              /\ exists used, input = used ++ unread r)
             \/ exists e, date_today w = Raise e
                          /\ r = mkrun [] (Raise e) input).
  { intros ask try_ Ht. cbv zeta.
    pose proof (age_loop_run anything ask try_ input eq_refl eq_refl
                  (fun _ => eq_refl) Ht) as (_ & H).
    destruct (today_note_cases w) as [-> | [-> | (e & E & ->)]].
    - left. exact H.
    - left. exact H.
    - right. exists e. auto. }
  assert (Q : (outcome (mkrun [Say NEED_JALALI] (Ok tt) input) = Ok tt
               \/ (outcome (mkrun [Say NEED_JALALI] (Ok tt) input)
                   = Raise EOFError
                   /\ unread (mkrun [Say NEED_JALALI] (Ok tt) input) = []))
              /\ exists used,
                   input
                   = used ++ unread (mkrun [Say NEED_JALALI] (Ok tt) input)).
  { split; [ left; reflexivity | exists []; reflexivity ]. }
  pose proof (fun raw =>
                tries_print anything G (get_current_date w) raw
                  eq_refl eq_refl (fun _ => eq_refl) (fun _ _ => eq_refl))
    as T.
  unfold convert_jalali_to_gregorian_flow, convert_gregorian_to_jalali_flow,
    calculate_age_gregorian_flow, calculate_age_jalali_flow.
  split.
  { destruct (negb (JALALI_OK G)); [ exact Q | ].
    apply C. intros raw. apply (T raw). }
  split.
  { destruct (negb (JALALI_OK G)); [ exact Q | ].
    apply C. intros raw. apply (T raw). }
  split.
  { apply A. intros raw. apply (T raw). }
  destruct (negb (JALALI_OK G)); [ left; exact Q | ].
  apply A. intros raw. apply (T raw).
Qed.

(** X11: How a flow can end.  A conversion flow ends by returning or because
    the input ran out; an age flow may also end, before its first
    prompt, with the exception of a clock that cannot be read.  No
    error of parsing, of the calendar or of the backend ends a flow.
    What a flow has not read is the end of its input, and nothing is
    left when the input ran out. *)
Theorem flows_end (G : globals) (w : world) (input : list pystr) :
  ends_well input (convert_jalali_to_gregorian_flow G input)
  /\ ends_well input (convert_gregorian_to_jalali_flow G input)
  /\ (ends_well input (calculate_age_gregorian_flow G w input)
      \/ clock_fails w input (calculate_age_gregorian_flow G w input))
  /\ (ends_well input (calculate_age_jalali_flow G w input)
      \/ clock_fails w input (calculate_age_jalali_flow G w input)).
Proof. exact (flow_endings G w input). Qed.

(** X12: The box of the age card is closed exactly when the card completes:
    when [show_age_card] returns, it has printed the title first and
    the bottom of the box last; when a conversion or the next birthday
    raises in the middle, the title is out and the bottom never is. *)
Theorem show_age_card_box (G : globals) (born today : date)
    (ymd : Z * Z * Z) (d2n : Z) :
  let '(o, r) := show_age_card G born today ymd d2n in
  hd_error o = Some (Title AGE_CARD)
  /\ match r with
     | Ok _ => last o Blank = BoxBottom
     | Raise _ => ~ In BoxBottom o
     end.
Proof.
  unfold show_age_card.
  destruct (JALALI_OK G); cbn;
    repeat match goal with
           | |- context [gdate_to_jtuple ?G ?x] =>
               destruct (gdate_to_jtuple G x); cbn
           | |- context [next_birthday_after ?a ?b] =>
               destruct (next_birthday_after a b); cbn
           end;
    (split; [ reflexivity | ]);
    try reflexivity;
    intros H; repeat (destruct H as [H | H]; [ discriminate | ]);
    exact H.
Qed.

End FlowProperties.

(** ** The backends and the wrappers *)

Section WrapperProperties.

(** X13: Which backend serves.  [pkg_convertdate sp] is what [from
    convertdate import jalali] binds, and is [None] when that import
    raises, as it does with a [convertdate] that has no module
    [jalali]; [pkg_jdatetime sp] is what [import jdatetime] binds.
    When the first import succeeds the wrappers go through [cv_jalali],
    whether or not the second would succeed; when it raises and the
    second succeeds they go through [jd]; when both raise they raise
    the [RuntimeError].  In each case the answer is exactly that of the
    entry point of the module, except that the triple from [cv_jalali]
    still has to pass the constructor of [date]. *)
Theorem backend_preference (sp : site_packages) (g : date)
    (jy jm jd_ : Z) :
  let G := import_backends sp in
  (forall cv, pkg_convertdate sp = Some cv ->
     JALALI_OK G = true
     /\ gdate_to_jtuple G g = from_gregorian cv (year g) (month g) (day g)
     /\ jtuple_to_gdate G jy jm jd_
        = ('(gy, gm, gd) <- to_gregorian cv jy jm jd_ ;; date_new gy gm gd))
  /\ (forall j, pkg_convertdate sp = None -> pkg_jdatetime sp = Some j ->
        JALALI_OK G = true
        /\ gdate_to_jtuple G g
           = (x <- fromgregorian j g ;; Ok (jyear x, jmonth x, jday x))
        /\ jtuple_to_gdate G jy jm jd_
           = (x <- jd_date j jy jm jd_ ;; togregorian j x))
  /\ (pkg_convertdate sp = None -> pkg_jdatetime sp = None ->
      JALALI_OK G = false
      /\ gdate_to_jtuple G g = Raise no_backend
      /\ jtuple_to_gdate G jy jm jd_ = Raise no_backend).
Proof.
  cbv zeta. unfold import_backends.
  destruct (pkg_convertdate sp) as [cv | ];
    [ | destruct (pkg_jdatetime sp) as [j | ] ].
  - split; [ intros cv' [= <-]; auto | ].
    split; [ intros j; discriminate | discriminate ].
  - split; [ intros cv; discriminate | ].
    split; [ intros j' _ [= <-]; auto | intros _; discriminate ].
  - split; [ intros cv; discriminate | ].
    split; [ intros j' _; discriminate | auto ].
Qed.

(** X13, example: the first import raises and [jdatetime] is found:
    [jdatetime] serves. *)
Lemma backend_preference_witness :
  gdate_to_jtuple
    (import_backends
       {| pkg_convertdate := None;
          pkg_jdatetime := Some JalaliConverter.jdatetime_pkg |})
    (mkdate 2025 10 18)
  = (x <- fromgregorian JalaliConverter.jdatetime_pkg (mkdate 2025 10 18) ;;
     Ok (jyear x, jmonth x, jday x))
  /\ JALALI_BACKEND
       (import_backends
          {| pkg_convertdate := None;
             pkg_jdatetime := Some JalaliConverter.jdatetime_pkg |})
     = Some jdatetime_backend.
Proof.
  destruct (backend_preference
              {| pkg_convertdate := None;
                 pkg_jdatetime := Some JalaliConverter.jdatetime_pkg |}
              (mkdate 2025 10 18) 1404 7 26) as (_ & H & _).
  destruct (H JalaliConverter.jdatetime_pkg eq_refl eq_refl) as (_ & E & _).
  split; [ exact E | reflexivity ].
Defined.

(** X14: Through [convertdate], [jtuple_to_gdate] never hands out a triple
    that is no date: whatever the package computes, a date that comes
    back is a real date with the fields the package gave. *)
Theorem jtuple_to_gdate_checked (sp : site_packages)
    (cv : convertdate_jalali) (jy jm jd_ : Z) (g : date) :
  pkg_convertdate sp = Some cv ->
  jtuple_to_gdate (import_backends sp) jy jm jd_ = Ok g ->
  date_ok g = true
  /\ to_gregorian cv jy jm jd_ = Ok (year g, month g, day g).
Proof.
  intros Hcv. unfold import_backends. rewrite Hcv.
  unfold jtuple_to_gdate. cbn.
  destruct (to_gregorian cv jy jm jd_) as [[[gy gm] gd] | e]; cbn;
    [ | discriminate ].
  intros E. apply date_new_inv in E. destruct E as [-> Hok].
  split; [ exact Hok | reflexivity ].
Qed.

(** X14, example: [jtuple_to_gdate_checked] at a concrete input. *)
Lemma jtuple_to_gdate_checked_witness :
  date_ok (mkdate 2025 10 18) = true
  /\ to_gregorian JalaliConverter.convertdate_pkg 1404 7 26
     = Ok (2025, 10, 18).
Proof.
  apply (jtuple_to_gdate_checked
           {| pkg_convertdate := Some JalaliConverter.convertdate_pkg;
              pkg_jdatetime := None |}
           JalaliConverter.convertdate_pkg 1404 7 26 (mkdate 2025 10 18));
    reflexivity.
Defined.

(** X15: The wrappers add nothing to a round trip of the package: where
    [convertdate] maps the fields of a date to a Jalali triple and that
    triple back to the same fields, [gdate_to_jtuple] followed by
    [jtuple_to_gdate] gives the date back. *)
Theorem wrappers_keep_round_trip (sp : site_packages)
    (cv : convertdate_jalali) (g : date) (jy jm jd_ : Z) :
  pkg_convertdate sp = Some cv -> date_ok g = true ->
  from_gregorian cv (year g) (month g) (day g) = Ok (jy, jm, jd_) ->
  to_gregorian cv jy jm jd_ = Ok (year g, month g, day g) ->
  gdate_to_jtuple (import_backends sp) g = Ok (jy, jm, jd_)
  /\ jtuple_to_gdate (import_backends sp) jy jm jd_ = Ok g.
Proof.
  intros Hcv Hok Hf Ht. unfold import_backends. rewrite Hcv.
  unfold gdate_to_jtuple, jtuple_to_gdate. cbn. rewrite Hf, Ht. cbn.
  split; [ reflexivity | ].
  destruct g as [gy gm gd]. apply date_new_ok. exact Hok.
Qed.

(** X15, example: [wrappers_keep_round_trip] at a concrete input. *)
Lemma wrappers_keep_round_trip_witness :
  gdate_to_jtuple
    (import_backends
       {| pkg_convertdate := Some JalaliConverter.convertdate_pkg;
          pkg_jdatetime := None |}) (mkdate 2025 10 18)
  = Ok (1404, 7, 26)
  /\ jtuple_to_gdate
       (import_backends
          {| pkg_convertdate := Some JalaliConverter.convertdate_pkg;
             pkg_jdatetime := None |}) 1404 7 26
     = Ok (mkdate 2025 10 18).
Proof.
  apply (wrappers_keep_round_trip
           {| pkg_convertdate := Some JalaliConverter.convertdate_pkg;
              pkg_jdatetime := None |}
           JalaliConverter.convertdate_pkg);
    reflexivity.
Defined.

End WrapperProperties.

(** ** Boxes *)

Section BoxProperties.

Lemma len_app (a b : pystr) : len (a ++ b) = len a + len b.
Proof. unfold len. rewrite length_app. lia. Qed.

Lemma len_str_mul (c n : Z) : len (str_mul c n) = Z.max 0 n.
Proof. unfold len, str_mul. rewrite repeat_length. lia. Qed.

Lemma len_slice_to (s : pystr) (n : Z) :
  0 <= n -> len (slice_to s n) = Z.min n (len s).
Proof. intros H. unfold len, slice_to. rewrite length_firstn. lia. Qed.

(** X16: Every line of a box is exactly [WIDTH] characters wide, in both
    languages, whatever it holds and whatever the shaping packages do
    to the text: short content is padded, long content is cut. *)
Theorem box_line_width (LANG : language) (libs : shaping)
    (content label value : pystr) :
  len (render_box_line LANG libs content) = WIDTH
  /\ len (line LANG libs label value) = WIDTH.
Proof.
  assert (H : forall c, len (render_box_line LANG libs c) = WIDTH).
  { intros c. unfold render_box_line. cbv zeta.
    rewrite !len_app, len_slice_to by (unfold WIDTH; lia).
    change (len [9553]) with 1.
    destruct (is_rtl LANG); unfold rjust, ljust;
      rewrite len_app, len_str_mul; unfold WIDTH; lia. }
  split; [ apply H | unfold line; apply H ].
Qed.

(** X17: A title is never cut: the box is [WIDTH] wide when the title, with
    a space on each side, fits in [WIDTH - 2] characters, and as wide
    as the title plus its two corners when it does not. *)
Theorem box_title_width (LANG : language) (libs : shaping) (text : pystr) :
  let shown := shape_if_needed LANG libs ([32] ++ strip text ++ [32]) in
  len (render_box_title LANG libs text) = Z.max WIDTH (len shown + 2)
  /\ hd_error (render_box_title LANG libs text) = Some 9556
  /\ last (render_box_title LANG libs text) 0 = 9559.
Proof.
  cbv zeta. unfold render_box_title. cbv zeta.
  set (shown := shape_if_needed LANG libs ([32] ++ strip text ++ [32])).
  destruct (is_rtl LANG).
  - split.
    { rewrite !len_app, len_str_mul. change (len [9556]) with 1.
      change (len [9559]) with 1. unfold WIDTH. lia. }
    split; [ reflexivity | ].
    rewrite !app_assoc. apply last_last.
  - split.
    { rewrite !len_app, len_str_mul. change (len [9556]) with 1.
      change (len [9559]) with 1. unfold WIDTH. lia. }
    split; [ reflexivity | ].
    rewrite !app_assoc. apply last_last.
Qed.

(** X18: What a line of a box shows.  In English the content is not shaped:
    content of at most [WIDTH - 2] characters is shown in full and
    padded on the right, longer content loses its end.  In Persian the
    shaped content is padded on the left, and when it is too long it
    also loses its end. *)
Theorem box_line_content (libs : shaping) (content : pystr) :
  let inner := WIDTH - 2 in
  let shaped := fa_shape libs content in
  (len content <= inner ->
   render_box_line en libs content
   = [9553] ++ content ++ str_mul 32 (inner - len content) ++ [9553])
  /\ (inner <= len content ->
      render_box_line en libs content
      = [9553] ++ slice_to content inner ++ [9553])
  /\ (len shaped <= inner ->
      render_box_line fa libs content
      = [9553] ++ str_mul 32 (inner - len shaped) ++ shaped ++ [9553])
  /\ (inner <= len shaped ->
      render_box_line fa libs content
      = [9553] ++ slice_to shaped inner ++ [9553]).
Proof.
  cbv zeta. unfold render_box_line, shape_if_needed, is_rtl. cbv zeta.
  unfold ljust, rjust, slice_to, str_mul, len, WIDTH.
  repeat split; intros H.
  - rewrite firstn_all2 by (rewrite length_app, repeat_length; lia).
    rewrite <- !app_assoc. reflexivity.
  - rewrite firstn_app.
    replace (Z.to_nat (56 - 2) - List.length content)%nat with 0%nat by lia.
    cbn [firstn]. rewrite app_nil_r. reflexivity.
  - rewrite firstn_all2 by (rewrite length_app, repeat_length; lia).
    rewrite <- !app_assoc. reflexivity.
  - replace (Z.to_nat (56 - 2 - Z.of_nat (List.length (fa_shape libs content))))
      with 0%nat by lia.
    reflexivity.
Qed.

End BoxProperties.

(** ** The menus *)

Section MenuProperties.
Context {U : UnicodeData}.
Variable G : globals.
Variable w : world.

Lemma main_menu_step (fuel : nat) (LANG : language) (answer : pystr)
    (rest : list pystr) :
  main_menu G w (Datatypes.S fuel) LANG (answer :: rest)
  = let choice := strip (normalize_digits answer) in
    match chosen_session G w LANG choice rest with
    | Some s =>
        match ended s with
        | Ok _ =>
            match main_menu G w fuel (LANG_after s) (remaining s) with
            | Some r => Some (before (menu_screen LANG ++ screens s) r)
            | None => None
            end
        | Raise e =>
            Some (mksession (menu_screen LANG ++ screens s) (Raise e)
                    (remaining s) (LANG_after s))
        end
    | None =>
        if str_eqb choice digit_0 then
          Some (mksession (menu_screen LANG ++ [MenuSay LANG GOODBYE])
                  (Ok tt) rest LANG)
        else
          match main_menu G w fuel LANG rest with
          | Some r =>
              Some (before (menu_screen LANG ++ [MenuSay LANG INVALID]) r)
          | None => None
          end
    end.
Proof. reflexivity. Qed.

(** What any of the five choices leaves behind. *)
Lemma chosen_session_facts (LANG : language) (choice : pystr)
    (rest : list pystr) (s : session) :
  chosen_session G w LANG choice rest = Some s ->
  (exists used, rest = used ++ remaining s)
  /\ forallb (fun x => negb (is_goodbye x)) (screens s) = true
  /\ (ended s = Ok tt
      \/ (ended s = Raise EOFError /\ remaining s = [])
      \/ exists e, date_today w = Raise e /\ ended s = Raise e)
  /\ (LANG_after s = LANG \/ choice = digit_5)
  /\ Forall (fun x => screen_language x = None
                      \/ screen_language x = Some LANG) (screens s).
Proof.
  assert (F : forall r,
             (ends_well rest r \/ clock_fails w rest r) ->
             (exists used, rest = used ++ remaining (call_flow LANG r))
             /\ forallb (fun x => negb (is_goodbye x))
                  (screens (call_flow LANG r)) = true
             /\ (ended (call_flow LANG r) = Ok tt
                 \/ (ended (call_flow LANG r) = Raise EOFError
                     /\ remaining (call_flow LANG r) = [])
                 \/ exists e, date_today w = Raise e
                              /\ ended (call_flow LANG r) = Raise e)
             /\ (LANG_after (call_flow LANG r) = LANG \/ choice = digit_5)
             /\ Forall (fun x => screen_language x = None
                                 \/ screen_language x = Some LANG)
                  (screens (call_flow LANG r))).
  { intros r H. unfold call_flow. cbn [screens ended remaining LANG_after].
    split.
    { destruct H as [[_ H] | (e & _ & ->)]; [ exact H | ].
      exists []. reflexivity. }
    split.
    { apply forallb_forall. intros x Hx. apply in_map_iff in Hx.
      destruct Hx as (o & <- & _). reflexivity. }
    split.
    { destruct H as [[[H | H] _] | (e & E & ->)]; auto.
      right. right. exists e. auto. }
    split; [ left; reflexivity | ].
    apply Forall_forall. intros x Hx. apply in_map_iff in Hx.
    destruct Hx as (o & <- & _). right. reflexivity. }
  pose proof (flow_endings G w rest) as (E3 & E4 & E1 & E2).
  unfold chosen_session.
  destruct (str_eqb choice digit_1); [ intros [= <-]; apply F; exact E1 | ].
  destruct (str_eqb choice digit_2); [ intros [= <-]; apply F; exact E2 | ].
  destruct (str_eqb choice digit_3);
    [ intros [= <-]; apply F; left; exact E3 | ].
  destruct (str_eqb choice digit_4);
    [ intros [= <-]; apply F; left; exact E4 | ].
  destruct (str_eqb choice digit_5) eqn:C5; [ | discriminate ].
  intros [= <-].
  assert (E5 : choice = digit_5).
  { unfold str_eqb in C5.
    destruct (list_eq_dec Z.eq_dec choice digit_5); [ assumption | ].
    discriminate. }
  unfold language_menu. destruct rest as [ | answer rest' ].
  - cbn. split; [ exists []; reflexivity | ].
    split; [ reflexivity | ]. split; [ auto | ]. split; [ auto | ].
    apply Forall_forall. intros x Hx. cbn in Hx.
    repeat (destruct Hx as [<- | Hx]; [ cbn; auto | ]). contradiction.
  - cbv zeta.
    destruct (str_eqb (strip (normalize_digits answer)) digit_1); cbn;
      (split; [ exists [answer]; reflexivity | ]);
      (split; [ reflexivity | ]); (split; [ auto | ]);
      (split; [ auto | ]);
      (apply Forall_forall; intros x Hx; cbn in Hx;
       repeat (destruct Hx as [<- | Hx]; [ cbn; auto | ]); contradiction).
Qed.

Lemma menu_screen_language (LANG : language) :
  Forall (fun x => screen_language x = None
                   \/ screen_language x = Some LANG) (menu_screen LANG).
Proof.
  apply Forall_forall. intros x Hx. cbn in Hx.
  repeat (destruct Hx as [<- | Hx]; [ cbn; auto | ]). contradiction.
Qed.

Ltac no_goodbye :=
  repeat rewrite forallb_app;
  cbn [forallb is_goodbye negb andb menu_screen];
  repeat match goal with
         | H : forallb _ _ = true |- _ => rewrite H
         end;
  reflexivity.

Ltac in_language :=
  repeat first
    [ assumption
    | apply Forall_nil
    | apply Forall_cons; [ cbn; auto | ]
    | apply Forall_app; split ].

Lemma suffix_length (input used rest : list pystr) :
  input = used ++ rest -> (List.length rest <= List.length input)%nat.
Proof. intros ->. rewrite length_app. lia. Qed.

(** With more turns than lines the menu comes to its end, and further
    turns change nothing. *)
Lemma main_menu_enough (fuel : nat) :
  forall (LANG : language) (input : list pystr),
    (List.length input < fuel)%nat ->
    exists r,
      main_menu G w fuel LANG input = Some r
      /\ (exists used, input = used ++ remaining r)
      /\ forall fuel', (List.length input < fuel')%nat ->
                       main_menu G w fuel' LANG input = Some r.
Proof.
  induction fuel as [ | fuel IH ]; intros LANG input L; [ lia | ].
  destruct input as [ | answer rest ].
  - eexists. split; [ reflexivity | ]. split; [ exists []; reflexivity | ].
    intros [ | fuel' ] L'; [ cbn in L'; lia | reflexivity ].
  - cbn [List.length] in L. rewrite main_menu_step. cbv zeta.
    destruct (chosen_session G w LANG (strip (normalize_digits answer)) rest)
      as [ s | ] eqn:C.
    + destruct (chosen_session_facts _ _ _ _ C) as ((used & Eu) & _).
      pose proof (suffix_length _ _ _ Eu) as Ls.
      destruct (ended s) as [ u | e ] eqn:E.
      * destruct (IH (LANG_after s) (remaining s))
          as (r & R & (used' & Er) & F); [ lia | ].
        rewrite R. eexists. split; [ reflexivity | ]. split.
        { exists (answer :: used ++ used'). cbn [before remaining].
          rewrite Eu at 1. rewrite Er at 1. cbn. rewrite <- app_assoc.
          reflexivity. }
        intros [ | fuel' ] L'; [ cbn in L'; lia | ]. cbn [List.length] in L'.
        rewrite main_menu_step. cbv zeta. rewrite C, E.
        rewrite (F fuel') by lia. reflexivity.
      * eexists. split; [ reflexivity | ]. split.
        { exists (answer :: used). cbn [remaining]. rewrite Eu at 1.
          reflexivity. }
        intros [ | fuel' ] L'; [ cbn in L'; lia | ].
        rewrite main_menu_step. cbv zeta. rewrite C, E. reflexivity.
    + destruct (str_eqb (strip (normalize_digits answer)) digit_0) eqn:Z0.
      * eexists. split; [ reflexivity | ]. split;
          [ exists [answer]; reflexivity | ].
        intros [ | fuel' ] L'; [ cbn in L'; lia | ].
        rewrite main_menu_step. cbv zeta. rewrite C, Z0. reflexivity.
      * destruct (IH LANG rest) as (r & R & (used' & Er) & F); [ lia | ].
        rewrite R. eexists. split; [ reflexivity | ]. split.
        { exists (answer :: used'). cbn [before remaining]. rewrite Er at 1.
          reflexivity. }
        intros [ | fuel' ] L'; [ cbn in L'; lia | ]. cbn [List.length] in L'.
        rewrite main_menu_step. cbv zeta. rewrite C, Z0.
        rewrite (F fuel') by lia. reflexivity.
Qed.

(** X19: The main menu always comes to an end: with one turn more than there
    are input lines it returns, what it leaves unread is the end of the
    input, and any larger number of turns gives the same visit. *)
Theorem main_menu_returns (fuel : nat) (LANG : language)
    (input : list pystr) :
  (List.length input < fuel)%nat ->
  exists r,
    main_menu G w fuel LANG input = Some r
    /\ main_menu G w (Datatypes.S (List.length input)) LANG input = Some r
    /\ exists used, input = used ++ remaining r.
Proof.
  intros L. destruct (main_menu_enough fuel LANG input L) as (r & R & Su & F).
  exists r. split; [ exact R | ]. split; [ apply F; lia | exact Su ].
Qed.

(** X20: The menu returns normally only after the goodbye, which is then the
    last thing printed and printed once; every other visit ends with
    [EOFError] at the end of the input, or with the exception of the
    clock, and has printed no goodbye. *)
Theorem main_menu_ends (fuel : nat) :
  forall (LANG : language) (input : list pystr) (r : session),
    main_menu G w fuel LANG input = Some r ->
    match ended r with
    | Ok _ =>
        exists pre,
          screens r = pre ++ [MenuSay (LANG_after r) GOODBYE]
          /\ forallb (fun x => negb (is_goodbye x)) pre = true
    | Raise e =>
        forallb (fun x => negb (is_goodbye x)) (screens r) = true
        /\ ((e = EOFError /\ remaining r = []) \/ date_today w = Raise e)
    end.
Proof.
  induction fuel as [ | fuel IH ]; intros LANG input r; [ discriminate | ].
  destruct input as [ | answer rest ].
  - intros [= <-]. cbn. auto.
  - rewrite main_menu_step. cbv zeta.
    destruct (chosen_session G w LANG (strip (normalize_digits answer)) rest)
      as [ s | ] eqn:C.
    + destruct (chosen_session_facts _ _ _ _ C) as (_ & Ng & En & _).
      destruct (ended s) as [ u | e ] eqn:E.
      * destruct (main_menu G w fuel (LANG_after s) (remaining s))
          as [ r' | ] eqn:R; [ | discriminate ].
        intros [= <-]. specialize (IH _ _ _ R).
        cbn [before ended screens LANG_after remaining].
        destruct (ended r') as [ u' | e' ].
        { destruct IH as (pre & -> & P).
          exists ((menu_screen LANG ++ screens s) ++ pre).
          split; [ rewrite <- !app_assoc; reflexivity | ].
          no_goodbye. }
        { destruct IH as (P & Q). split; [ | exact Q ].
          no_goodbye. }
      * intros [= <-]. cbn [ended screens remaining]. split.
        { no_goodbye. }
        destruct En as [En | [(En & Rm) | (e0 & D & En)]].
        { discriminate. }
        { left. split; [ congruence | exact Rm ]. }
        { right. congruence. }
    + destruct (str_eqb (strip (normalize_digits answer)) digit_0) eqn:Z0.
      * intros [= <-]. cbn [ended screens LANG_after].
        exists (menu_screen LANG). split; reflexivity.
      * destruct (main_menu G w fuel LANG rest) as [ r' | ] eqn:R;
          [ | discriminate ].
        intros [= <-]. specialize (IH _ _ _ R).
        cbn [before ended screens LANG_after remaining].
        destruct (ended r') as [ u' | e' ].
        { destruct IH as (pre & -> & P).
          exists ((menu_screen LANG ++ [MenuSay LANG INVALID]) ++ pre).
          split; [ rewrite <- !app_assoc; reflexivity | ].
          no_goodbye. }
        { destruct IH as (P & Q). split; [ | exact Q ].
          no_goodbye. }
Qed.

(** X21: The language changes only through choice 5: when no line of the
    input is that choice, the menu ends in the language it started in
    and everything it showed was shown in that language. *)
Theorem language_kept (fuel : nat) :
  forall (LANG : language) (input : list pystr) (r : session),
    (forall l, In l input -> strip (normalize_digits l) <> digit_5) ->
    main_menu G w fuel LANG input = Some r ->
    LANG_after r = LANG
    /\ Forall (fun x => screen_language x = None
                        \/ screen_language x = Some LANG) (screens r).
Proof.
  induction fuel as [ | fuel IH ]; intros LANG input r N; [ discriminate | ].
  destruct input as [ | answer rest ].
  - intros [= <-]. cbn [LANG_after screens]. split; [ reflexivity | ].
    apply menu_screen_language.
  - assert (N0 : strip (normalize_digits answer) <> digit_5)
      by (apply N; left; reflexivity).
    rewrite main_menu_step. cbv zeta.
    destruct (chosen_session G w LANG (strip (normalize_digits answer)) rest)
      as [ s | ] eqn:C.
    + destruct (chosen_session_facts _ _ _ _ C)
        as ((used & Eu) & _ & _ & [La | F5] & Fs); [ | contradiction ].
      destruct (ended s) as [ u | e ] eqn:E.
      * destruct (main_menu G w fuel (LANG_after s) (remaining s))
          as [ r' | ] eqn:R; [ | discriminate ].
        intros [= <-]. rewrite La in R.
        destruct (IH _ _ _ (fun l Hl => N l (or_intror
                     (eq_ind_r (fun x => In l x)
                        (in_or_app used (remaining s) l (or_intror Hl)) Eu)))
                    R) as (A & B).
        cbn [before LANG_after screens]. split; [ exact A | ].
        in_language.
      * intros [= <-]. cbn [LANG_after screens]. split; [ exact La | ].
        in_language.
    + destruct (str_eqb (strip (normalize_digits answer)) digit_0) eqn:Z0.
      * intros [= <-]. cbn [LANG_after screens]. split; [ reflexivity | ].
        in_language.
      * destruct (main_menu G w fuel LANG rest) as [ r' | ] eqn:R;
          [ | discriminate ].
        intros [= <-].
        destruct (IH _ _ _ (fun l Hl => N l (or_intror Hl)) R) as (A & B).
        cbn [before LANG_after screens]. split; [ exact A | ].
        apply Forall_app. split; [ | exact B ].
        in_language.
Qed.

Lemma space_p2l (c : Z) : isspace c = true -> p2l c = c.
Proof.
  intros H.
  destruct (p2l_cases c) as [(R & _) | [(R & _) | (_ & _ & E)]];
    [ | | exact E ];
    rewrite isspace_digit_ranges in H by lia; discriminate H.
Qed.

Lemma normalize_digits_spaces (ws : pystr) :
  forallb isspace ws = true -> normalize_digits ws = ws.
Proof.
  rewrite normalize_digits_map.
  induction ws as [ | c ws IH ]; cbn [map forallb]; [ reflexivity | ].
  intros H. apply andb_true_iff in H. destruct H as [Hc H].
  rewrite space_p2l by assumption. rewrite IH by assumption. reflexivity.
Qed.

(** A choice typed as one digit of any of the three scripts, with white
    space around it, is read as the ASCII digit. *)
Lemma choice_typed (ws1 ws2 : pystr) (base d : Z) :
  forallb isspace ws1 = true -> forallb isspace ws2 = true ->
  In base [48; 1632; 1776] -> 0 <= d <= 9 ->
  strip (normalize_digits (ws1 ++ [base + d] ++ ws2)) = [48 + d].
Proof.
  intros H1 H2 B D.
  assert (N : normalize_digits (ws1 ++ [base + d] ++ ws2)
              = ws1 ++ [48 + d] ++ ws2).
  { rewrite normalize_digits_map, !map_app.
    rewrite <- (normalize_digits_map ws1), <- (normalize_digits_map ws2).
    rewrite (normalize_digits_spaces ws1) by assumption.
    rewrite (normalize_digits_spaces ws2) by assumption.
    cbn [map app]. do 2 f_equal.
    destruct (p2l_cases (base + d)) as [(R & ->) | [(R & ->) | (A1 & A2 & ->)]];
      cbn in B; lia. }
  rewrite N, strip_spaces by assumption.
  assert (E : d = 0 \/ d = 1 \/ d = 2 \/ d = 3 \/ d = 4 \/ d = 5 \/ d = 6
              \/ d = 7 \/ d = 8 \/ d = 9) by lia.
  repeat (destruct E as [-> | E]; [ reflexivity | ]). subst d. reflexivity.
Qed.

(** X22: Both menus take their choice in Persian or Arabic-Indic digits and
    with white space around it: such a line does what the bare ASCII
    digit does. *)
Theorem menu_choice_typed (fuel : nat) (LANG : language)
    (ws1 ws2 : pystr) (base d : Z) (rest : list pystr) :
  forallb isspace ws1 = true -> forallb isspace ws2 = true ->
  In base [48; 1632; 1776] -> 0 <= d <= 9 ->
  main_menu G w fuel LANG ((ws1 ++ [base + d] ++ ws2) :: rest)
  = main_menu G w fuel LANG ([48 + d] :: rest)
  /\ language_menu LANG ((ws1 ++ [base + d] ++ ws2) :: rest)
     = language_menu LANG ([48 + d] :: rest).
Proof.
  intros H1 H2 B D.
  pose proof (choice_typed ws1 ws2 base d H1 H2 B D) as E.
  pose proof (choice_typed [] [] 48 d eq_refl eq_refl
                (or_introl eq_refl) D) as E0.
  cbn [app] in E0.
  split.
  - destruct fuel as [ | fuel ]; [ reflexivity | ].
    rewrite !main_menu_step. cbv zeta. rewrite E, E0. reflexivity.
  - unfold language_menu. cbv zeta. rewrite E, E0. reflexivity.
Qed.

End MenuProperties.

(** X18, example: [box_line_content] on "Age: 35" in English, without
    the shaping packages: the seven characters are followed by 47
    spaces. *)
Lemma box_line_content_witness :
  len s_age_35 <= WIDTH - 2
  /\ render_box_line en shaping_missing s_age_35
     = [9553] ++ s_age_35 ++ str_mul 32 (WIDTH - 2 - len s_age_35) ++ [9553].
Proof.
  assert (H : len s_age_35 <= WIDTH - 2) by (vm_compute; discriminate).
  split; [ exact H | ].
  exact (proj1 (box_line_content shaping_missing s_age_35) H).
Defined.

(** X19, example: [main_menu_returns] on three typed lines and ten turns. *)
Lemma main_menu_returns_witness :
  (List.length typed_5_1_0 < 10)%nat
  /\ exists r,
       main_menu (U := three_scripts) nothing_installed clock_2025_10_18
         10 fa typed_5_1_0 = Some r
       /\ main_menu (U := three_scripts) nothing_installed clock_2025_10_18
            (Datatypes.S (List.length typed_5_1_0)) fa typed_5_1_0 = Some r
       /\ exists used, typed_5_1_0 = used ++ remaining r.
Proof.
  assert (H : (List.length typed_5_1_0 < 10)%nat) by (cbn; lia).
  split; [ exact H | ].
  exact (main_menu_returns (U := three_scripts) nothing_installed
           clock_2025_10_18 10 fa typed_5_1_0 H).
Defined.

(** X20, example: [main_menu_ends] on the language menu, a switch and
    the exit: the visit returns, in English, with the goodbye last. *)
Lemma main_menu_ends_witness :
  exists r,
    main_menu (U := three_scripts) nothing_installed clock_2025_10_18
      4 fa typed_5_1_0 = Some r
    /\ ended r = Ok tt
    /\ LANG_after r = en
    /\ exists pre,
         screens r = pre ++ [MenuSay en GOODBYE]
         /\ forallb (fun x => negb (is_goodbye x)) pre = true.
Proof.
  eexists. split; [ reflexivity | ].
  split; [ reflexivity | ]. split; [ reflexivity | ].
  exact (main_menu_ends (U := three_scripts) nothing_installed
           clock_2025_10_18 4 fa typed_5_1_0 _ eq_refl).
Defined.

(** X21, example: [language_kept] on an invalid choice and the exit. *)
Lemma language_kept_witness :
  exists r,
    main_menu (U := three_scripts) nothing_installed clock_2025_10_18
      3 fa typed_9_0 = Some r
    /\ LANG_after r = fa
    /\ Forall (fun x => screen_language x = None
                        \/ screen_language x = Some fa) (screens r).
Proof.
  eexists. split; [ reflexivity | ].
  apply (language_kept (U := three_scripts) nothing_installed
           clock_2025_10_18 3 fa typed_9_0).
  - intros l [<- | [<- | []]]; vm_compute; discriminate.
  - reflexivity.
Defined.

(** X22, example: [menu_choice_typed] on the Persian five between two
    spaces. *)
Lemma menu_choice_typed_witness :
  main_menu (U := three_scripts) nothing_installed clock_2025_10_18
    5 fa ([32; 1781; 32] :: [[48]])
  = main_menu (U := three_scripts) nothing_installed clock_2025_10_18
      5 fa ([53] :: [[48]])
  /\ language_menu fa ([32; 1781; 32] :: [[48]])
     = language_menu fa ([53] :: [[48]]).
Proof.
  apply (menu_choice_typed (U := three_scripts) nothing_installed
           clock_2025_10_18 5 fa [32] [32] 1776 5 [[48]]).
  - reflexivity.
  - reflexivity.
  - right. right. left. reflexivity.
  - lia.
Defined.
